(** * Grbl on the LM4F120H5QR: stepper driver and status reporting

    A shallow embedding of [stepper.c] (the step-timer interrupt with its
    Bresenham tracer and trapezoid generator, and the cycle start / feed hold /
    resume entry points) and of [report_status_message] from [report.c],
    followed by the properties the specification states about them.

    Conventions.  A C integer is a [Z]; the result of every addition,
    subtraction and multiplication stored into a 32-bit object goes through
    [u32] or [s32], so wrap-around is explicit.  The module-level
    variables of the C files ([st], [current_block], [out_bits], [busy],
    [sys], [settings], the planner's ring and the timer/GPIO registers) are
    the fields of one record, [machine].  A block pointer is an index into
    the planner's block buffer; [None] is [NULL].  Integer division is
    fallible ([option]), so code that divides returns [option machine]. *)

From Stdlib Require Import ZArith Lia List String Ascii Bool.
Import ListNotations.
Local Open Scope Z_scope.

(* ================================================================== *)
(** ** 32-bit arithmetic *)

Definition u32 (x : Z) : Z := x mod 2 ^ 32.
Definition s32 (x : Z) : Z := (x + 2 ^ 31) mod 2 ^ 32 - 2 ^ 31.

Arguments u32 : simpl never.
Arguments s32 : simpl never.

Definition u32_ok (x : Z) : Prop := 0 <= x < 2 ^ 32.
Definition s32_ok (x : Z) : Prop := - 2 ^ 31 <= x < 2 ^ 31.

(** [a & mask] is non-zero: the macro [bit_istrue] and the bare tests
    [if (out_bits & (1<<BIT))]. *)
Definition bit_istrue (x mask : Z) : bool := negb (Z.land x mask =? 0).
(** [x |= mask]: the macro [bit_true]. *)
Definition bit_true (x mask : Z) : Z := Z.lor x mask.

(** Unsigned division as the C source uses it: undefined for a zero divisor. *)
Definition udiv (a b : Z) : option Z :=
  if b =? 0 then None else Some (Z.quot a b).

(** Sequencing of fallible steps. *)
Definition bind {A B : Type} (x : option A) (k : A -> option B) : option B :=
  match x with
  | Some a => k a
  | None => None
  end.

Notation "x <- e ;; k" := (bind e (fun x => k))
  (at level 61, e at next level, right associativity).

(* ================================================================== *)
(** ** Constants of the headers *)

(** Modelled from the spec: [config.h], [nuts_bolts.h] and [settings.h] are
    not among the sources, so the macros [stepper.c] takes from them are the
    fields of a record and every result below is stated for an arbitrary
    value of it. *)
Record config_h : Type := {
  F_CPU : Z;
  ACCELERATION_TICKS_PER_SECOND : Z;
  MINIMUM_STEPS_PER_MINUTE : Z;
  X_STEP_BIT : Z;
  Y_STEP_BIT : Z;
  Z_STEP_BIT : Z;
  X_DIRECTION_BIT : Z;
  Y_DIRECTION_BIT : Z;
  Z_DIRECTION_BIT : Z;
  STEP_MASK : Z;
  DIRECTION_MASK : Z;
  STEPPERS_DISABLE_BIT : Z;
  BITFLAG_INVERT_ST_ENABLE : Z;
  EXEC_CYCLE_STOP : Z;
  EXEC_ALARM : Z
}.

(** The three axes, the indices of [sys.position]. *)
Inductive axis : Type := X_AXIS | Y_AXIS | Z_AXIS.

(** Modelled from the spec: the values of [sys.state] ([STATE_*] of
    [nuts_bolts.h]); section 3 lists the eight states. *)
Inductive state_t : Type :=
  | STATE_IDLE
  | STATE_INIT
  | STATE_QUEUED
  | STATE_CYCLE
  | STATE_HOLD
  | STATE_HOMING
  | STATE_ALARM
  | STATE_CHECK_MODE.

Definition state_eqb (a b : state_t) : bool :=
  match a, b with
  | STATE_IDLE, STATE_IDLE | STATE_INIT, STATE_INIT
  | STATE_QUEUED, STATE_QUEUED | STATE_CYCLE, STATE_CYCLE
  | STATE_HOLD, STATE_HOLD | STATE_HOMING, STATE_HOMING
  | STATE_ALARM, STATE_ALARM | STATE_CHECK_MODE, STATE_CHECK_MODE => true
  | _, _ => false
  end.

(* ================================================================== *)
(** ** Data *)

(** Modelled from the spec: [block_t] of [planner.h], restricted to the
    fields the stepper reads.  Step counts, rates and thresholds are
    unsigned 32-bit values. *)
Record block_t : Type := {
  direction_bits : Z;
  steps_x : Z;
  steps_y : Z;
  steps_z : Z;
  step_event_count : Z;
  initial_rate : Z;
  final_rate : Z;
  rate_delta : Z;
  accelerate_until : Z;
  decelerate_after : Z;
  nominal_rate : Z
}.

Definition block_ok (b : block_t) : Prop :=
  u32_ok (direction_bits b) /\ u32_ok (steps_x b) /\ u32_ok (steps_y b) /\
  u32_ok (steps_z b) /\ u32_ok (step_event_count b) /\
  u32_ok (initial_rate b) /\ u32_ok (final_rate b) /\ u32_ok (rate_delta b) /\
  u32_ok (accelerate_until b) /\ u32_ok (decelerate_after b) /\
  u32_ok (nominal_rate b).

Definition steps (a : axis) (b : block_t) : Z :=
  match a with
  | X_AXIS => steps_x b
  | Y_AXIS => steps_y b
  | Z_AXIS => steps_z b
  end.

(** [stepper_t]: the counters are [int32_t], the rest [uint32_t]. *)
Record stepper_t : Type := {
  counter_x : Z;
  counter_y : Z;
  counter_z : Z;
  event_count : Z;
  step_events_completed : Z;
  cycles_per_step_event : Z;
  trapezoid_tick_cycle_counter : Z;
  trapezoid_adjusted_rate : Z;
  min_safe_rate : Z
}.

(** [memset(&st, 0, sizeof(st))] *)
Definition stepper_zero : stepper_t :=
  {| counter_x := 0; counter_y := 0; counter_z := 0; event_count := 0;
     step_events_completed := 0; cycles_per_step_event := 0;
     trapezoid_tick_cycle_counter := 0; trapezoid_adjusted_rate := 0;
     min_safe_rate := 0 |}.

Definition counter (a : axis) (s : stepper_t) : Z :=
  match a with
  | X_AXIS => counter_x s
  | Y_AXIS => counter_y s
  | Z_AXIS => counter_z s
  end.

Definition set_counter (a : axis) (v : Z) (s : stepper_t) : stepper_t :=
  {| counter_x := match a with X_AXIS => v | _ => counter_x s end;
     counter_y := match a with Y_AXIS => v | _ => counter_y s end;
     counter_z := match a with Z_AXIS => v | _ => counter_z s end;
     event_count := event_count s;
     step_events_completed := step_events_completed s;
     cycles_per_step_event := cycles_per_step_event s;
     trapezoid_tick_cycle_counter := trapezoid_tick_cycle_counter s;
     trapezoid_adjusted_rate := trapezoid_adjusted_rate s;
     min_safe_rate := min_safe_rate s |}.

Definition set_event_count (v : Z) (s : stepper_t) : stepper_t :=
  {| counter_x := counter_x s; counter_y := counter_y s;
     counter_z := counter_z s; event_count := v;
     step_events_completed := step_events_completed s;
     cycles_per_step_event := cycles_per_step_event s;
     trapezoid_tick_cycle_counter := trapezoid_tick_cycle_counter s;
     trapezoid_adjusted_rate := trapezoid_adjusted_rate s;
     min_safe_rate := min_safe_rate s |}.

Definition set_step_events_completed (v : Z) (s : stepper_t) : stepper_t :=
  {| counter_x := counter_x s; counter_y := counter_y s;
     counter_z := counter_z s; event_count := event_count s;
     step_events_completed := v;
     cycles_per_step_event := cycles_per_step_event s;
     trapezoid_tick_cycle_counter := trapezoid_tick_cycle_counter s;
     trapezoid_adjusted_rate := trapezoid_adjusted_rate s;
     min_safe_rate := min_safe_rate s |}.

Definition set_cycles_per_step_event (v : Z) (s : stepper_t) : stepper_t :=
  {| counter_x := counter_x s; counter_y := counter_y s;
     counter_z := counter_z s; event_count := event_count s;
     step_events_completed := step_events_completed s;
     cycles_per_step_event := v;
     trapezoid_tick_cycle_counter := trapezoid_tick_cycle_counter s;
     trapezoid_adjusted_rate := trapezoid_adjusted_rate s;
     min_safe_rate := min_safe_rate s |}.

Definition set_trapezoid_tick_cycle_counter (v : Z) (s : stepper_t)
  : stepper_t :=
  {| counter_x := counter_x s; counter_y := counter_y s;
     counter_z := counter_z s; event_count := event_count s;
     step_events_completed := step_events_completed s;
     cycles_per_step_event := cycles_per_step_event s;
     trapezoid_tick_cycle_counter := v;
     trapezoid_adjusted_rate := trapezoid_adjusted_rate s;
     min_safe_rate := min_safe_rate s |}.

Definition set_trapezoid_adjusted_rate (v : Z) (s : stepper_t) : stepper_t :=
  {| counter_x := counter_x s; counter_y := counter_y s;
     counter_z := counter_z s; event_count := event_count s;
     step_events_completed := step_events_completed s;
     cycles_per_step_event := cycles_per_step_event s;
     trapezoid_tick_cycle_counter := trapezoid_tick_cycle_counter s;
     trapezoid_adjusted_rate := v;
     min_safe_rate := min_safe_rate s |}.

Definition set_min_safe_rate (v : Z) (s : stepper_t) : stepper_t :=
  {| counter_x := counter_x s; counter_y := counter_y s;
     counter_z := counter_z s; event_count := event_count s;
     step_events_completed := step_events_completed s;
     cycles_per_step_event := cycles_per_step_event s;
     trapezoid_tick_cycle_counter := trapezoid_tick_cycle_counter s;
     trapezoid_adjusted_rate := trapezoid_adjusted_rate s;
     min_safe_rate := v |}.

(** [sys.position], an [int32_t[3]]. *)
Record position_t : Type := { pos_x : Z; pos_y : Z; pos_z : Z }.

Definition pos (a : axis) (p : position_t) : Z :=
  match a with
  | X_AXIS => pos_x p
  | Y_AXIS => pos_y p
  | Z_AXIS => pos_z p
  end.

Definition set_pos (a : axis) (v : Z) (p : position_t) : position_t :=
  {| pos_x := match a with X_AXIS => v | _ => pos_x p end;
     pos_y := match a with Y_AXIS => v | _ => pos_y p end;
     pos_z := match a with Z_AXIS => v | _ => pos_z p end |}.

(** [system_t]: the global [sys] declared in [main.c]. *)
Record system_t : Type := {
  abort : bool;
  state : state_t;
  execute : Z;
  position : position_t;
  auto_start : bool
}.

Definition set_state (v : state_t) (s : system_t) : system_t :=
  {| abort := abort s; state := v; execute := execute s;
     position := position s; auto_start := auto_start s |}.

Definition set_execute (v : Z) (s : system_t) : system_t :=
  {| abort := abort s; state := state s; execute := v;
     position := position s; auto_start := auto_start s |}.

Definition set_position (v : position_t) (s : system_t) : system_t :=
  {| abort := abort s; state := state s; execute := execute s;
     position := v; auto_start := auto_start s |}.

Definition set_auto_start (v : bool) (s : system_t) : system_t :=
  {| abort := abort s; state := state s; execute := execute s;
     position := position s; auto_start := v |}.

(** The fields of [settings] the stepper reads. *)
Record settings_t : Type := {
  flags : Z;
  invert_mask : Z;
  pulse_microseconds : Z;
  stepper_idle_lock_time : Z
}.

(** The registers the driver library calls act on: the two GPIO ports, and
    for each timer whether it runs and its load value. *)
Record hw_t : Type := {
  stepping_port : Z;
  steppers_disable_port : Z;
  timer1_enabled : bool;
  timer1_load : Z;
  timer2_enabled : bool;
  timer2_load : Z
}.

(** Modelled from the spec: the planner ([planner.c]) is not among the
    sources.  The stepper uses it through three calls and through the
    block pointers it hands out, so it is an interface: a planner state [P],
    the block a pointer designates, and the three operations. *)
Record planner_h (P : Type) : Type := {
  block_buffer : P -> nat -> block_t;
  plan_get_current_block : P -> option nat;
  plan_discard_current_block : P -> P;
  plan_cycle_reinitialize : Z -> P -> P
}.

Arguments block_buffer {P} _ _ _.
Arguments plan_get_current_block {P} _ _.
Arguments plan_discard_current_block {P} _ _.
Arguments plan_cycle_reinitialize {P} _ _ _.

(** All the module-level state of [stepper.c] and what it shares with the
    rest of the program. *)
Record machine (P : Type) : Type := {
  st : stepper_t;
  current_block : option nat;
  step_pulse_time : Z;
  out_bits : Z;
  busy : bool;
  sys : system_t;
  settings : settings_t;
  plan : P;
  hw : hw_t
}.

Arguments st {P} _.
Arguments current_block {P} _.
Arguments step_pulse_time {P} _.
Arguments out_bits {P} _.
Arguments busy {P} _.
Arguments sys {P} _.
Arguments settings {P} _.
Arguments plan {P} _.
Arguments hw {P} _.

Section MachineUpdate.
Context {P : Type}.

Definition set_st (v : stepper_t) (m : machine P) : machine P :=
  {| st := v; current_block := current_block m;
     step_pulse_time := step_pulse_time m; out_bits := out_bits m;
     busy := busy m; sys := sys m; settings := settings m; plan := plan m;
     hw := hw m |}.

Definition set_current_block (v : option nat) (m : machine P) : machine P :=
  {| st := st m; current_block := v;
     step_pulse_time := step_pulse_time m; out_bits := out_bits m;
     busy := busy m; sys := sys m; settings := settings m; plan := plan m;
     hw := hw m |}.

Definition set_step_pulse_time (v : Z) (m : machine P) : machine P :=
  {| st := st m; current_block := current_block m;
     step_pulse_time := v; out_bits := out_bits m;
     busy := busy m; sys := sys m; settings := settings m; plan := plan m;
     hw := hw m |}.

Definition set_out_bits (v : Z) (m : machine P) : machine P :=
  {| st := st m; current_block := current_block m;
     step_pulse_time := step_pulse_time m; out_bits := v;
     busy := busy m; sys := sys m; settings := settings m; plan := plan m;
     hw := hw m |}.

Definition set_busy (v : bool) (m : machine P) : machine P :=
  {| st := st m; current_block := current_block m;
     step_pulse_time := step_pulse_time m; out_bits := out_bits m;
     busy := v; sys := sys m; settings := settings m; plan := plan m;
     hw := hw m |}.

Definition set_sys (v : system_t) (m : machine P) : machine P :=
  {| st := st m; current_block := current_block m;
     step_pulse_time := step_pulse_time m; out_bits := out_bits m;
     busy := busy m; sys := v; settings := settings m; plan := plan m;
     hw := hw m |}.

Definition set_plan (v : P) (m : machine P) : machine P :=
  {| st := st m; current_block := current_block m;
     step_pulse_time := step_pulse_time m; out_bits := out_bits m;
     busy := busy m; sys := sys m; settings := settings m; plan := v;
     hw := hw m |}.

Definition set_hw (v : hw_t) (m : machine P) : machine P :=
  {| st := st m; current_block := current_block m;
     step_pulse_time := step_pulse_time m; out_bits := out_bits m;
     busy := busy m; sys := sys m; settings := settings m; plan := plan m;
     hw := v |}.

Definition upd_st (f : stepper_t -> stepper_t) (m : machine P) : machine P :=
  set_st (f (st m)) m.
Definition upd_sys (f : system_t -> system_t) (m : machine P) : machine P :=
  set_sys (f (sys m)) m.
Definition upd_hw (f : hw_t -> hw_t) (m : machine P) : machine P :=
  set_hw (f (hw m)) m.

End MachineUpdate.

(* ================================================================== *)
(** ** Driver library *)

Inductive port_t : Type := STEPPING_PORT | STEPPERS_DISABLE_PORT.
Inductive timer_t : Type := TIMER1 | TIMER2.

(** [GPIOPinWrite(port, pins, val)]: a masked write, only the pins named in
    [pins] take the bits of [val]. *)
Definition GPIOPinWrite (p : port_t) (pins val : Z) (h : hw_t) : hw_t :=
  let w := fun old => Z.lor (Z.ldiff old pins) (Z.land val pins) in
  {| stepping_port :=
       match p with STEPPING_PORT => w (stepping_port h)
                  | _ => stepping_port h end;
     steppers_disable_port :=
       match p with STEPPERS_DISABLE_PORT => w (steppers_disable_port h)
                  | _ => steppers_disable_port h end;
     timer1_enabled := timer1_enabled h; timer1_load := timer1_load h;
     timer2_enabled := timer2_enabled h; timer2_load := timer2_load h |}.

Definition set_timer_enabled (t : timer_t) (v : bool) (h : hw_t) : hw_t :=
  {| stepping_port := stepping_port h;
     steppers_disable_port := steppers_disable_port h;
     timer1_enabled := match t with TIMER1 => v | _ => timer1_enabled h end;
     timer1_load := timer1_load h;
     timer2_enabled := match t with TIMER2 => v | _ => timer2_enabled h end;
     timer2_load := timer2_load h |}.

Definition TimerEnable (t : timer_t) : hw_t -> hw_t := set_timer_enabled t true.
Definition TimerDisable (t : timer_t) : hw_t -> hw_t :=
  set_timer_enabled t false.

Definition TimerLoadSet (t : timer_t) (v : Z) (h : hw_t) : hw_t :=
  {| stepping_port := stepping_port h;
     steppers_disable_port := steppers_disable_port h;
     timer1_enabled := timer1_enabled h;
     timer1_load := match t with TIMER1 => v | _ => timer1_load h end;
     timer2_enabled := timer2_enabled h;
     timer2_load := match t with TIMER2 => v | _ => timer2_load h end |}.

(* ================================================================== *)
(** ** stepper.c *)

(** [STEP_PULSE_DELAY] is taken as not defined: the branches marked
    "normal operation" in the source are the ones embedded. *)

Section Stepper.
Context (cfg : config_h) {P : Type} (planner : planner_h P).

Definition TICKS_PER_MICROSECOND : Z := Z.quot (F_CPU cfg) 1000000.

Definition CYCLES_PER_ACCELERATION_TICK : Z :=
  Z.quot (TICKS_PER_MICROSECOND * 1000000) (ACCELERATION_TICKS_PER_SECOND cfg).

Definition STEP_BIT (a : axis) : Z :=
  match a with
  | X_AXIS => X_STEP_BIT cfg
  | Y_AXIS => Y_STEP_BIT cfg
  | Z_AXIS => Z_STEP_BIT cfg
  end.

Definition DIRECTION_BIT (a : axis) : Z :=
  match a with
  | X_AXIS => X_DIRECTION_BIT cfg
  | Y_AXIS => Y_DIRECTION_BIT cfg
  | Z_AXIS => Z_DIRECTION_BIT cfg
  end.

(** [*current_block] for a non-null [current_block]. *)
Definition block_at (i : nat) (m : machine P) : block_t :=
  block_buffer planner (plan m) i.

Definition st_wake_up (m : machine P) : machine P :=
  let m :=
    if bit_istrue (flags (settings m)) (BITFLAG_INVERT_ST_ENABLE cfg)
    then upd_hw (GPIOPinWrite STEPPERS_DISABLE_PORT
                   (STEPPERS_DISABLE_BIT cfg) 255) m
    else upd_hw (GPIOPinWrite STEPPERS_DISABLE_PORT
                   (STEPPERS_DISABLE_BIT cfg) 0) m in
  if state_eqb (state (sys m)) STATE_CYCLE then
    let m := set_out_bits (Z.lxor 0 (invert_mask (settings m))) m in
    let m := set_step_pulse_time
               (u32 ((pulse_microseconds (settings m) - 2)
                     * TICKS_PER_MICROSECOND)) m in
    let m := upd_hw (TimerLoadSet TIMER2 (step_pulse_time m)) m in
    upd_hw (TimerEnable TIMER1) m
  else m.

(** [delay_ms] changes nothing of the state kept here and is left out. *)
Definition st_go_idle (m : machine P) : machine P :=
  let m := upd_hw (TimerDisable TIMER1) m in
  if negb (stepper_idle_lock_time (settings m) =? 255)
     || bit_istrue (execute (sys m)) (EXEC_ALARM cfg)
  then
    if bit_istrue (flags (settings m)) (BITFLAG_INVERT_ST_ENABLE cfg)
    then upd_hw (GPIOPinWrite STEPPERS_DISABLE_PORT
                   (STEPPERS_DISABLE_BIT cfg) 0) m
    else upd_hw (GPIOPinWrite STEPPERS_DISABLE_PORT
                   (STEPPERS_DISABLE_BIT cfg) 255) m
  else m.

Definition iterate_trapezoid_cycle_counter (m : machine P)
  : bool * machine P :=
  let m := upd_st (fun s =>
             set_trapezoid_tick_cycle_counter
               (u32 (trapezoid_tick_cycle_counter s + cycles_per_step_event s))
               s) m in
  if CYCLES_PER_ACCELERATION_TICK <? trapezoid_tick_cycle_counter (st m) then
    (true,
     upd_st (fun s =>
       set_trapezoid_tick_cycle_counter
         (u32 (trapezoid_tick_cycle_counter s - CYCLES_PER_ACCELERATION_TICK))
         s) m)
  else (false, m).

Definition config_step_timer (cycles : Z) (m : machine P) : Z * machine P :=
  (cycles, upd_hw (TimerLoadSet TIMER1 cycles) m).

Definition set_step_events_per_minute (steps_per_minute : Z) (m : machine P)
  : option (machine P) :=
  let steps_per_minute :=
    if steps_per_minute <? MINIMUM_STEPS_PER_MINUTE cfg
    then MINIMUM_STEPS_PER_MINUTE cfg else steps_per_minute in
  q <- udiv (F_CPU cfg) steps_per_minute ;;
  let '(c, m) := config_step_timer (u32 (q * 60)) m in
  Some (upd_st (set_cycles_per_step_event c) m).

(** Lines 205-225 of [timer1_compare_interrupt]: with no current block,
    try to take one from the planner and prepare the stepper for it. *)
Definition isr_pop_block (m : machine P) : option (machine P) :=
  match current_block m with
  | Some _ => Some m
  | None =>
    let m := set_current_block (plan_get_current_block planner (plan m)) m in
    match current_block m with
    | Some i =>
      let b := block_at i m in
      m <- (if state_eqb (state (sys m)) STATE_CYCLE then
              let m := upd_st (set_trapezoid_adjusted_rate (initial_rate b)) m in
              m <- set_step_events_per_minute
                     (trapezoid_adjusted_rate (st m)) m ;;
              Some (upd_st (set_trapezoid_tick_cycle_counter
                              (Z.quot CYCLES_PER_ACCELERATION_TICK 2)) m)
            else Some m) ;;
      let m := upd_st (set_min_safe_rate
                 (u32 (rate_delta b + Z.shiftr (rate_delta b) 1))) m in
      let m := upd_st (set_counter X_AXIS
                 (s32 (- Z.shiftr (step_event_count b) 1))) m in
      let m := upd_st (fun s => set_counter Y_AXIS (counter_x s) s) m in
      let m := upd_st (fun s => set_counter Z_AXIS (counter_x s) s) m in
      let m := upd_st (set_event_count (step_event_count b)) m in
      Some (upd_st (set_step_events_completed 0) m)
    | None =>
      let m := st_go_idle m in
      Some (upd_sys (fun y =>
              set_execute (bit_true (execute y) (EXEC_CYCLE_STOP cfg)) y) m)
    end
  end.

(** Lines 230-250, one axis: the same statements are written out for x, y
    and z in the source. *)
Definition bresenham_axis (a : axis) (b : block_t) (m : machine P)
  : machine P :=
  let m := upd_st (fun s => set_counter a (s32 (counter a s + steps a b)) s)
             m in
  if 0 <? counter a (st m) then
    let m := set_out_bits (Z.lor (out_bits m) (Z.shiftl 1 (STEP_BIT a))) m in
    let m := upd_st (fun s =>
               set_counter a (s32 (counter a s - event_count s)) s) m in
    if bit_istrue (out_bits m) (Z.shiftl 1 (DIRECTION_BIT a))
    then upd_sys (fun y =>
           set_position
             (set_pos a (s32 (pos a (position y) - 1)) (position y)) y) m
    else upd_sys (fun y =>
           set_position
             (set_pos a (s32 (pos a (position y) + 1)) (position y)) y) m
  else m.

(** Lines 229-252: the Bresenham step of the block [b]. *)
Definition isr_bresenham (b : block_t) (m : machine P) : machine P :=
  let m := set_out_bits (direction_bits b) m in
  let m := bresenham_axis X_AXIS b m in
  let m := bresenham_axis Y_AXIS b m in
  let m := bresenham_axis Z_AXIS b m in
  upd_st (fun s =>
    set_step_events_completed (u32 (step_events_completed s + 1)) s) m.

(** Lines 256-277: deceleration of a feed hold. *)
Definition isr_feed_hold (b : block_t) (m : machine P) : option (machine P) :=
  let '(tick, m) := iterate_trapezoid_cycle_counter m in
  if tick then
    if trapezoid_adjusted_rate (st m) <=? rate_delta b then
      let m := st_go_idle m in
      Some (upd_sys (fun y =>
              set_execute (bit_true (execute y) (EXEC_CYCLE_STOP cfg)) y) m)
    else
      let m := upd_st (fun s =>
                 set_trapezoid_adjusted_rate
                   (u32 (trapezoid_adjusted_rate s - rate_delta b)) s) m in
      set_step_events_per_minute (trapezoid_adjusted_rate (st m)) m
  else Some m.

(** Lines 287-337: the trapezoid generator outside a feed hold. *)
Definition isr_trapezoid (b : block_t) (m : machine P) : option (machine P) :=
  if step_events_completed (st m) <? accelerate_until b then
    let '(tick, m) := iterate_trapezoid_cycle_counter m in
    if tick then
      let m := upd_st (fun s =>
                 set_trapezoid_adjusted_rate
                   (u32 (trapezoid_adjusted_rate s + rate_delta b)) s) m in
      let m := if nominal_rate b <=? trapezoid_adjusted_rate (st m)
               then upd_st (set_trapezoid_adjusted_rate (nominal_rate b)) m
               else m in
      set_step_events_per_minute (trapezoid_adjusted_rate (st m)) m
    else Some m
  else if decelerate_after b <=? step_events_completed (st m) then
    if step_events_completed (st m) =? decelerate_after b then
      if trapezoid_adjusted_rate (st m) =? nominal_rate b then
        Some (upd_st (set_trapezoid_tick_cycle_counter
                        (Z.quot CYCLES_PER_ACCELERATION_TICK 2)) m)
      else
        Some (upd_st (fun s =>
                set_trapezoid_tick_cycle_counter
                  (u32 (CYCLES_PER_ACCELERATION_TICK
                        - trapezoid_tick_cycle_counter s)) s) m)
    else
      let '(tick, m) := iterate_trapezoid_cycle_counter m in
      if tick then
        let m :=
          if min_safe_rate (st m) <? trapezoid_adjusted_rate (st m)
          then upd_st (fun s =>
                 set_trapezoid_adjusted_rate
                   (u32 (trapezoid_adjusted_rate s - rate_delta b)) s) m
          else upd_st (fun s =>
                 set_trapezoid_adjusted_rate
                   (Z.shiftr (trapezoid_adjusted_rate s) 1) s) m in
        let m := if trapezoid_adjusted_rate (st m) <? final_rate b
                 then upd_st (set_trapezoid_adjusted_rate (final_rate b)) m
                 else m in
        set_step_events_per_minute (trapezoid_adjusted_rate (st m)) m
      else Some m
  else
    if negb (trapezoid_adjusted_rate (st m) =? nominal_rate b) then
      let m := upd_st (set_trapezoid_adjusted_rate (nominal_rate b)) m in
      set_step_events_per_minute (trapezoid_adjusted_rate (st m)) m
    else Some m.

(** Lines 227-344: one step event of the current block [*i]. *)
Definition isr_step (i : nat) (m : machine P) : option (machine P) :=
  let b := block_at i m in
  let m := isr_bresenham b m in
  if step_events_completed (st m) <? step_event_count b then
    if state_eqb (state (sys m)) STATE_HOLD
    then isr_feed_hold b m
    else isr_trapezoid b m
  else
    let m := set_current_block None m in
    Some (set_plan (plan_discard_current_block planner (plan m)) m).

(** Lines 178-197: put the bits computed by the previous firing on the
    pins, start the pulse-reset timer and latch [busy].  ([TimerIntClear]
    acts on nothing kept here.) *)
Definition isr_pulse (m : machine P) : machine P :=
  let m := upd_hw (GPIOPinWrite STEPPING_PORT (DIRECTION_MASK cfg)
                     (out_bits m)) m in
  let m := upd_hw (GPIOPinWrite STEPPING_PORT (STEP_MASK cfg) (out_bits m))
             m in
  let m := upd_hw (TimerEnable TIMER2) m in
  set_busy true m.

(** Lines 345-346: apply the invert mask and release [busy]. *)
Definition isr_finish (m : machine P) : machine P :=
  let m := set_out_bits (Z.lxor (out_bits m) (invert_mask (settings m))) m in
  set_busy false m.

Definition timer1_compare_interrupt (m : machine P) : option (machine P) :=
  if busy m then Some m else
  let m := isr_pulse m in
  m <- isr_pop_block m ;;
  m <- match current_block m with
       | Some i => isr_step i m
       | None => Some m
       end ;;
  Some (isr_finish m).

Definition timer2_overflow_interrupt (m : machine P) : machine P :=
  upd_hw (GPIOPinWrite STEPPING_PORT (STEP_MASK cfg)
            (invert_mask (settings m))) m.

Definition st_reset (m : machine P) : option (machine P) :=
  let m := set_st stepper_zero m in
  m <- set_step_events_per_minute (MINIMUM_STEPS_PER_MINUTE cfg) m ;;
  let m := set_current_block None m in
  Some (set_busy false m).

Definition st_cycle_start (m : machine P) : machine P :=
  if state_eqb (state (sys m)) STATE_QUEUED then
    let m := upd_sys (set_state STATE_CYCLE) m in
    st_wake_up m
  else m.

Definition st_feed_hold (m : machine P) : machine P :=
  if state_eqb (state (sys m)) STATE_CYCLE then
    let m := upd_sys (set_state STATE_HOLD) m in
    upd_sys (set_auto_start false) m
  else m.

Definition st_cycle_reinitialize (m : machine P) : option (machine P) :=
  match current_block m with
  | Some i =>
    let m := set_plan
               (plan_cycle_reinitialize planner
                  (u32 (step_event_count (block_at i m)
                        - step_events_completed (st m)))
                  (plan m)) m in
    let m := upd_st (set_trapezoid_adjusted_rate 0) m in
    m <- set_step_events_per_minute (trapezoid_adjusted_rate (st m)) m ;;
    let m := upd_st (set_trapezoid_tick_cycle_counter
                       (Z.quot CYCLES_PER_ACCELERATION_TICK 2)) m in
    let m := upd_st (set_step_events_completed 0) m in
    Some (upd_sys (set_state STATE_QUEUED) m)
  | None => Some (upd_sys (set_state STATE_IDLE) m)
  end.

End Stepper.

(* ================================================================== *)
(** ** report.c *)

(** Modelled from the spec: [report.h] is not among the sources; the
    [STATUS_*] codes that label the cases of [report_status_message] are
    taken as parameters. *)
Record report_h : Type := {
  STATUS_BAD_NUMBER_FORMAT : Z;
  STATUS_EXPECTED_COMMAND_LETTER : Z;
  STATUS_UNSUPPORTED_STATEMENT : Z;
  STATUS_ARC_RADIUS_ERROR : Z;
  STATUS_MODAL_GROUP_VIOLATION : Z;
  STATUS_INVALID_STATEMENT : Z;
  STATUS_SETTING_DISABLED : Z;
  STATUS_SETTING_VALUE_NEG : Z;
  STATUS_SETTING_STEP_PULSE_MIN : Z;
  STATUS_SETTING_READ_FAIL : Z;
  STATUS_IDLE_ERROR : Z;
  STATUS_ALARM_LOCK : Z
}.

(** Carriage return, line feed: the [\r\n] of the C string literals. *)
Definition crlf : string := String "013" (String "010" EmptyString).

(** The serial line is the text sent so far; [UARTprintf] with a constant
    format appends to it. *)
Definition UARTprintf (text : string) (uart : string) : string :=
  (uart ++ text)%string.

(** A [switch] over constant labels with a [break] after every case: the
    case of the first label equal to the scrutinee runs, none if there is
    no such label. *)
Fixpoint switch (scrutinee : Z) (cases : list (Z * string)) : option string :=
  match cases with
  | [] => None
  | (label, text) :: rest =>
    if scrutinee =? label then Some text else switch scrutinee rest
  end.

(** The cases of the [switch] in [report_status_message], in source order. *)
Definition status_cases (rh : report_h) : list (Z * string) :=
  [ (STATUS_BAD_NUMBER_FORMAT rh, "Bad number format"%string);
    (STATUS_EXPECTED_COMMAND_LETTER rh, "Expected command letter"%string);
    (STATUS_UNSUPPORTED_STATEMENT rh, "Unsupported statement"%string);
    (STATUS_ARC_RADIUS_ERROR rh, "Invalid radius"%string);
    (STATUS_MODAL_GROUP_VIOLATION rh, "Modal group violation"%string);
    (STATUS_INVALID_STATEMENT rh, "Invalid statement"%string);
    (STATUS_SETTING_DISABLED rh, "Setting disabled"%string);
    (STATUS_SETTING_VALUE_NEG rh, "Value < 0.0"%string);
    (STATUS_SETTING_STEP_PULSE_MIN rh, "Value < 3 usec"%string);
    (STATUS_SETTING_READ_FAIL rh, "EEPROM read fail. Using defaults"%string);
    (STATUS_IDLE_ERROR rh, "Busy or queued"%string);
    (STATUS_ALARM_LOCK rh, "Alarm lock"%string) ].

Definition report_status_message (rh : report_h) (status_code : Z)
  (uart : string) : string :=
  if status_code =? 0 then
    UARTprintf ("ok" ++ crlf) uart
  else
    let uart := UARTprintf "error: " uart in
    let uart := match switch status_code (status_cases rh) with
                | Some text => UARTprintf text uart
                | None => uart
                end in
    UARTprintf crlf uart.

(** The case labels of a C [switch] are pairwise distinct (the compiler
    rejects the program otherwise). *)
Definition labels_distinct (rh : report_h) : Prop :=
  NoDup (map fst (status_cases rh)).

(* ================================================================== *)
(** ** Vocabulary of the properties *)

Section Vocabulary.
Context (cfg : config_h) {P : Type} (planner : planner_h P).

(** The step-rate floor is a positive rate. *)
Definition floor_ok : Prop := 0 < MINIMUM_STEPS_PER_MINUTE cfg.

(** The pin assignment: bit numbers are not negative and no direction bit
    is also a step bit. *)
Definition pins_ok : Prop :=
  (forall a, 0 <= STEP_BIT cfg a /\ 0 <= DIRECTION_BIT cfg a) /\
  (forall a a', DIRECTION_BIT cfg a <> STEP_BIT cfg a').

(** The value [st.step_events_completed] has once line 252 has counted the
    step event of this firing. *)
Definition step_event (m : machine P) : Z :=
  u32 (step_events_completed (st m) + 1).

(** What the tracing of one axis leaves alone. *)
Definition axis_frame (m m' : machine P) : Prop :=
  current_block m' = current_block m /\ plan m' = plan m /\
  settings m' = settings m /\ hw m' = hw m /\ busy m' = busy m /\
  step_pulse_time m' = step_pulse_time m /\
  state (sys m') = state (sys m) /\ execute (sys m') = execute (sys m) /\
  event_count (st m') = event_count (st m) /\
  cycles_per_step_event (st m') = cycles_per_step_event (st m) /\
  trapezoid_tick_cycle_counter (st m') = trapezoid_tick_cycle_counter (st m) /\
  trapezoid_adjusted_rate (st m') = trapezoid_adjusted_rate (st m) /\
  min_safe_rate (st m') = min_safe_rate (st m) /\
  step_events_completed (st m') = step_events_completed (st m).

(** What the Bresenham step leaves alone, and how it counts the event. *)
Definition bresenham_frame (m m' : machine P) : Prop :=
  current_block m' = current_block m /\ plan m' = plan m /\
  settings m' = settings m /\ hw m' = hw m /\ busy m' = busy m /\
  step_pulse_time m' = step_pulse_time m /\
  state (sys m') = state (sys m) /\ execute (sys m') = execute (sys m) /\
  event_count (st m') = event_count (st m) /\
  cycles_per_step_event (st m') = cycles_per_step_event (st m) /\
  trapezoid_tick_cycle_counter (st m') = trapezoid_tick_cycle_counter (st m) /\
  trapezoid_adjusted_rate (st m') = trapezoid_adjusted_rate (st m) /\
  min_safe_rate (st m') = min_safe_rate (st m) /\
  step_events_completed (st m') = step_event m.

(** What the trapezoid generator and the feed hold leave alone: the block
    pointer, the planner, the output bits, the machine state and position,
    and in the stepper the Bresenham side. *)
Definition rate_frame (m m' : machine P) : Prop :=
  current_block m' = current_block m /\ plan m' = plan m /\
  settings m' = settings m /\ out_bits m' = out_bits m /\
  busy m' = busy m /\ state (sys m') = state (sys m) /\
  position (sys m') = position (sys m) /\
  (forall a, counter a (st m') = counter a (st m)) /\
  event_count (st m') = event_count (st m) /\
  step_events_completed (st m') = step_events_completed (st m) /\
  min_safe_rate (st m') = min_safe_rate (st m).

(** What everything after the Bresenham step leaves alone: the output bits
    (until the invert mask), the position, the accumulators and the count
    of step events. *)
Definition tracer_kept (m m' : machine P) : Prop :=
  settings m' = settings m /\ out_bits m' = out_bits m /\
  position (sys m') = position (sys m) /\
  (forall a, counter a (st m') = counter a (st m)) /\
  event_count (st m') = event_count (st m) /\
  step_events_completed (st m') = step_events_completed (st m).

(** [iterate_trapezoid_cycle_counter] returns true when called in [m]. *)
Definition tick_fires (m : machine P) : bool :=
  CYCLES_PER_ACCELERATION_TICK cfg <?
  u32 (trapezoid_tick_cycle_counter (st m) + cycles_per_step_event (st m)).

(** The tick counter once [iterate_trapezoid_cycle_counter] has run. *)
Definition tick_advanced (m : machine P) : Z :=
  let c := u32 (trapezoid_tick_cycle_counter (st m)
                + cycles_per_step_event (st m)) in
  if CYCLES_PER_ACCELERATION_TICK cfg <? c
  then u32 (c - CYCLES_PER_ACCELERATION_TICK cfg) else c.

(** The timer period [set_step_events_per_minute] installs for a rate. *)
Definition step_period (steps_per_minute : Z) : Z :=
  u32 (Z.quot (F_CPU cfg)
         (Z.max steps_per_minute (MINIMUM_STEPS_PER_MINUTE cfg)) * 60).

(** This firing of the step interrupt, on the block [b] it is tracing, is
    an acceleration tick: the block is not finished by this step event, the
    firing is in one of the three places that consult the tick counter (feed
    hold, acceleration, deceleration past its first step event) and the
    counter fires. *)
Definition acceleration_tick (b : block_t) (m : machine P) : bool :=
  (step_event m <? step_event_count b)
  && (state_eqb (state (sys m)) STATE_HOLD
      || (step_event m <? accelerate_until b)
      || (decelerate_after b <? step_event m))
  && tick_fires m.

(** The firing that starts in [m] finds block [i] in progress and is an
    acceleration tick of it. *)
Definition tick_at (i : nat) (m : machine P) : bool :=
  negb (busy m)
  && match current_block m with
     | Some j => Nat.eqb j i
     | None => false
     end
  && acceleration_tick (block_at planner i m) m.

(** The firing that starts in [m] finds block [i] in progress and is no
    acceleration tick. *)
Definition between_ticks (i : nat) (m : machine P) : bool :=
  negb (busy m)
  && match current_block m with
     | Some j => Nat.eqb j i
     | None => false
     end
  && negb (acceleration_tick (block_at planner i m) m).

(** This firing on the block [b] takes lines 331-336: outside a feed hold,
    the block not finished by this step event, which lies from
    [accelerate_until] on and before [decelerate_after]. *)
Definition cruise_window (b : block_t) (m : machine P) : bool :=
  negb (state_eqb (state (sys m)) STATE_HOLD)
  && (step_event m <? step_event_count b)
  && (accelerate_until b <=? step_event m)
  && (step_event m <? decelerate_after b).

(** This firing on the block [b] takes lines 334-335: it is in the cruise
    window with a rate that is not [nominal_rate], and changes it. *)
Definition cruise_forcing (b : block_t) (m : machine P) : bool :=
  cruise_window b m
  && negb (trapezoid_adjusted_rate (st m) =? nominal_rate b).

(** Between two ticks, and not a firing that forces the cruise rate. *)
Definition quiet (i : nat) (m : machine P) : bool :=
  between_ticks i m && negb (cruise_forcing (block_at planner i m) m).

(** [n] firings in a row, each starting in a state that satisfies [ok]. *)
Fixpoint fire_while (ok : machine P -> bool) (n : nat) (m : machine P)
  : option (machine P) :=
  match n with
  | O => Some m
  | S n' =>
    if ok m
    then m' <- timer1_compare_interrupt cfg planner m ;; fire_while ok n' m'
    else None
  end.

(** The firing that starts in [m] is an acceleration tick of the block it
    executes, be that the block in progress or the one lines 205-225
    take. *)
Definition ticks (m : machine P) : bool :=
  negb (busy m)
  && match isr_pop_block cfg planner (isr_pulse cfg m) with
     | Some m1 =>
       match current_block m1 with
       | Some j => acceleration_tick (block_at planner j m1) m1
       | None => false
       end
     | None => false
     end.

(** The acceleration cap as the specification words it, for the runs that
    start with the firing from [m0]: when that firing is an acceleration
    tick and leaves [m1], and the next acceleration tick, after any number
    of firings without one, is a tick of block [j] and leaves [m'], then the
    rate in [m'] differs from the rate in [m1] by at most the [rate_delta]
    of block [j]. *)
Definition acceleration_cap (m0 : machine P) : Prop :=
  forall (m1 : machine P) (n : nat) (mn mn' : machine P) (j : nat)
         (m' : machine P),
    ticks m0 = true ->
    timer1_compare_interrupt cfg planner m0 = Some m1 ->
    fire_while (fun m => negb (ticks m)) n m1 = Some mn ->
    ticks mn = true ->
    isr_pop_block cfg planner (isr_pulse cfg mn) = Some mn' ->
    current_block mn' = Some j ->
    timer1_compare_interrupt cfg planner mn = Some m' ->
    Z.abs (trapezoid_adjusted_rate (st m') - trapezoid_adjusted_rate (st m1))
    <= rate_delta (block_at planner j mn').

(** [st.min_safe_rate] holds what line 215 computed for the block in
    progress, one and a half times its [rate_delta] in 32 bits.  With no
    block in progress nothing is asked of it. *)
Definition min_safe_rate_set (m : machine P) : Prop :=
  forall i,
    current_block m = Some i ->
    min_safe_rate (st m)
    = u32 (rate_delta (block_at planner i m)
           + Z.shiftr (rate_delta (block_at planner i m)) 1).

(** The cycle-start transition as the specification words it. *)
Definition cycle_start_from_idle_or_queued (m : machine P) : Prop :=
  (state (sys m) = STATE_IDLE \/ state (sys m) = STATE_QUEUED) ->
  plan_get_current_block planner (plan m) <> None ->
  state (sys (st_cycle_start cfg m)) = STATE_CYCLE.

End Vocabulary.

(* ================================================================== *)
(** ** A planner and a configuration to run the code on *)

(** Modelled from the spec: the block ring of sections 3 and 4.A, which
    [planner.c] implements.  [head == tail] means empty; [peek_tail] lends
    the block at [tail], or none if the ring is empty; [discard_tail]
    advances [tail]; on resume the block at [tail] is re-planned from a
    standstill for the remaining step events (section 4.G). *)
Record ring_t : Type := {
  ring_blocks : list block_t;
  block_buffer_head : nat;
  block_buffer_tail : nat
}.

Definition block_zero : block_t :=
  {| direction_bits := 0; steps_x := 0; steps_y := 0; steps_z := 0;
     step_event_count := 0; initial_rate := 0; final_rate := 0;
     rate_delta := 0; accelerate_until := 0; decelerate_after := 0;
     nominal_rate := 0 |}.

Definition ring_block (r : ring_t) (i : nat) : block_t :=
  nth i (ring_blocks r) block_zero.

Definition peek_tail (r : ring_t) : option nat :=
  if Nat.eqb (block_buffer_head r) (block_buffer_tail r)
  then None else Some (block_buffer_tail r).

Definition next_block_index (r : ring_t) (i : nat) : nat :=
  Nat.modulo (S i) (List.length (ring_blocks r)).

Definition discard_tail (r : ring_t) : ring_t :=
  {| ring_blocks := ring_blocks r;
     block_buffer_head := block_buffer_head r;
     block_buffer_tail := next_block_index r (block_buffer_tail r) |}.

Fixpoint replace_nth (i : nat) (f : block_t -> block_t) (l : list block_t)
  : list block_t :=
  match l, i with
  | [], _ => []
  | b :: l', O => f b :: l'
  | b :: l', S i' => b :: replace_nth i' f l'
  end.

Definition from_standstill (remaining_steps : Z) (b : block_t) : block_t :=
  {| direction_bits := direction_bits b; steps_x := steps_x b;
     steps_y := steps_y b; steps_z := steps_z b;
     step_event_count := remaining_steps; initial_rate := 0;
     final_rate := final_rate b; rate_delta := rate_delta b;
     accelerate_until := accelerate_until b;
     decelerate_after := decelerate_after b;
     nominal_rate := nominal_rate b |}.

Definition replan_tail (remaining_steps : Z) (r : ring_t) : ring_t :=
  {| ring_blocks := replace_nth (block_buffer_tail r)
                      (from_standstill remaining_steps) (ring_blocks r);
     block_buffer_head := block_buffer_head r;
     block_buffer_tail := block_buffer_tail r |}.

Definition ring_planner : planner_h ring_t :=
  {| block_buffer := ring_block;
     plan_get_current_block := peek_tail;
     plan_discard_current_block := discard_tail;
     plan_cycle_reinitialize := replan_tail |}.

(** A configuration: the 80 MHz clock that [main.c] selects, a hundred
    acceleration ticks a second, a floor of 800 steps a minute, step pins
    on bits 2-4 and direction pins on bits 5-7. *)
Definition lm4f_config : config_h :=
  {| F_CPU := 80000000;
     ACCELERATION_TICKS_PER_SECOND := 100;
     MINIMUM_STEPS_PER_MINUTE := 800;
     X_STEP_BIT := 2; Y_STEP_BIT := 3; Z_STEP_BIT := 4;
     X_DIRECTION_BIT := 5; Y_DIRECTION_BIT := 6; Z_DIRECTION_BIT := 7;
     STEP_MASK := 28; DIRECTION_MASK := 224;
     STEPPERS_DISABLE_BIT := 1;
     BITFLAG_INVERT_ST_ENABLE := 4;
     EXEC_CYCLE_STOP := 4;
     EXEC_ALARM := 32 |}.

Definition grbl_report : report_h :=
  {| STATUS_BAD_NUMBER_FORMAT := 1;
     STATUS_EXPECTED_COMMAND_LETTER := 2;
     STATUS_UNSUPPORTED_STATEMENT := 3;
     STATUS_ARC_RADIUS_ERROR := 4;
     STATUS_MODAL_GROUP_VIOLATION := 5;
     STATUS_INVALID_STATEMENT := 6;
     STATUS_SETTING_DISABLED := 7;
     STATUS_SETTING_VALUE_NEG := 8;
     STATUS_SETTING_STEP_PULSE_MIN := 9;
     STATUS_SETTING_READ_FAIL := 10;
     STATUS_IDLE_ERROR := 11;
     STATUS_ALARM_LOCK := 12 |}.

Definition settings_default : settings_t :=
  {| flags := 0; invert_mask := 0; pulse_microseconds := 10;
     stepper_idle_lock_time := 25 |}.

(** The step timer runs in the Cycle and Hold states. *)
Definition hw_in (q : state_t) : hw_t :=
  {| stepping_port := 0; steppers_disable_port := 0;
     timer1_enabled := state_eqb q STATE_CYCLE || state_eqb q STATE_HOLD;
     timer1_load := 0; timer2_enabled := false; timer2_load := 0 |}.

Definition origin : position_t := {| pos_x := 0; pos_y := 0; pos_z := 0 |}.

(** A machine over the ring: stepper state [s], current block [cb], state
    [q] and ring [r]; nothing pending, default settings. *)
Definition machine_of (s : stepper_t) (cb : option nat) (q : state_t)
  (r : ring_t) : machine ring_t :=
  {| st := s; current_block := cb; step_pulse_time := 0; out_bits := 0;
     busy := false;
     sys := {| abort := false; state := q; execute := 0; position := origin;
               auto_start := false |};
     settings := settings_default; plan := r; hw := hw_in q |}.

(** [n] firings of the step interrupt in a row. *)
Fixpoint fire {P : Type} (cfg : config_h) (planner : planner_h P) (n : nat)
  (m : machine P) : option (machine P) :=
  match n with
  | O => Some m
  | S n' => m' <- timer1_compare_interrupt cfg planner m ;; fire cfg planner n' m'
  end.

(** A short move along x with a triangle profile: 20 step events, entered
    at 800 and left at 3000 steps a minute, 100 steps a minute gained or
    lost per tick, the peak planned at step event 12. *)
Definition short_triangle : block_t :=
  {| direction_bits := 0; steps_x := 20; steps_y := 0; steps_z := 0;
     step_event_count := 20; initial_rate := 800; final_rate := 3000;
     rate_delta := 100; accelerate_until := 12; decelerate_after := 12;
     nominal_rate := 6000 |}.

(** A longer move with a cruise phase, x dominant, y backwards. *)
Definition long_move : block_t :=
  {| direction_bits := 64; steps_x := 1000; steps_y := 400; steps_z := 0;
     step_event_count := 1000; initial_rate := 1200; final_rate := 1200;
     rate_delta := 600; accelerate_until := 300; decelerate_after := 700;
     nominal_rate := 24000 |}.

Definition ring_with (b : block_t) : ring_t :=
  {| ring_blocks := [b; block_zero; block_zero; block_zero];
     block_buffer_head := 1; block_buffer_tail := 0 |}.

(** The stepper as [st_reset] leaves it under [lm4f_config]. *)
Definition stepper_reset : stepper_t :=
  set_cycles_per_step_event 6000000 stepper_zero.

(** The short triangle queued and nothing popped yet, then the cycle
    started. *)
Definition triangle_queued : machine ring_t :=
  machine_of stepper_reset None STATE_QUEUED (ring_with short_triangle).

Definition triangle_start : machine ring_t :=
  st_cycle_start lm4f_config triangle_queued.

(** The short triangle after ten step events.  Each step event so far
    fired one acceleration tick and so does the next, which leaves the rate
    at 1900; the twelfth is the boundary, and the thirteenth, the first
    tick of the deceleration, finds the rate well below the 3000 the block
    is to be left at. *)
Definition triangle_10 : machine ring_t :=
  {| st := {| counter_x := -10; counter_y := -10; counter_z := -10;
              event_count := 20; step_events_completed := 10;
              cycles_per_step_event := 2666640;
              trapezoid_tick_cycle_counter := 33041120;
              trapezoid_adjusted_rate := 1800; min_safe_rate := 150 |};
     current_block := Some 0%nat; step_pulse_time := 640; out_bits := 4;
     busy := false;
     sys := {| abort := false; state := STATE_CYCLE; execute := 0;
               position := {| pos_x := 10; pos_y := 0; pos_z := 0 |};
               auto_start := false |};
     settings := settings_default; plan := ring_with short_triangle;
     hw := {| stepping_port := 4; steppers_disable_port := 0;
              timer1_enabled := true; timer1_load := 2666640;
              timer2_enabled := true; timer2_load := 640 |} |}.

(** A move along x with a trapezoid profile the planner could have
    computed: entered and left at 800 steps a minute, 100 steps a minute
    gained or lost per tick, to cruise at 6000 from the 30th step event to
    the 31st. *)
Definition ramp : block_t :=
  {| direction_bits := 0; steps_x := 60; steps_y := 0; steps_z := 0;
     step_event_count := 60; initial_rate := 800; final_rate := 800;
     rate_delta := 100; accelerate_until := 30; decelerate_after := 31;
     nominal_rate := 6000 |}.

(** A short block that only accelerates, to be left at 3000 steps a
    minute, and the block the planner has queued behind it, to be entered
    at that rate. *)
Definition spurt : block_t :=
  {| direction_bits := 0; steps_x := 3; steps_y := 0; steps_z := 0;
     step_event_count := 3; initial_rate := 800; final_rate := 3000;
     rate_delta := 100; accelerate_until := 3; decelerate_after := 3;
     nominal_rate := 6000 |}.

Definition follow_up : block_t :=
  {| direction_bits := 0; steps_x := 40; steps_y := 0; steps_z := 0;
     step_event_count := 40; initial_rate := 3000; final_rate := 800;
     rate_delta := 100; accelerate_until := 20; decelerate_after := 20;
     nominal_rate := 6000 |}.

Definition two_blocks : ring_t :=
  {| ring_blocks := [spurt; follow_up; block_zero; block_zero];
     block_buffer_head := 2; block_buffer_tail := 0 |}.

Definition two_start : machine ring_t :=
  st_cycle_start lm4f_config
    (machine_of stepper_reset None STATE_QUEUED two_blocks).

(** The two blocks after the first step event of the first. *)
Definition spurt_1 : machine ring_t :=
  {| st := {| counter_x := -1; counter_y := -1; counter_z := -1;
              event_count := 3; step_events_completed := 1;
              cycles_per_step_event := 5333280;
              trapezoid_tick_cycle_counter := 5600000;
              trapezoid_adjusted_rate := 900; min_safe_rate := 150 |};
     current_block := Some 0%nat; step_pulse_time := 640; out_bits := 4;
     busy := false;
     sys := {| abort := false; state := STATE_CYCLE; execute := 0;
               position := {| pos_x := 1; pos_y := 0; pos_z := 0 |};
               auto_start := false |};
     settings := settings_default; plan := two_blocks;
     hw := {| stepping_port := 0; steppers_disable_port := 0;
              timer1_enabled := true; timer1_load := 5333280;
              timer2_enabled := true; timer2_load := 640 |} |}.

Definition ramp_start : machine ring_t :=
  st_cycle_start lm4f_config
    (machine_of stepper_reset None STATE_QUEUED (ring_with ramp)).

(** The ramp after 28 step events.  At these rates a step event lasts
    longer than an acceleration tick, so the rate gains [rate_delta] once
    per step event only and has reached 3600 where the planner expects
    6000. *)
Definition ramp_28 : machine ring_t :=
  {| st := {| counter_x := -30; counter_y := -30; counter_z := -30;
              event_count := 60; step_events_completed := 28;
              cycles_per_step_event := 1333320;
              trapezoid_tick_cycle_counter := 52587740;
              trapezoid_adjusted_rate := 3600; min_safe_rate := 150 |};
     current_block := Some 0%nat; step_pulse_time := 640; out_bits := 4;
     busy := false;
     sys := {| abort := false; state := STATE_CYCLE; execute := 0;
               position := {| pos_x := 28; pos_y := 0; pos_z := 0 |};
               auto_start := false |};
     settings := settings_default; plan := ring_with ramp;
     hw := {| stepping_port := 4; steppers_disable_port := 0;
              timer1_enabled := true; timer1_load := 1333320;
              timer2_enabled := true; timer2_load := 640 |} |}.

(** The long move in progress, seen at several moments. *)
Definition long_move_st (completed rate period tick : Z) : stepper_t :=
  {| counter_x := -500; counter_y := -300; counter_z := -500;
     event_count := 1000; step_events_completed := completed;
     cycles_per_step_event := period;
     trapezoid_tick_cycle_counter := tick;
     trapezoid_adjusted_rate := rate; min_safe_rate := 900 |}.

Definition accelerating : machine ring_t :=
  machine_of (long_move_st 10 1800 2666640 500000) (Some 0%nat) STATE_CYCLE
    (ring_with long_move).

Definition decelerating : machine ring_t :=
  machine_of (long_move_st 800 1300 3692280 500000) (Some 0%nat) STATE_CYCLE
    (ring_with long_move).

(** The long move at the start of its deceleration, still at the cruise
    rate, where a tick comes every fourth step event. *)
Definition tail_at_speed : machine ring_t :=
  machine_of (long_move_st 800 24000 199980 700000) (Some 0%nat) STATE_CYCLE
    (ring_with long_move).

(** The machine [n] firings of the step interrupt after [m]. *)
Definition after (n : nat) (m : machine ring_t) : machine ring_t :=
  match fire lm4f_config ring_planner n m with
  | Some m' => m'
  | None => m
  end.

Definition holding : machine ring_t :=
  machine_of (long_move_st 400 500 6000000 100000) (Some 0%nat) STATE_HOLD
    (ring_with long_move).

Definition finishing : machine ring_t :=
  machine_of (long_move_st 999 1200 3999960 100000) (Some 0%nat) STATE_CYCLE
    (ring_with long_move).

(** The long move queued while the machine is still Idle. *)
Definition idle_with_work : machine ring_t :=
  machine_of stepper_reset None STATE_IDLE (ring_with long_move).

(** The long move queued, the machine Queued. *)
Definition queued_with_work : machine ring_t :=
  machine_of stepper_reset None STATE_QUEUED (ring_with long_move).

(** The long move stopped by a feed hold after 400 of its step events. *)
Definition held : machine ring_t :=
  machine_of (long_move_st 400 500 6000000 5300000) (Some 0%nat) STATE_HOLD
    (ring_with long_move).

(* ================================================================== *)
(** ** report.c: alarms and feedback *)

(** Modelled from the spec: the [ALARM_*] and [MESSAGE_*] codes of
    [report.h], which is not among the sources, are taken as parameters. *)
Record alarm_h : Type := {
  ALARM_HARD_LIMIT : Z;
  ALARM_ABORT_CYCLE : Z
}.

Record message_h : Type := {
  MESSAGE_CRITICAL_EVENT : Z;
  MESSAGE_ALARM_LOCK : Z;
  MESSAGE_ALARM_UNLOCK : Z;
  MESSAGE_ENABLED : Z;
  MESSAGE_DISABLED : Z
}.

Definition alarm_cases (ah : alarm_h) : list (Z * string) :=
  [ (ALARM_HARD_LIMIT ah, "Hard limit"%string);
    (ALARM_ABORT_CYCLE ah, "Abort during cycle"%string) ].

(** [delay_ms(500)] at the end acts on nothing kept here. *)
Definition report_alarm_message (ah : alarm_h) (alarm_code : Z)
  (uart : string) : string :=
  let uart := UARTprintf "ALARM: " uart in
  let uart := match switch alarm_code (alarm_cases ah) with
              | Some text => UARTprintf text uart
              | None => uart
              end in
  UARTprintf (". MPos?" ++ crlf) uart.

Definition feedback_cases (mh : message_h) : list (Z * string) :=
  [ (MESSAGE_CRITICAL_EVENT mh, "Reset to continue"%string);
    (MESSAGE_ALARM_LOCK mh, "'$H'|'$X' to unlock"%string);
    (MESSAGE_ALARM_UNLOCK mh, "Caution: Unlocked"%string);
    (MESSAGE_ENABLED mh, "Enabled"%string);
    (MESSAGE_DISABLED mh, "Disabled"%string) ].

Definition report_feedback_message (mh : message_h) (message_code : Z)
  (uart : string) : string :=
  let uart := UARTprintf "[" uart in
  let uart := match switch message_code (feedback_cases mh) with
              | Some text => UARTprintf text uart
              | None => uart
              end in
  UARTprintf ("]" ++ crlf) uart.

(** A text without carriage return or line feed. *)
Fixpoint one_line (text : string) : bool :=
  match text with
  | EmptyString => true
  | String ch rest =>
    negb (Ascii.eqb ch "013") && negb (Ascii.eqb ch "010") && one_line rest
  end.

Definition grbl_alarm : alarm_h :=
  {| ALARM_HARD_LIMIT := -1; ALARM_ABORT_CYCLE := -2 |}.

Definition grbl_message : message_h :=
  {| MESSAGE_CRITICAL_EVENT := 1; MESSAGE_ALARM_LOCK := 2;
     MESSAGE_ALARM_UNLOCK := 3; MESSAGE_ENABLED := 4;
     MESSAGE_DISABLED := 5 |}.

(* ================================================================== *)
(** ** Vocabulary of the further properties *)

Section FurtherVocabulary.
Context (cfg : config_h) {P : Type} (planner : planner_h P).

(** What a firing of the step interrupt may do to the system state and
    the settings: nothing, except raising [EXEC_CYCLE_STOP]. *)
Definition control_kept (m m' : machine P) : Prop :=
  state (sys m') = state (sys m) /\ abort (sys m') = abort (sys m) /\
  auto_start (sys m') = auto_start (sys m) /\ settings m' = settings m /\
  (execute (sys m') = execute (sys m) \/
   execute (sys m') = bit_true (execute (sys m)) (EXEC_CYCLE_STOP cfg)).

(** The step timer is loaded with the period of the current rate. *)
Definition period_ok (m : machine P) : Prop :=
  cycles_per_step_event (st m)
  = step_period cfg (trapezoid_adjusted_rate (st m)) /\
  timer1_load (hw m) = cycles_per_step_event (st m).

(** The accumulator of an axis lies in the window the tracer keeps it in. *)
Definition in_window (a : axis) (m : machine P) : Prop :=
  - event_count (st m) < counter a (st m) <= 0.

(** What the phases after the pulse leave alone: the stepping port, the
    pulse timer and its time, the settings. *)
Definition stepping_kept (m m' : machine P) : Prop :=
  stepping_port (hw m') = stepping_port (hw m) /\
  timer2_enabled (hw m') = timer2_enabled (hw m) /\
  timer2_load (hw m') = timer2_load (hw m) /\
  step_pulse_time m' = step_pulse_time m /\
  settings m' = settings m.

(** No two axes share a step pin. *)
Definition step_pins_distinct : Prop :=
  forall a a' : axis, a <> a' -> STEP_BIT cfg a <> STEP_BIT cfg a'.

End FurtherVocabulary.

(** One step event on one axis in unbounded integers: accumulator and
    position, for [E] step events, [s] steps of the axis, moving backwards
    when [back]. *)
Definition trace_axis (E s : Z) (back : bool) (cp : Z * Z) : Z * Z :=
  let c := fst cp + s in
  if 0 <? c
  then (c - E, if back then snd cp - 1 else snd cp + 1)
  else (c, snd cp).

Fixpoint trace_axis_n (E s : Z) (back : bool) (n : nat) (cp : Z * Z)
  : Z * Z :=
  match n with
  | O => cp
  | S n' => trace_axis E s back (trace_axis_n E s back n' cp)
  end.

(** The machine [m] is tracing block [i] of the planner state [pl] and
    has counted [n] of its step events: for axis [a], accumulator and
    position are what [n] exact steps make of the accumulator [c0] and the
    position [p0]. *)
Definition tracing {P : Type} (cfg : config_h) (planner : planner_h P)
  (pl : P) (i : nat) (a : axis) (c0 p0 : Z) (n : nat) (m : machine P)
  : Prop :=
  let b := block_buffer planner pl i in
  current_block m = Some i /\ plan m = pl /\
  event_count (st m) = step_event_count b /\
  step_events_completed (st m) = Z.of_nat n /\
  (counter a (st m), pos a (position (sys m)))
  = trace_axis_n (step_event_count b) (steps a b)
      (Z.testbit (direction_bits b) (DIRECTION_BIT cfg a)) n (c0, p0).

(** The long move queued and the cycle started, nothing popped yet; the
    step timer holds the period of the floor rate, as [st_reset] leaves
    it. *)
Definition long_move_start : machine ring_t :=
  st_cycle_start lm4f_config
    (upd_hw (TimerLoadSet TIMER1 6000000) queued_with_work).

(** A block that only brakes, from 3000 to 800 steps a minute, lent by the
    planner while the cycle runs and no block is in progress. *)
Definition braking : block_t :=
  {| direction_bits := 0; steps_x := 40; steps_y := 0; steps_z := 0;
     step_event_count := 40; initial_rate := 3000; final_rate := 800;
     rate_delta := 600; accelerate_until := 0; decelerate_after := 0;
     nominal_rate := 3000 |}.

Definition braking_next : machine ring_t :=
  machine_of stepper_reset None STATE_CYCLE (ring_with braking).

(** Nothing queued, no block in progress. *)
Definition nothing_to_do : machine ring_t :=
  machine_of stepper_reset None STATE_CYCLE
    {| ring_blocks := [block_zero; block_zero]; block_buffer_head := 0;
       block_buffer_tail := 0 |}.

(* ================================================================== *)
(** * Properties *)

(** ** Arithmetic and bits *)

Lemma state_eqb_spec (a b : state_t) : reflect (a = b) (state_eqb a b).
Proof. destruct a, b; simpl; constructor; congruence. Qed.

Lemma state_eqb_neq (a b : state_t) : a <> b -> state_eqb a b = false.
Proof. destruct (state_eqb_spec a b); congruence. Qed.

Lemma u32_range (x : Z) : u32_ok (u32 x).
Proof. unfold u32_ok, u32. apply Z.mod_pos_bound. lia. Qed.

Lemma u32_exact (x : Z) : u32_ok x -> u32 x = x.
Proof. unfold u32_ok, u32. intros H. apply Z.mod_small. exact H. Qed.

Lemma s32_range (x : Z) : s32_ok (s32 x).
Proof.
  unfold s32_ok, s32.
  assert (H : 0 <= (x + 2 ^ 31) mod 2 ^ 32 < 2 ^ 32)
    by (apply Z.mod_pos_bound; lia).
  lia.
Qed.

Lemma s32_exact (x : Z) : s32_ok x -> s32 x = x.
Proof.
  unfold s32_ok, s32. intros H.
  rewrite Z.mod_small by lia. lia.
Qed.

Lemma u32_le (x : Z) : 0 <= x -> u32 x <= x.
Proof.
  intros H. unfold u32. apply Z.mod_le; lia.
Qed.

Lemma shiftr_1_half (x : Z) : Z.shiftr x 1 = x / 2.
Proof. rewrite Z.shiftr_div_pow2 by lia. reflexivity. Qed.

Lemma testbit_single (k n : Z) :
  0 <= k -> Z.testbit (Z.shiftl 1 k) n = (k =? n).
Proof.
  intros Hk. rewrite Z.shiftl_1_l. apply Z.pow2_bits_eqb. exact Hk.
Qed.

Lemma land_single (x k : Z) :
  0 <= k -> Z.land x (Z.shiftl 1 k) = if Z.testbit x k then 2 ^ k else 0.
Proof.
  intros Hk. apply Z.bits_inj'. intros n Hn.
  rewrite Z.land_spec, testbit_single by exact Hk.
  destruct (Z.eqb_spec k n) as [->|Hne].
  - destruct (Z.testbit x n) eqn:E.
    + rewrite Z.pow2_bits_true by exact Hn. reflexivity.
    + rewrite Z.bits_0. reflexivity.
  - rewrite andb_false_r.
    destruct (Z.testbit x k).
    + rewrite Z.pow2_bits_false by exact Hne. reflexivity.
    + rewrite Z.bits_0. reflexivity.
Qed.

(** The test [x & (1<<k)] reads bit [k] of [x]. *)
Lemma bit_istrue_single (x k : Z) :
  0 <= k -> bit_istrue x (Z.shiftl 1 k) = Z.testbit x k.
Proof.
  intros Hk. unfold bit_istrue. rewrite land_single by exact Hk.
  destruct (Z.testbit x k).
  - assert (0 < 2 ^ k) by (apply Z.pow_pos_nonneg; lia).
    destruct (Z.eqb_spec (2 ^ k) 0); [lia | reflexivity].
  - reflexivity.
Qed.

(** Raising another bit does not change what the test reads. *)
Lemma testbit_lor_other (x j k : Z) :
  0 <= j -> 0 <= k -> k <> j ->
  Z.testbit (Z.lor x (Z.shiftl 1 j)) k = Z.testbit x k.
Proof.
  intros Hj Hk Hne. rewrite Z.lor_spec, testbit_single by exact Hj.
  destruct (Z.eqb_spec j k); [congruence | apply orb_false_r].
Qed.

Lemma testbit_lor_same (x k : Z) :
  0 <= k -> Z.testbit (Z.lor x (Z.shiftl 1 k)) k = true.
Proof.
  intros Hk. rewrite Z.lor_spec, testbit_single by exact Hk.
  rewrite Z.eqb_refl. apply orb_true_r.
Qed.

(** ** The pieces of the step interrupt *)

Ltac frame_done := unfold rate_frame; repeat split; reflexivity.

Section StepperFacts.
Context (cfg : config_h) {P : Type} (planner : planner_h P).

Lemma floor_divisor (r : Z) :
  (if r <? MINIMUM_STEPS_PER_MINUTE cfg
   then MINIMUM_STEPS_PER_MINUTE cfg else r)
  = Z.max r (MINIMUM_STEPS_PER_MINUTE cfg).
Proof. destruct (Z.ltb_spec r (MINIMUM_STEPS_PER_MINUTE cfg)); lia. Qed.

(** With a positive floor the division of [set_step_events_per_minute] is
    defined, and the call installs [step_period] in the stepper and in the
    step timer. *)
Lemma set_step_events_per_minute_eq (r : Z) (m : machine P) :
  floor_ok cfg ->
  set_step_events_per_minute cfg r m
  = Some (upd_st (set_cycles_per_step_event (step_period cfg r))
            (upd_hw (TimerLoadSet TIMER1 (step_period cfg r)) m)).
Proof.
  intros Hf. unfold set_step_events_per_minute, step_period, udiv.
  rewrite floor_divisor. unfold floor_ok in Hf.
  destruct (Z.eqb_spec (Z.max r (MINIMUM_STEPS_PER_MINUTE cfg)) 0); [lia|].
  reflexivity.
Qed.

Lemma iterate_trapezoid_cycle_counter_eq (m : machine P) :
  iterate_trapezoid_cycle_counter cfg m
  = (tick_fires cfg m,
     upd_st (set_trapezoid_tick_cycle_counter (tick_advanced cfg m)) m).
Proof.
  unfold iterate_trapezoid_cycle_counter, tick_fires, tick_advanced. cbn.
  destruct (CYCLES_PER_ACCELERATION_TICK cfg <? _); reflexivity.
Qed.

Lemma axis_frame_refl (m : machine P) : axis_frame m m.
Proof. unfold axis_frame. repeat split; reflexivity. Qed.

Lemma axis_frame_trans (m1 m2 m3 : machine P) :
  axis_frame m1 m2 -> axis_frame m2 m3 -> axis_frame m1 m3.
Proof.
  unfold axis_frame.
  intros (A1 & A2 & A3 & A4 & A5 & A6 & A7 & A8 & A9 & A10 & A11 & A12
          & A13 & A14)
         (B1 & B2 & B3 & B4 & B5 & B6 & B7 & B8 & B9 & B10 & B11 & B12
          & B13 & B14).
  repeat split; etransitivity; eassumption.
Qed.

Lemma bresenham_axis_frame (a : axis) (b : block_t) (m : machine P) :
  axis_frame m (bresenham_axis cfg a b m).
Proof.
  unfold bresenham_axis. cbv zeta.
  destruct (0 <? _); [| unfold axis_frame; repeat split; reflexivity].
  destruct (bit_istrue _ _); unfold axis_frame; repeat split; reflexivity.
Qed.

Lemma count_event_frame (m m1 : machine P) :
  axis_frame m m1 ->
  bresenham_frame m
    (upd_st (fun s =>
       set_step_events_completed (u32 (step_events_completed s + 1)) s) m1).
Proof.
  intros (A1 & A2 & A3 & A4 & A5 & A6 & A7 & A8 & A9 & A10 & A11 & A12
          & A13 & A14).
  unfold bresenham_frame, step_event.
  rewrite <- A14.
  repeat split; assumption.
Qed.

Lemma isr_bresenham_frame (b : block_t) (m : machine P) :
  bresenham_frame m (isr_bresenham cfg b m).
Proof.
  unfold isr_bresenham. cbv zeta.
  apply count_event_frame.
  eapply axis_frame_trans; [| apply bresenham_axis_frame].
  eapply axis_frame_trans; [| apply bresenham_axis_frame].
  eapply axis_frame_trans; [| apply bresenham_axis_frame].
  unfold axis_frame. repeat split; reflexivity.
Qed.

Lemma tick_fires_frame (m m' : machine P) :
  bresenham_frame m m' -> tick_fires cfg m' = tick_fires cfg m.
Proof.
  unfold tick_fires.
  intros (_ & _ & _ & _ & _ & _ & _ & _ & _ & Hc & Ht & _).
  rewrite Hc, Ht. reflexivity.
Qed.

Lemma tick_advanced_frame (m m' : machine P) :
  bresenham_frame m m' -> tick_advanced cfg m' = tick_advanced cfg m.
Proof.
  unfold tick_advanced.
  intros (_ & _ & _ & _ & _ & _ & _ & _ & _ & Hc & Ht & _).
  rewrite Hc, Ht. reflexivity.
Qed.

End StepperFacts.

Section InterruptFacts.
Context (cfg : config_h) {P : Type} (planner : planner_h P).

Lemma plan_set_current_block (v : option nat) (m : machine P) :
  plan (set_current_block v m) = plan m.
Proof. reflexivity. Qed.

Lemma isr_pop_block_running (m : machine P) (i : nat) :
  current_block m = Some i -> isr_pop_block cfg planner m = Some m.
Proof. intros Hc. unfold isr_pop_block. rewrite Hc. reflexivity. Qed.

(** A firing that finds a block in progress goes straight to its step. *)
Lemma timer1_compare_interrupt_running (m : machine P) (i : nat) :
  busy m = false -> current_block m = Some i ->
  timer1_compare_interrupt cfg planner m
  = (m2 <- isr_step cfg planner i (isr_pulse cfg m) ;;
     Some (isr_finish m2)).
Proof.
  intros Hb Hc. unfold timer1_compare_interrupt.
  rewrite Hb. cbv zeta.
  rewrite (isr_pop_block_running (isr_pulse cfg m) i) by exact Hc.
  cbn [bind].
  change (current_block (isr_pulse cfg m)) with (current_block m).
  rewrite Hc. reflexivity.
Qed.

(** The general shape, through the state [m1] in which lines 205-225 leave
    the machine. *)
Lemma timer1_compare_interrupt_popped (m m1 : machine P) (i : nat) :
  busy m = false ->
  isr_pop_block cfg planner (isr_pulse cfg m) = Some m1 ->
  current_block m1 = Some i ->
  timer1_compare_interrupt cfg planner m
  = (m2 <- isr_step cfg planner i m1 ;; Some (isr_finish m2)).
Proof.
  intros Hb Hp Hc. unfold timer1_compare_interrupt.
  rewrite Hb. cbv zeta. rewrite Hp. cbn [bind]. rewrite Hc. reflexivity.
Qed.

Lemma isr_step_in_block (i : nat) (m : machine P) :
  step_event m < step_event_count (block_at planner i m) ->
  isr_step cfg planner i m
  = if state_eqb (state (sys m)) STATE_HOLD
    then isr_feed_hold cfg (block_at planner i m)
           (isr_bresenham cfg (block_at planner i m) m)
    else isr_trapezoid cfg (block_at planner i m)
           (isr_bresenham cfg (block_at planner i m) m).
Proof.
  intros Hlt. unfold isr_step.
  destruct (isr_bresenham_frame cfg (block_at planner i m) m)
    as (_ & _ & _ & _ & _ & _ & Hs & _ & _ & _ & _ & _ & _ & He).
  cbv zeta. rewrite He, Hs.
  destruct (Z.ltb_spec (step_event m)
              (step_event_count (block_at planner i m)));
    [reflexivity | lia].
Qed.

Lemma isr_step_finished (i : nat) (m : machine P) :
  step_event_count (block_at planner i m) <= step_event m ->
  isr_step cfg planner i m
  = Some (set_plan (plan_discard_current_block planner (plan m))
            (set_current_block None
               (isr_bresenham cfg (block_at planner i m) m))).
Proof.
  intros Hge. unfold isr_step.
  destruct (isr_bresenham_frame cfg (block_at planner i m) m)
    as (_ & Hp & _ & _ & _ & _ & _ & _ & _ & _ & _ & _ & _ & He).
  cbv zeta. rewrite He.
  destruct (Z.ltb_spec (step_event m)
              (step_event_count (block_at planner i m)));
    [lia |].
  rewrite plan_set_current_block, Hp. reflexivity.
Qed.

Lemma st_go_idle_frame (m : machine P) :
  st (st_go_idle cfg m) = st m /\
  current_block (st_go_idle cfg m) = current_block m /\
  plan (st_go_idle cfg m) = plan m /\
  settings (st_go_idle cfg m) = settings m /\
  out_bits (st_go_idle cfg m) = out_bits m /\
  busy (st_go_idle cfg m) = busy m /\
  sys (st_go_idle cfg m) = sys m /\
  timer1_enabled (hw (st_go_idle cfg m)) = false /\
  timer1_load (hw (st_go_idle cfg m)) = timer1_load (hw m).
Proof.
  unfold st_go_idle. cbv zeta.
  destruct (negb _ || _); [destruct (bit_istrue _ _) |];
    repeat split; reflexivity.
Qed.

(** The trapezoid generator always returns when the floor is positive,
    and touches only the rate side of the stepper and the step timer. *)
Lemma isr_trapezoid_frame (b : block_t) (m : machine P) :
  floor_ok cfg ->
  exists m', isr_trapezoid cfg b m = Some m' /\ rate_frame m m'.
Proof.
  intros Hf. unfold isr_trapezoid.
  rewrite iterate_trapezoid_cycle_counter_eq.
  destruct (step_events_completed (st m) <? accelerate_until b).
  - destruct (tick_fires cfg m); cbv zeta.
    + rewrite set_step_events_per_minute_eq by exact Hf.
      eexists. split; [reflexivity |].
      destruct (nominal_rate b <=? _); frame_done.
    + eexists. split; [reflexivity |]. frame_done.
  - destruct (decelerate_after b <=? step_events_completed (st m)).
    + destruct (step_events_completed (st m) =? decelerate_after b).
      * destruct (trapezoid_adjusted_rate (st m) =? nominal_rate b);
          eexists; (split; [reflexivity |]); frame_done.
      * destruct (tick_fires cfg m); cbv zeta.
        -- rewrite set_step_events_per_minute_eq by exact Hf.
           eexists. split; [reflexivity |].
           destruct (min_safe_rate _ <? _);
             destruct (_ <? final_rate b); frame_done.
        -- eexists. split; [reflexivity |]. frame_done.
    + destruct (negb _).
      * cbv zeta. rewrite set_step_events_per_minute_eq by exact Hf.
        eexists. split; [reflexivity |]. frame_done.
      * eexists. split; [reflexivity |]. frame_done.
Qed.

Lemma isr_feed_hold_frame (b : block_t) (m : machine P) :
  floor_ok cfg ->
  exists m', isr_feed_hold cfg b m = Some m' /\ rate_frame m m'.
Proof.
  intros Hf. unfold isr_feed_hold.
  rewrite iterate_trapezoid_cycle_counter_eq.
  destruct (tick_fires cfg m).
  - destruct (_ <=? rate_delta b); cbv zeta.
    + eexists. split; [reflexivity |].
      set (m1 := upd_st _ m).
      destruct (st_go_idle_frame m1)
        as (H1 & H2 & H3 & H4 & H5 & H6 & H7 & _).
      unfold rate_frame.
      cbn [upd_sys set_sys st current_block plan settings out_bits busy sys
           set_execute state position].
      rewrite H1, H2, H3, H4, H5, H6, H7.
      repeat split; reflexivity.
    + rewrite set_step_events_per_minute_eq by exact Hf.
      eexists. split; [reflexivity |]. frame_done.
  - eexists. split; [reflexivity |]. frame_done.
Qed.

End InterruptFacts.

(** ** The branches of the trapezoid generator *)

Section TrapezoidFacts.
Context (cfg : config_h) {P : Type} (planner : planner_h P).

Lemma isr_trapezoid_accelerating (b : block_t) (m m' : machine P) :
  floor_ok cfg ->
  step_events_completed (st m) < accelerate_until b ->
  isr_trapezoid cfg b m = Some m' ->
  trapezoid_tick_cycle_counter (st m') = tick_advanced cfg m /\
  trapezoid_adjusted_rate (st m')
  = if tick_fires cfg m
    then Z.min (u32 (trapezoid_adjusted_rate (st m) + rate_delta b))
           (nominal_rate b)
    else trapezoid_adjusted_rate (st m).
Proof.
  intros Hf Hlt. unfold isr_trapezoid.
  destruct (Z.ltb_spec (step_events_completed (st m)) (accelerate_until b));
    [| lia].
  rewrite iterate_trapezoid_cycle_counter_eq.
  destruct (tick_fires cfg m); cbv zeta.
  - rewrite set_step_events_per_minute_eq by exact Hf.
    destruct (nominal_rate b <=? _) eqn:E; intros [= <-];
      (split; [reflexivity |]); cbn in E |- *.
    + apply Z.leb_le in E. lia.
    + apply Z.leb_gt in E. lia.
  - intros [= <-]. split; reflexivity.
Qed.

Lemma isr_trapezoid_cruising (b : block_t) (m m' : machine P) :
  floor_ok cfg ->
  accelerate_until b <= step_events_completed (st m) < decelerate_after b ->
  isr_trapezoid cfg b m = Some m' ->
  trapezoid_tick_cycle_counter (st m') = trapezoid_tick_cycle_counter (st m) /\
  trapezoid_adjusted_rate (st m') = nominal_rate b.
Proof.
  intros Hf [Ha Hd]. unfold isr_trapezoid.
  destruct (Z.ltb_spec (step_events_completed (st m)) (accelerate_until b));
    [lia |].
  destruct (Z.leb_spec (decelerate_after b) (step_events_completed (st m)));
    [lia |].
  destruct (Z.eqb_spec (trapezoid_adjusted_rate (st m)) (nominal_rate b))
    as [E | E]; cbn [negb].
  - intros [= <-]. split; [reflexivity | exact E].
  - cbv zeta. rewrite set_step_events_per_minute_eq by exact Hf.
    intros [= <-]. split; reflexivity.
Qed.

Lemma isr_trapezoid_decel_start (b : block_t) (m m' : machine P) :
  accelerate_until b <= step_events_completed (st m) ->
  step_events_completed (st m) = decelerate_after b ->
  isr_trapezoid cfg b m = Some m' ->
  trapezoid_adjusted_rate (st m') = trapezoid_adjusted_rate (st m) /\
  cycles_per_step_event (st m') = cycles_per_step_event (st m) /\
  trapezoid_tick_cycle_counter (st m')
  = if trapezoid_adjusted_rate (st m) =? nominal_rate b
    then Z.quot (CYCLES_PER_ACCELERATION_TICK cfg) 2
    else u32 (CYCLES_PER_ACCELERATION_TICK cfg
              - trapezoid_tick_cycle_counter (st m)).
Proof.
  intros Ha Hd. unfold isr_trapezoid.
  destruct (Z.ltb_spec (step_events_completed (st m)) (accelerate_until b));
    [lia |].
  destruct (Z.leb_spec (decelerate_after b) (step_events_completed (st m)));
    [| lia].
  destruct (Z.eqb_spec (step_events_completed (st m)) (decelerate_after b));
    [| lia].
  destruct (trapezoid_adjusted_rate (st m) =? nominal_rate b);
    intros [= <-]; repeat split; reflexivity.
Qed.

Lemma isr_trapezoid_decelerating (b : block_t) (m m' : machine P) :
  floor_ok cfg ->
  accelerate_until b <= step_events_completed (st m) ->
  decelerate_after b < step_events_completed (st m) ->
  isr_trapezoid cfg b m = Some m' ->
  trapezoid_tick_cycle_counter (st m') = tick_advanced cfg m /\
  trapezoid_adjusted_rate (st m')
  = if tick_fires cfg m
    then Z.max (if min_safe_rate (st m) <? trapezoid_adjusted_rate (st m)
                then u32 (trapezoid_adjusted_rate (st m) - rate_delta b)
                else Z.shiftr (trapezoid_adjusted_rate (st m)) 1)
           (final_rate b)
    else trapezoid_adjusted_rate (st m).
Proof.
  intros Hf Ha Hd. unfold isr_trapezoid.
  destruct (Z.ltb_spec (step_events_completed (st m)) (accelerate_until b));
    [lia |].
  destruct (Z.leb_spec (decelerate_after b) (step_events_completed (st m)));
    [| lia].
  destruct (Z.eqb_spec (step_events_completed (st m)) (decelerate_after b));
    [lia |].
  rewrite iterate_trapezoid_cycle_counter_eq.
  destruct (tick_fires cfg m); cbv zeta.
  - rewrite set_step_events_per_minute_eq by exact Hf.
    cbn [upd_st set_st st set_trapezoid_tick_cycle_counter min_safe_rate
         trapezoid_adjusted_rate].
    destruct (min_safe_rate (st m) <? trapezoid_adjusted_rate (st m));
      destruct (_ <? final_rate b) eqn:E; intros [= <-];
      (split; [reflexivity |]); cbn in E |- *;
      [apply Z.ltb_lt in E | apply Z.ltb_ge in E
       | apply Z.ltb_lt in E | apply Z.ltb_ge in E]; lia.
  - intros [= <-]. split; reflexivity.
Qed.

(** The feed hold: the tick counter advances as everywhere else; a firing
    tick takes [rate_delta] off the rate while the rate is above it, and
    otherwise stops the step timer and raises [EXEC_CYCLE_STOP]. *)
Lemma isr_feed_hold_value (b : block_t) (m m' : machine P) :
  floor_ok cfg ->
  isr_feed_hold cfg b m = Some m' ->
  trapezoid_tick_cycle_counter (st m') = tick_advanced cfg m /\
  trapezoid_adjusted_rate (st m')
  = (if tick_fires cfg m && (rate_delta b <? trapezoid_adjusted_rate (st m))
     then u32 (trapezoid_adjusted_rate (st m) - rate_delta b)
     else trapezoid_adjusted_rate (st m)) /\
  (tick_fires cfg m = true ->
   trapezoid_adjusted_rate (st m) <= rate_delta b ->
   timer1_enabled (hw m') = false /\
   execute (sys m') = bit_true (execute (sys m)) (EXEC_CYCLE_STOP cfg)) /\
  (tick_fires cfg m = false -> hw m' = hw m /\ execute (sys m') = execute (sys m)).
Proof.
  intros Hf. unfold isr_feed_hold.
  rewrite iterate_trapezoid_cycle_counter_eq.
  destruct (tick_fires cfg m); cbn [andb].
  - cbn [upd_st set_st st set_trapezoid_tick_cycle_counter
         trapezoid_adjusted_rate].
    destruct (Z.leb_spec (trapezoid_adjusted_rate (st m)) (rate_delta b))
      as [Hle | Hgt]; cbv zeta.
    + destruct (Z.ltb_spec (rate_delta b) (trapezoid_adjusted_rate (st m)));
        [lia |].
      intros [= <-].
      match goal with
      | |- context [st_go_idle cfg ?x] =>
        destruct (st_go_idle_frame cfg x)
          as (H1 & _ & _ & _ & _ & _ & H7 & H8 & _)
      end.
      cbn [upd_sys set_sys st sys hw set_execute execute].
      rewrite H1, H7, H8.
      repeat split; try reflexivity; intros; discriminate.
    + destruct (Z.ltb_spec (rate_delta b) (trapezoid_adjusted_rate (st m)));
        [| lia].
      rewrite set_step_events_per_minute_eq by exact Hf.
      intros [= <-].
      repeat split; try reflexivity; intros; try lia; discriminate.
  - intros [= <-]. repeat split; try reflexivity; intros; discriminate.
Qed.

End TrapezoidFacts.

(** ** One firing on a block in progress *)

Section Firing.
Context (cfg : config_h) {P : Type} (planner : planner_h P).

Lemma isr_finish_frame (m : machine P) :
  st (isr_finish m) = st m /\ current_block (isr_finish m) = current_block m /\
  plan (isr_finish m) = plan m /\ sys (isr_finish m) = sys m /\
  hw (isr_finish m) = hw m /\ settings (isr_finish m) = settings m /\
  busy (isr_finish m) = false /\
  out_bits (isr_finish m) = Z.lxor (out_bits m) (invert_mask (settings m)).
Proof. repeat split; reflexivity. Qed.

(** The state [mb] the generator starts from, against the state [m] the
    interrupt was entered with: the pulse and the Bresenham step have not
    touched the rate side, and the event is counted. *)
Lemma traced_state (b : block_t) (m : machine P) :
  let mb := isr_bresenham cfg b (isr_pulse cfg m) in
  trapezoid_adjusted_rate (st mb) = trapezoid_adjusted_rate (st m) /\
  trapezoid_tick_cycle_counter (st mb) = trapezoid_tick_cycle_counter (st m) /\
  cycles_per_step_event (st mb) = cycles_per_step_event (st m) /\
  min_safe_rate (st mb) = min_safe_rate (st m) /\
  step_events_completed (st mb) = step_event m /\
  tick_fires cfg mb = tick_fires cfg m /\
  tick_advanced cfg mb = tick_advanced cfg m /\
  state (sys mb) = state (sys m) /\
  execute (sys mb) = execute (sys m) /\
  current_block mb = current_block m /\
  plan mb = plan m.
Proof.
  intros mb.
  pose proof (isr_bresenham_frame cfg b (isr_pulse cfg m)) as F.
  pose proof (tick_fires_frame cfg _ _ F) as Hf.
  pose proof (tick_advanced_frame cfg _ _ F) as Ha.
  destruct F as (A1 & A2 & A3 & A4 & A5 & A6 & A7 & A8 & A9 & A10 & A11 & A12
                 & A13 & A14).
  repeat split; assumption.
Qed.

(** A firing on a block that this step event does not finish: the
    interrupt returns, and its result is the generator's (or the feed
    hold's) with the invert mask applied and [busy] released. *)
Lemma firing_in_block (m : machine P) (i : nat) :
  floor_ok cfg -> busy m = false -> current_block m = Some i ->
  step_event m < step_event_count (block_at planner i m) ->
  let b := block_at planner i m in
  let mb := isr_bresenham cfg b (isr_pulse cfg m) in
  exists m3,
    (if state_eqb (state (sys m)) STATE_HOLD
     then isr_feed_hold cfg b mb else isr_trapezoid cfg b mb) = Some m3 /\
    timer1_compare_interrupt cfg planner m = Some (isr_finish m3) /\
    rate_frame mb m3.
Proof.
  intros Hf Hb Hc Hlt b mb.
  rewrite (timer1_compare_interrupt_running cfg planner m i Hb Hc).
  rewrite isr_step_in_block by exact Hlt.
  change (block_at planner i (isr_pulse cfg m)) with b.
  change (state (sys (isr_pulse cfg m))) with (state (sys m)).
  fold mb.
  destruct (state_eqb (state (sys m)) STATE_HOLD).
  - destruct (isr_feed_hold_frame cfg b mb Hf) as (m3 & E & F).
    exists m3. rewrite E. repeat split; try reflexivity; apply F.
  - destruct (isr_trapezoid_frame cfg b mb Hf) as (m3 & E & F).
    exists m3. rewrite E. repeat split; try reflexivity; apply F.
Qed.

End Firing.

(* ================================================================== *)
(** * The trapezoid generator (section 4.D) *)

(** In the statements below [step_event m] is [st.step_events_completed] as
    the generator tests it, that is after line 252 has counted the step
    event of the firing, and the arithmetic is that of the 32-bit objects
    of the source ([u32], [s32]). *)

Section Trapezoid.
Context (cfg : config_h) {P : Type} (planner : planner_h P).

(** C7.  Outside a feed hold, on a block in progress: while
    [step_events_completed < accelerate_until] a firing acceleration tick
    adds [rate_delta] to [trapezoid_adjusted_rate] and clamps the sum to
    [nominal_rate] from above (and a firing without a tick leaves the rate
    alone); when [accelerate_until <= step_events_completed <
    decelerate_after] the rate is forced to [nominal_rate]. *)
Theorem trapezoid_accelerates_then_cruises (m : machine P) (i : nat) :
  floor_ok cfg ->
  busy m = false ->
  current_block m = Some i ->
  state (sys m) <> STATE_HOLD ->
  step_event m < step_event_count (block_at planner i m) ->
  exists m',
    timer1_compare_interrupt cfg planner m = Some m' /\
    (step_event m < accelerate_until (block_at planner i m) ->
     (tick_fires cfg m = true ->
      trapezoid_adjusted_rate (st m')
      = Z.min (u32 (trapezoid_adjusted_rate (st m)
                    + rate_delta (block_at planner i m)))
              (nominal_rate (block_at planner i m))) /\
     (tick_fires cfg m = false ->
      trapezoid_adjusted_rate (st m') = trapezoid_adjusted_rate (st m))) /\
    (accelerate_until (block_at planner i m) <= step_event m
       < decelerate_after (block_at planner i m) ->
     trapezoid_adjusted_rate (st m') = nominal_rate (block_at planner i m)).
Proof.
  intros Hf Hb Hc Hs Hlt.
  destruct (firing_in_block cfg planner m i Hf Hb Hc Hlt) as (m3 & E & R & _).
  rewrite (state_eqb_neq _ _ Hs) in E.
  destruct (traced_state cfg (block_at planner i m) m)
    as (Tr & Tt & Tc & Tm & Te & Tf & Ta & _).
  exists (isr_finish m3). split; [exact R |].
  destruct (isr_finish_frame m3) as (-> & _).
  split.
  - intros Hacc.
    destruct (isr_trapezoid_accelerating cfg _ _ _ Hf
                ltac:(rewrite Te; exact Hacc) E) as (_ & Hr).
    rewrite Tf, Tr in Hr. rewrite Hr.
    split; intros ->; reflexivity.
  - intros Hcr.
    apply (isr_trapezoid_cruising cfg _ _ _ Hf
             ltac:(rewrite Te; exact Hcr) E).
Qed.


End Trapezoid.

Lemma trapezoid_accelerates_then_cruises_witness :
  floor_ok lm4f_config /\ busy accelerating = false /\
  current_block accelerating = Some 0%nat /\
  state (sys accelerating) <> STATE_HOLD /\
  step_event accelerating
  < step_event_count (block_at ring_planner 0 accelerating) /\
  exists m',
    timer1_compare_interrupt lm4f_config ring_planner accelerating = Some m' /\
    (step_event accelerating
     < accelerate_until (block_at ring_planner 0 accelerating) ->
     (tick_fires lm4f_config accelerating = true ->
      trapezoid_adjusted_rate (st m')
      = Z.min (u32 (trapezoid_adjusted_rate (st accelerating)
                    + rate_delta (block_at ring_planner 0 accelerating)))
              (nominal_rate (block_at ring_planner 0 accelerating))) /\
     (tick_fires lm4f_config accelerating = false ->
      trapezoid_adjusted_rate (st m')
      = trapezoid_adjusted_rate (st accelerating))) /\
    (accelerate_until (block_at ring_planner 0 accelerating)
     <= step_event accelerating
     < decelerate_after (block_at ring_planner 0 accelerating) ->
     trapezoid_adjusted_rate (st m')
     = nominal_rate (block_at ring_planner 0 accelerating)).
Proof.
  assert (Hf : floor_ok lm4f_config) by reflexivity.
  assert (Hs : state (sys accelerating) <> STATE_HOLD)
    by (simpl; discriminate).
  assert (Hlt : step_event accelerating
                < step_event_count (block_at ring_planner 0 accelerating))
    by (vm_compute; reflexivity).
  repeat (split; [first [exact Hf | exact Hs | exact Hlt | reflexivity] |]).
  exact (trapezoid_accelerates_then_cruises lm4f_config ring_planner
           accelerating 0%nat Hf eq_refl eq_refl Hs Hlt).
Defined.


(* ================================================================== *)
(** * The Bresenham tracer (section 4.E) *)

Section Tracer.
Context (cfg : config_h) {P : Type} (planner : planner_h P).

Lemma counter_set_same (a : axis) (v : Z) (s : stepper_t) :
  counter a (set_counter a v s) = v.
Proof. destruct a; reflexivity. Qed.

Lemma counter_set_other (a a' : axis) (v : Z) (s : stepper_t) :
  a <> a' -> counter a' (set_counter a v s) = counter a' s.
Proof. destruct a, a'; intros H; try reflexivity; contradiction. Qed.

Lemma pos_set_same (a : axis) (v : Z) (p : position_t) :
  pos a (set_pos a v p) = v.
Proof. destruct a; reflexivity. Qed.

Lemma pos_set_other (a a' : axis) (v : Z) (p : position_t) :
  a <> a' -> pos a' (set_pos a v p) = pos a' p.
Proof. destruct a, a'; intros H; try reflexivity; contradiction. Qed.

(** Tracing axis [a]: its accumulator, its position and the output bits. *)
Lemma bresenham_axis_self (a : axis) (b : block_t) (m : machine P) :
  pins_ok cfg ->
  let c := s32 (counter a (st m) + steps a b) in
  let m' := bresenham_axis cfg a b m in
  counter a (st m')
  = (if 0 <? c then s32 (c - event_count (st m)) else c) /\
  pos a (position (sys m'))
  = (if 0 <? c
     then if Z.testbit (out_bits m) (DIRECTION_BIT cfg a)
          then s32 (pos a (position (sys m)) - 1)
          else s32 (pos a (position (sys m)) + 1)
     else pos a (position (sys m))) /\
  out_bits m'
  = (if 0 <? c then Z.lor (out_bits m) (Z.shiftl 1 (STEP_BIT cfg a))
     else out_bits m).
Proof.
  intros [Hnn Hds] c m'. subst m' c. unfold bresenham_axis. cbv zeta.
  pose proof (Hnn a) as [Hs Hd]. pose proof (Hds a a) as Hne.
  destruct a;
    cbn [upd_st set_st st counter set_counter counter_x counter_y counter_z
         event_count set_out_bits out_bits upd_sys set_sys sys set_position
         position pos set_pos pos_x pos_y pos_z STEP_BIT DIRECTION_BIT]
      in *;
    (destruct (0 <? _); [| repeat split; reflexivity]);
    rewrite bit_istrue_single by exact Hd;
    rewrite testbit_lor_other by assumption;
    destruct (Z.testbit (out_bits m) _);
    cbn [upd_st set_st st counter set_counter counter_x counter_y counter_z
         event_count set_out_bits out_bits upd_sys set_sys sys set_position
         position pos set_pos pos_x pos_y pos_z];
    repeat split; reflexivity.
Qed.

(** Tracing axis [a] does not touch the other axes. *)
Lemma bresenham_axis_other (a a' : axis) (b : block_t) (m : machine P) :
  a <> a' ->
  counter a' (st (bresenham_axis cfg a b m)) = counter a' (st m) /\
  pos a' (position (sys (bresenham_axis cfg a b m)))
  = pos a' (position (sys m)).
Proof.
  intros Hne. unfold bresenham_axis. cbv zeta.
  destruct (0 <? _); [destruct (bit_istrue _ _) |];
    cbn [upd_sys set_sys sys st out_bits set_position position upd_st set_st
         set_out_bits];
    rewrite ?pos_set_other, ?counter_set_other by exact Hne;
    split; reflexivity.
Qed.

(** Tracing an axis keeps the direction bits and the step bits already
    raised. *)
Lemma bresenham_axis_bits (a : axis) (b : block_t) (m : machine P) :
  pins_ok cfg ->
  (forall a', Z.testbit (out_bits (bresenham_axis cfg a b m))
                (DIRECTION_BIT cfg a')
              = Z.testbit (out_bits m) (DIRECTION_BIT cfg a')) /\
  (forall k, Z.testbit (out_bits m) k = true ->
             Z.testbit (out_bits (bresenham_axis cfg a b m)) k = true).
Proof.
  intros Hp.
  destruct (bresenham_axis_self a b m Hp) as (_ & _ & ->).
  destruct Hp as [Hnn Hds].
  destruct (0 <? _); split; intros; try reflexivity; try assumption.
  - apply testbit_lor_other; try apply Hnn. apply Hds.
  - rewrite Z.lor_spec. rewrite H. reflexivity.
Qed.

(** The accumulator and position of axis [a], and the output bits, once the
    three axes have been traced from [m0], whose output bits hold the
    direction bits of the block. *)
Lemma three_axes (a : axis) (b : block_t) (m0 : machine P) :
  pins_ok cfg ->
  let c := s32 (counter a (st m0) + steps a b) in
  let mz := bresenham_axis cfg Z_AXIS b
              (bresenham_axis cfg Y_AXIS b
                 (bresenham_axis cfg X_AXIS b m0)) in
  counter a (st mz)
  = (if 0 <? c then s32 (c - event_count (st m0)) else c) /\
  pos a (position (sys mz))
  = (if 0 <? c
     then if Z.testbit (out_bits m0) (DIRECTION_BIT cfg a)
          then s32 (pos a (position (sys m0)) - 1)
          else s32 (pos a (position (sys m0)) + 1)
     else pos a (position (sys m0))) /\
  (0 < c -> Z.testbit (out_bits mz) (STEP_BIT cfg a) = true) /\
  (forall a', Z.testbit (out_bits mz) (DIRECTION_BIT cfg a')
              = Z.testbit (out_bits m0) (DIRECTION_BIT cfg a')).
Proof.
  intros Hp c mz. subst mz.
  set (mx := bresenham_axis cfg X_AXIS b m0).
  set (my := bresenham_axis cfg Y_AXIS b mx).
  pose proof (bresenham_axis_frame cfg X_AXIS b m0) as Fx.
  pose proof (bresenham_axis_frame cfg Y_AXIS b mx) as Fy.
  fold mx in Fx. fold my in Fy.
  destruct (bresenham_axis_bits X_AXIS b m0 Hp) as [Dx Ux].
  destruct (bresenham_axis_bits Y_AXIS b mx Hp) as [Dy Uy].
  destruct (bresenham_axis_bits Z_AXIS b my Hp) as [Dz Uz].
  fold mx in Dx, Ux, Dy, Uy. fold my in Dy, Uy, Dz, Uz.
  destruct Fx as (_ & _ & _ & _ & _ & _ & _ & _ & Ex & _).
  destruct Fy as (_ & _ & _ & _ & _ & _ & _ & _ & Ey & _).
  assert (Hdir : forall a',
             Z.testbit (out_bits (bresenham_axis cfg Z_AXIS b my))
               (DIRECTION_BIT cfg a')
             = Z.testbit (out_bits m0) (DIRECTION_BIT cfg a'))
    by (intros a'; rewrite Dz, Dy, Dx; reflexivity).
  assert (Hbit : forall k, 0 <= k ->
             Z.testbit (Z.lor (out_bits m0) (Z.shiftl 1 k)) k = true)
    by (intros; apply testbit_lor_same; assumption).
  destruct a.
  - destruct (bresenham_axis_self X_AXIS b m0 Hp) as (Sc & Sp & So).
    destruct (bresenham_axis_other Y_AXIS X_AXIS b mx ltac:(discriminate))
      as (Yc & Yp).
    destruct (bresenham_axis_other Z_AXIS X_AXIS b my ltac:(discriminate))
      as (Zc & Zp).
    fold mx in Sc, Sp, So, Yc, Yp. fold my in Yc, Yp, Zc, Zp. fold c in Sc, Sp, So.
    rewrite Zc, Zp, Yc, Yp, Sc, Sp.
    repeat split; try exact Hdir.
    intros Hpos. apply Uz, Uy. rewrite So.
    destruct (Z.ltb_spec 0 c); [| lia].
    apply testbit_lor_same, Hp.
  - destruct (bresenham_axis_other X_AXIS Y_AXIS b m0 ltac:(discriminate))
      as (Xc & Xp).
    destruct (bresenham_axis_self Y_AXIS b mx Hp) as (Sc & Sp & So).
    destruct (bresenham_axis_other Z_AXIS Y_AXIS b my ltac:(discriminate))
      as (Zc & Zp).
    fold mx in Xc, Xp, Sc, Sp, So. fold my in Sc, Sp, So, Zc, Zp.
    rewrite Xc, Xp, Ex, Dx in *. fold c in Sc, Sp, So.
    rewrite Zc, Zp, Sc, Sp.
    repeat split; try exact Hdir.
    intros Hpos. apply Uz. rewrite So.
    destruct (Z.ltb_spec 0 c); [| lia].
    apply testbit_lor_same, Hp.
  - destruct (bresenham_axis_other X_AXIS Z_AXIS b m0 ltac:(discriminate))
      as (Xc & Xp).
    destruct (bresenham_axis_other Y_AXIS Z_AXIS b mx ltac:(discriminate))
      as (Yc & Yp).
    destruct (bresenham_axis_self Z_AXIS b my Hp) as (Sc & Sp & So).
    fold mx in Xc, Xp, Yc, Yp. fold my in Yc, Yp, Sc, Sp, So.
    rewrite Yc, Yp, Xc, Xp, Ey, Ex, Dy, Dx in *. fold c in Sc, Sp, So.
    rewrite Sc, Sp.
    repeat split; try exact Hdir.
    intros Hpos. rewrite So.
    destruct (Z.ltb_spec 0 c); [| lia].
    apply testbit_lor_same, Hp.
Qed.

End Tracer.

Section TracerStep.
Context (cfg : config_h) {P : Type} (planner : planner_h P).

Lemma count_event_keeps (a : axis) (m : machine P) :
  let m' := upd_st (fun s =>
              set_step_events_completed (u32 (step_events_completed s + 1)) s)
              m in
  counter a (st m') = counter a (st m) /\
  position (sys m') = position (sys m) /\
  out_bits m' = out_bits m.
Proof. destruct a; repeat split; reflexivity. Qed.

(** The Bresenham step of lines 229-252 on axis [a]. *)
Lemma isr_bresenham_axis (a : axis) (b : block_t) (m : machine P) :
  pins_ok cfg ->
  let c := s32 (counter a (st m) + steps a b) in
  let mb := isr_bresenham cfg b m in
  counter a (st mb)
  = (if 0 <? c then s32 (c - event_count (st m)) else c) /\
  pos a (position (sys mb))
  = (if 0 <? c
     then if Z.testbit (direction_bits b) (DIRECTION_BIT cfg a)
          then s32 (pos a (position (sys m)) - 1)
          else s32 (pos a (position (sys m)) + 1)
     else pos a (position (sys m))) /\
  (0 < c -> Z.testbit (out_bits mb) (STEP_BIT cfg a) = true) /\
  (forall a', Z.testbit (out_bits mb) (DIRECTION_BIT cfg a')
              = Z.testbit (direction_bits b) (DIRECTION_BIT cfg a')).
Proof.
  intros Hp c mb. subst mb. unfold isr_bresenham. cbv zeta.
  destruct (three_axes cfg a b (set_out_bits (direction_bits b) m) Hp)
    as (Hc & Hq & Hs & Hd).
  cbn [set_out_bits st sys out_bits] in Hc, Hq, Hs, Hd. fold c in Hc, Hq, Hs.
  match goal with
  | |- context [upd_st _ ?x] =>
    destruct (count_event_keeps a x) as (Kc & Kp & Ko)
  end.
  cbv zeta in Kc, Kp, Ko. rewrite Kc, Kp, Ko.
  repeat split; assumption.
Qed.

Lemma release_keeps (p : P) (m : machine P) :
  tracer_kept m (set_plan p (set_current_block None m)).
Proof. unfold tracer_kept. repeat split; reflexivity. Qed.

(** A step on block [i] always returns when the floor is positive, and
    what follows the Bresenham step keeps its results. *)
Lemma isr_step_total (i : nat) (m : machine P) :
  floor_ok cfg ->
  exists m3,
    isr_step cfg planner i m = Some m3 /\
    tracer_kept (isr_bresenham cfg (block_at planner i m) m) m3.
Proof.
  intros Hf.
  destruct (Z.lt_ge_cases (step_event m)
              (step_event_count (block_at planner i m))) as [Hlt | Hge].
  - rewrite isr_step_in_block by exact Hlt.
    destruct (state_eqb _ _).
    + destruct (isr_feed_hold_frame cfg (block_at planner i m)
                  (isr_bresenham cfg (block_at planner i m) m) Hf)
        as (m3 & E & F).
      exists m3. split; [exact E |].
      destruct F as (_ & _ & F3 & F4 & _ & _ & F7 & F8 & F9 & F10 & _).
      unfold tracer_kept. repeat split; assumption.
    + destruct (isr_trapezoid_frame cfg (block_at planner i m)
                  (isr_bresenham cfg (block_at planner i m) m) Hf)
        as (m3 & E & F).
      exists m3. split; [exact E |].
      destruct F as (_ & _ & F3 & F4 & _ & _ & F7 & F8 & F9 & F10 & _).
      unfold tracer_kept. repeat split; assumption.
  - rewrite isr_step_finished by exact Hge.
    eexists. split; [reflexivity |]. apply release_keeps.
Qed.

(** C3.  On a firing of the step interrupt that has a current block (the
    one in progress, or the one lines 205-225 have just popped, [m1] being
    the machine at line 227): for each axis the accumulator increases by the
    block's step count of the axis; when the result is positive the step bit
    of the axis is set in the output bits (as they are before the invert
    mask), the accumulator decreases by [event_count], and the position of
    the axis decreases by one if the block's direction bit of the axis is
    set and increases by one otherwise; and [step_events_completed]
    increases by one. *)
Theorem bresenham_step (m m1 : machine P) (i : nat) (a : axis) :
  floor_ok cfg ->
  pins_ok cfg ->
  busy m = false ->
  isr_pop_block cfg planner (isr_pulse cfg m) = Some m1 ->
  current_block m1 = Some i ->
  let b := block_at planner i m1 in
  let c := s32 (counter a (st m1) + steps a b) in
  exists m' bits,
    timer1_compare_interrupt cfg planner m = Some m' /\
    out_bits m' = Z.lxor bits (invert_mask (settings m')) /\
    counter a (st m')
    = (if 0 <? c then s32 (c - event_count (st m1)) else c) /\
    (0 < c -> Z.testbit bits (STEP_BIT cfg a) = true) /\
    pos a (position (sys m'))
    = (if 0 <? c
       then if Z.testbit (direction_bits b) (DIRECTION_BIT cfg a)
            then s32 (pos a (position (sys m1)) - 1)
            else s32 (pos a (position (sys m1)) + 1)
       else pos a (position (sys m1))) /\
    step_events_completed (st m') = u32 (step_events_completed (st m1) + 1).
Proof.
  intros Hf Hp Hb Hpop Hc b c.
  rewrite (timer1_compare_interrupt_popped cfg planner m m1 i Hb Hpop Hc).
  destruct (isr_step_total i m1 Hf) as (m3 & E & K).
  fold b in K. rewrite E. cbn [bind].
  destruct K as (K1 & K2 & K3 & K4 & K5 & K6).
  destruct (isr_bresenham_axis a b m1 Hp) as (Bc & Bp & Bs & _).
  destruct (isr_bresenham_frame cfg b m1)
    as (_ & _ & _ & _ & _ & _ & _ & _ & _ & _ & _ & _ & _ & Be).
  fold c in Bc, Bp, Bs.
  destruct (isr_finish_frame m3) as (F1 & _ & _ & F4 & _ & F6 & _ & F8).
  exists (isr_finish m3), (out_bits m3).
  rewrite F1, F4, F6, F8, K3, K4, K6, Bc, Bp, Be, K2.
  repeat split; try reflexivity. exact Bs.
Qed.

End TracerStep.

Lemma bresenham_step_witness :
  floor_ok lm4f_config /\ pins_ok lm4f_config /\ busy accelerating = false /\
  isr_pop_block lm4f_config ring_planner (isr_pulse lm4f_config accelerating)
  = Some (isr_pulse lm4f_config accelerating) /\
  current_block (isr_pulse lm4f_config accelerating) = Some 0%nat /\
  exists m' bits,
    timer1_compare_interrupt lm4f_config ring_planner accelerating = Some m' /\
    out_bits m' = Z.lxor bits (invert_mask (settings m')) /\
    counter X_AXIS (st m') = -500 /\
    (0 < 500 -> Z.testbit bits 2 = true) /\
    pos X_AXIS (position (sys m')) = 1 /\
    step_events_completed (st m') = 11.
Proof.
  assert (Hf : floor_ok lm4f_config) by reflexivity.
  assert (Hp : pins_ok lm4f_config).
  { split; intros a; [destruct a; split; discriminate |].
    intros a'; destruct a, a'; discriminate. }
  repeat (split; [first [exact Hf | exact Hp | reflexivity] |]).
  exact (bresenham_step lm4f_config ring_planner accelerating
           (isr_pulse lm4f_config accelerating) 0%nat X_AXIS
           Hf Hp eq_refl eq_refl eq_refl).
Defined.

(* ================================================================== *)
(** * Taking and releasing blocks *)

Section Blocks.
Context (cfg : config_h) {P : Type} (planner : planner_h P).

(** Lines 205-225 with no block in progress and a block [j] lent by the
    planner: the stepper is prepared for [j]; rate, period and tick counter
    are initialised in the Cycle state only. *)
Lemma isr_pop_block_some (m : machine P) (j : nat) :
  floor_ok cfg ->
  current_block m = None ->
  plan_get_current_block planner (plan m) = Some j ->
  exists m1,
    isr_pop_block cfg planner m = Some m1 /\
    current_block m1 = Some j /\ plan m1 = plan m /\
    sys m1 = sys m /\ settings m1 = settings m /\ out_bits m1 = out_bits m /\
    busy m1 = busy m /\
    (forall a, counter a (st m1)
               = s32 (- Z.shiftr (step_event_count (block_at planner j m)) 1)) /\
    event_count (st m1) = step_event_count (block_at planner j m) /\
    step_events_completed (st m1) = 0 /\
    min_safe_rate (st m1)
    = u32 (rate_delta (block_at planner j m)
           + Z.shiftr (rate_delta (block_at planner j m)) 1) /\
    (state (sys m) = STATE_CYCLE ->
     trapezoid_adjusted_rate (st m1) = initial_rate (block_at planner j m) /\
     cycles_per_step_event (st m1)
     = step_period cfg (initial_rate (block_at planner j m)) /\
     trapezoid_tick_cycle_counter (st m1)
     = Z.quot (CYCLES_PER_ACCELERATION_TICK cfg) 2) /\
    (state (sys m) <> STATE_CYCLE ->
     trapezoid_adjusted_rate (st m1) = trapezoid_adjusted_rate (st m) /\
     cycles_per_step_event (st m1) = cycles_per_step_event (st m) /\
     trapezoid_tick_cycle_counter (st m1)
     = trapezoid_tick_cycle_counter (st m) /\
     hw m1 = hw m).
Proof.
  intros Hf Hc Hg. unfold isr_pop_block. rewrite Hc.
  cbv zeta. cbn [set_current_block current_block plan].
  rewrite Hg. unfold block_at.
  change (sys (set_current_block (Some j) m)) with (sys m).
  change (plan (set_current_block (Some j) m)) with (plan m).
  destruct (state_eqb_spec (state (sys m)) STATE_CYCLE) as [Hs | Hs].
  - rewrite set_step_events_per_minute_eq by exact Hf. cbn [bind].
    eexists. split; [reflexivity |].
    repeat split; try reflexivity; try (intros a; destruct a; reflexivity);
      intros; contradiction.
  - cbn [bind]. eexists. split; [reflexivity |].
    repeat split; try reflexivity; try (intros a; destruct a; reflexivity);
      intros; contradiction.
Qed.

(** Lines 205-225 with no block in progress and none to take: the stepper
    goes idle and the cycle stop is flagged. *)
Lemma isr_pop_block_none (m : machine P) :
  current_block m = None ->
  plan_get_current_block planner (plan m) = None ->
  exists m1,
    isr_pop_block cfg planner m = Some m1 /\
    current_block m1 = None /\ plan m1 = plan m /\ st m1 = st m /\
    position (sys m1) = position (sys m) /\ state (sys m1) = state (sys m) /\
    execute (sys m1) = bit_true (execute (sys m)) (EXEC_CYCLE_STOP cfg) /\
    timer1_enabled (hw m1) = false.
Proof.
  intros Hc Hg. unfold isr_pop_block. rewrite Hc.
  cbv zeta. cbn [set_current_block current_block plan].
  rewrite Hg.
  eexists. split; [reflexivity |].
  match goal with
  | |- context [st_go_idle cfg ?x] =>
    destruct (st_go_idle_frame cfg x)
      as (H1 & H2 & H3 & _ & _ & _ & H7 & H8 & _)
  end.
  cbn [upd_sys set_sys st current_block plan sys hw set_execute execute
       position state].
  rewrite H1, H2, H3, H7, H8.
  repeat split; reflexivity.
Qed.

(** The machine a finishing step hands back: [mb] stands for the machine
    after the Bresenham step. *)
Lemma released_machine (m1 mb : machine P) :
  floor_ok cfg ->
  hw mb = hw m1 ->
  cycles_per_step_event (st mb) = cycles_per_step_event (st m1) ->
  trapezoid_tick_cycle_counter (st mb) = trapezoid_tick_cycle_counter (st m1) ->
  trapezoid_adjusted_rate (st mb) = trapezoid_adjusted_rate (st m1) ->
  let m' := isr_finish
              (set_plan (plan_discard_current_block planner (plan m1))
                 (set_current_block None mb)) in
  current_block m' = None /\
  plan m' = plan_discard_current_block planner (plan m1) /\
  busy m' = false /\
  trapezoid_adjusted_rate (st m') = trapezoid_adjusted_rate (st m1) /\
  cycles_per_step_event (st m') = cycles_per_step_event (st m1) /\
  trapezoid_tick_cycle_counter (st m')
  = trapezoid_tick_cycle_counter (st m1) /\
  hw m' = hw m1 /\
  exists m2,
    isr_pop_block cfg planner (isr_pulse cfg m') = Some m2 /\
    current_block m2 = plan_get_current_block planner (plan m') /\
    (forall j a,
       current_block m2 = Some j ->
       counter a (st m2)
       = s32 (- Z.shiftr (step_event_count (block_at planner j m')) 1) /\
       event_count (st m2) = step_event_count (block_at planner j m') /\
       step_events_completed (st m2) = 0) /\
    (current_block m2 = None ->
     exists m'',
       timer1_compare_interrupt cfg planner m' = Some m'' /\
       current_block m'' = None /\
       st m'' = st m' /\ position (sys m'') = position (sys m')).
Proof.
  intros Hf B4 B10 B11 B12 m'.
  assert (Hcb : current_block m' = None) by reflexivity.
  assert (Hpl : plan m' = plan_discard_current_block planner (plan m1))
    by reflexivity.
  assert (Hbz : busy m' = false) by reflexivity.
  assert (Hst : st m' = st mb) by reflexivity.
  assert (Hhw : hw m' = hw mb) by reflexivity.
  clearbody m'.
  repeat (split; [first [assumption | congruence] |]).
  destruct (plan_get_current_block planner (plan m')) as [j |] eqn:Hg.
  - destruct (isr_pop_block_some (isr_pulse cfg m') j Hf Hcb Hg)
      as (m2 & E & C1 & _ & _ & _ & _ & _ & C8 & C9 & C10 & _).
    exists m2. split; [exact E |]. split; [exact C1 |]. split.
    + intros j' a Hj. rewrite C1 in Hj. injection Hj as <-.
      repeat split; [apply C8 | exact C9 | exact C10].
    + intros Hn. rewrite C1 in Hn. discriminate.
  - destruct (isr_pop_block_none (isr_pulse cfg m') Hcb Hg)
      as (m2 & E & C1 & _ & C3 & C4 & _).
    exists m2. split; [exact E |]. split; [exact C1 |]. split.
    + intros j a Hj. rewrite C1 in Hj. discriminate.
    + intros _. unfold timer1_compare_interrupt. rewrite Hbz. cbv zeta.
      rewrite E. cbn [bind]. rewrite C1.
      eexists. split; [reflexivity |].
      destruct (isr_finish_frame m2) as (F1 & F2 & _ & F4 & _).
      rewrite F1, F2, F4, C3, C4.
      repeat split; first [exact C1 | reflexivity].
Qed.

(** C8.  On the firing at which [step_events_completed] reaches the block's
    [step_event_count] ([m1] is the machine at line 227): the interrupt sets
    [current_block] to none and calls [plan_discard_current_block]; it
    updates neither the rate, nor the timer period, nor the tick counter.
    The next firing takes whatever block the planner now lends: if there
    is one the accumulators and the event count are seeded afresh from
    it, if there is none the stepper state and the position stay as they
    are. *)
Theorem block_completion (m m1 : machine P) (i : nat) :
  floor_ok cfg ->
  busy m = false ->
  isr_pop_block cfg planner (isr_pulse cfg m) = Some m1 ->
  current_block m1 = Some i ->
  step_event_count (block_at planner i m1) <= step_event m1 ->
  exists m',
    timer1_compare_interrupt cfg planner m = Some m' /\
    current_block m' = None /\
    plan m' = plan_discard_current_block planner (plan m1) /\
    busy m' = false /\
    trapezoid_adjusted_rate (st m') = trapezoid_adjusted_rate (st m1) /\
    cycles_per_step_event (st m') = cycles_per_step_event (st m1) /\
    trapezoid_tick_cycle_counter (st m')
    = trapezoid_tick_cycle_counter (st m1) /\
    hw m' = hw m1 /\
    exists m2,
      isr_pop_block cfg planner (isr_pulse cfg m') = Some m2 /\
      current_block m2 = plan_get_current_block planner (plan m') /\
      (forall j a,
         current_block m2 = Some j ->
         counter a (st m2)
         = s32 (- Z.shiftr (step_event_count (block_at planner j m')) 1) /\
         event_count (st m2) = step_event_count (block_at planner j m') /\
         step_events_completed (st m2) = 0) /\
      (current_block m2 = None ->
       exists m'',
         timer1_compare_interrupt cfg planner m' = Some m'' /\
         current_block m'' = None /\
         st m'' = st m' /\ position (sys m'') = position (sys m')).
Proof.
  intros Hf Hb Hpop Hc Hge.
  rewrite (timer1_compare_interrupt_popped cfg planner m m1 i Hb Hpop Hc).
  rewrite isr_step_finished by exact Hge. cbn [bind].
  destruct (isr_bresenham_frame cfg (block_at planner i m1) m1)
    as (_ & _ & _ & B4 & _ & _ & _ & _ & _ & B10 & B11 & B12 & _).
  eexists. split; [reflexivity |].
  apply (released_machine m1 _ Hf); assumption.
Qed.

End Blocks.

Lemma block_completion_witness :
  floor_ok lm4f_config /\ busy finishing = false /\
  isr_pop_block lm4f_config ring_planner (isr_pulse lm4f_config finishing)
  = Some (isr_pulse lm4f_config finishing) /\
  current_block (isr_pulse lm4f_config finishing) = Some 0%nat /\
  step_event_count (block_at ring_planner 0 (isr_pulse lm4f_config finishing))
  <= step_event (isr_pulse lm4f_config finishing) /\
  exists m',
    timer1_compare_interrupt lm4f_config ring_planner finishing = Some m' /\
    current_block m' = None /\
    plan m' = discard_tail (ring_with long_move) /\
    trapezoid_adjusted_rate (st m') = 1200.
Proof.
  assert (Hf : floor_ok lm4f_config) by reflexivity.
  assert (Hge : step_event_count
                  (block_at ring_planner 0 (isr_pulse lm4f_config finishing))
                <= step_event (isr_pulse lm4f_config finishing))
    by (vm_compute; discriminate).
  repeat (split; [first [exact Hf | exact Hge | reflexivity] |]).
  destruct (block_completion lm4f_config ring_planner finishing
              (isr_pulse lm4f_config finishing) 0%nat
              Hf eq_refl eq_refl eq_refl Hge)
    as (m' & E & C1 & C2 & _ & C4 & _).
  exists m'. repeat split; assumption.
Defined.

(* ================================================================== *)
(** * Feed hold (section 4.D) *)

Section FeedHold.
Context (cfg : config_h) {P : Type} (planner : planner_h P).

(** Lines 205-225 in the Hold state: whether or not a block is popped,
    rate, timer period and tick counter are carried over. *)
Lemma isr_pop_block_in_hold (m m1 : machine P) (i : nat) :
  floor_ok cfg ->
  state (sys m) = STATE_HOLD ->
  isr_pop_block cfg planner m = Some m1 ->
  current_block m1 = Some i ->
  trapezoid_adjusted_rate (st m1) = trapezoid_adjusted_rate (st m) /\
  trapezoid_tick_cycle_counter (st m1) = trapezoid_tick_cycle_counter (st m) /\
  cycles_per_step_event (st m1) = cycles_per_step_event (st m) /\
  sys m1 = sys m /\ hw m1 = hw m.
Proof.
  intros Hf Hs Hpop Hc.
  destruct (current_block m) as [i' |] eqn:Hcb.
  - rewrite (isr_pop_block_running cfg planner m i' Hcb) in Hpop.
    injection Hpop as <-. repeat split; reflexivity.
  - destruct (plan_get_current_block planner (plan m)) as [j |] eqn:Hg.
    + destruct (isr_pop_block_some cfg planner m j Hf Hcb Hg)
        as (m2 & E & _ & _ & S & _ & _ & _ & _ & _ & _ & _ & _ & K).
      rewrite E in Hpop. injection Hpop as <-.
      destruct K as (K1 & K2 & K3 & K4); [rewrite Hs; discriminate |].
      repeat split; assumption.
    + destruct (isr_pop_block_none cfg planner m Hcb Hg)
        as (m2 & E & C1 & _).
      rewrite E in Hpop. injection Hpop as <-. congruence.
Qed.

(** While the hold still decelerates (no tick, or a tick with the rate
    above [rate_delta]) the step timer stays as it is and no flag is
    raised. *)
Lemma isr_feed_hold_running (b : block_t) (m m' : machine P) :
  floor_ok cfg ->
  isr_feed_hold cfg b m = Some m' ->
  tick_fires cfg m = false \/ rate_delta b < trapezoid_adjusted_rate (st m) ->
  timer1_enabled (hw m') = timer1_enabled (hw m) /\
  execute (sys m') = execute (sys m).
Proof.
  intros Hf. unfold isr_feed_hold.
  rewrite iterate_trapezoid_cycle_counter_eq.
  destruct (tick_fires cfg m).
  - cbn [upd_st set_st st set_trapezoid_tick_cycle_counter
         trapezoid_adjusted_rate].
    destruct (Z.leb_spec (trapezoid_adjusted_rate (st m)) (rate_delta b))
      as [Hle | Hgt]; cbv zeta.
    + intros _ [Hno | Hgt]; [discriminate | lia].
    + rewrite set_step_events_per_minute_eq by exact Hf.
      intros [= <-] _. split; reflexivity.
  - intros [= <-] _. split; reflexivity.
Qed.

(** C2.  In the Hold state, on a firing that has a block which this step
    event does not finish ([m1] is the machine at line 227): the tick
    counter is not re-initialised, neither by the pop, if any (which leaves
    the rate alone as well), nor at a boundary; it is only advanced by
    [iterate_trapezoid_cycle_counter], which decides whether the firing is
    a tick.  A firing tick takes exactly [rate_delta] off the rate while
    the rate is above [rate_delta], whatever [accelerate_until] and
    [decelerate_after] are, and then, as on a firing without a tick, the
    step timer stays enabled or not as it was and [sys.execute] is not
    touched.  A firing tick with the rate at or below [rate_delta] stops the
    step timer and raises [EXEC_CYCLE_STOP] in [sys.execute], keeping the
    rate, [current_block] and the accumulators the Bresenham step has just
    computed. *)
Theorem feed_hold_deceleration (m m1 : machine P) (i : nat) :
  floor_ok cfg ->
  busy m = false ->
  isr_pop_block cfg planner (isr_pulse cfg m) = Some m1 ->
  current_block m1 = Some i ->
  state (sys m) = STATE_HOLD ->
  step_event m1 < step_event_count (block_at planner i m1) ->
  u32_ok (trapezoid_adjusted_rate (st m)) ->
  0 <= rate_delta (block_at planner i m1) ->
  exists m',
    timer1_compare_interrupt cfg planner m = Some m' /\
    trapezoid_adjusted_rate (st m1) = trapezoid_adjusted_rate (st m) /\
    trapezoid_tick_cycle_counter (st m1) = trapezoid_tick_cycle_counter (st m) /\
    trapezoid_tick_cycle_counter (st m') = tick_advanced cfg m /\
    current_block m' = Some i /\
    (forall a,
       counter a (st m')
       = counter a (st (isr_bresenham cfg (block_at planner i m1) m1))) /\
    (tick_fires cfg m = true ->
     rate_delta (block_at planner i m1) < trapezoid_adjusted_rate (st m) ->
     trapezoid_adjusted_rate (st m')
     = trapezoid_adjusted_rate (st m) - rate_delta (block_at planner i m1) /\
     timer1_enabled (hw m') = timer1_enabled (hw m) /\
     execute (sys m') = execute (sys m)) /\
    (tick_fires cfg m = true ->
     trapezoid_adjusted_rate (st m) <= rate_delta (block_at planner i m1) ->
     trapezoid_adjusted_rate (st m') = trapezoid_adjusted_rate (st m) /\
     timer1_enabled (hw m') = false /\
     execute (sys m') = bit_true (execute (sys m)) (EXEC_CYCLE_STOP cfg)) /\
    (tick_fires cfg m = false ->
     trapezoid_adjusted_rate (st m') = trapezoid_adjusted_rate (st m) /\
     timer1_enabled (hw m') = timer1_enabled (hw m) /\
     execute (sys m') = execute (sys m)).
Proof.
  intros Hf Hb Hpop Hc Hs Hlt Hr Hd.
  destruct (isr_pop_block_in_hold (isr_pulse cfg m) m1 i Hf Hs Hpop Hc)
    as (P1 & P2 & P3 & P4 & P5).
  change (st (isr_pulse cfg m)) with (st m) in P1, P2, P3.
  change (sys (isr_pulse cfg m)) with (sys m) in P4.
  assert (P6 : timer1_enabled (hw m1) = timer1_enabled (hw m))
    by (rewrite P5; reflexivity).
  rewrite (timer1_compare_interrupt_popped cfg planner m m1 i Hb Hpop Hc).
  rewrite isr_step_in_block by exact Hlt.
  rewrite P4, Hs. cbn [state_eqb].
  set (b := block_at planner i m1) in *.
  pose proof (isr_bresenham_frame cfg b m1) as F.
  pose proof (tick_fires_frame cfg _ _ F) as Tf.
  pose proof (tick_advanced_frame cfg _ _ F) as Ta.
  destruct F as (B1 & _ & _ & B4 & _ & _ & _ & B8 & _ & _ & _ & B12 & _).
  destruct (isr_feed_hold_frame cfg b (isr_bresenham cfg b m1) Hf)
    as (m3 & E & R).
  destruct (isr_feed_hold_value cfg b _ _ Hf E) as (V1 & V2 & V3 & V4).
  pose proof (isr_feed_hold_running b _ _ Hf E) as V5.
  destruct R as (R1 & _ & _ & _ & _ & _ & _ & R8 & _).
  rewrite E. cbn [bind].
  destruct (isr_finish_frame m3) as (F1 & F2 & _ & F4 & F5 & _).
  assert (Tf' : tick_fires cfg m1 = tick_fires cfg m)
    by (unfold tick_fires; rewrite P2, P3; reflexivity).
  assert (Ta' : tick_advanced cfg m1 = tick_advanced cfg m)
    by (unfold tick_advanced; rewrite P2, P3; reflexivity).
  rewrite Tf, Tf', B12, P1 in V2. rewrite Tf, Tf', B12, P1, B8, P4 in V3.
  rewrite Tf, Tf' in V4. rewrite Ta, Ta' in V1.
  rewrite Tf, Tf', B12, P1, B4, P6, B8, P4 in V5.
  exists (isr_finish m3). rewrite F1, F2, F4, F5.
  split; [reflexivity |].
  split; [exact P1 |]. split; [exact P2 |]. split; [exact V1 |].
  split; [rewrite R1, B1; exact Hc |]. split; [exact R8 |].
  split; [| split].
  - intros Hfire Hgt. split; [| exact (V5 (or_intror Hgt))].
    rewrite V2, Hfire. cbn [andb].
    destruct (Z.ltb_spec (rate_delta b) (trapezoid_adjusted_rate (st m)));
      [| lia].
    apply u32_exact. unfold u32_ok in *. lia.
  - intros Hfire Hle. split; [| exact (V3 Hfire Hle)].
    rewrite V2, Hfire. cbn [andb].
    destruct (Z.ltb_spec (rate_delta b) (trapezoid_adjusted_rate (st m)));
      [lia | reflexivity].
  - intros Hno. split; [| exact (V5 (or_introl Hno))].
    rewrite V2, Hno. reflexivity.
Qed.

End FeedHold.

Lemma feed_hold_deceleration_witness :
  floor_ok lm4f_config /\ busy holding = false /\
  isr_pop_block lm4f_config ring_planner (isr_pulse lm4f_config holding)
  = Some (isr_pulse lm4f_config holding) /\
  current_block (isr_pulse lm4f_config holding) = Some 0%nat /\
  state (sys holding) = STATE_HOLD /\
  step_event (isr_pulse lm4f_config holding)
  < step_event_count
      (block_at ring_planner 0 (isr_pulse lm4f_config holding)) /\
  u32_ok (trapezoid_adjusted_rate (st holding)) /\
  0 <= rate_delta (block_at ring_planner 0 (isr_pulse lm4f_config holding)) /\
  exists m',
    timer1_compare_interrupt lm4f_config ring_planner holding = Some m' /\
    trapezoid_tick_cycle_counter (st m') = tick_advanced lm4f_config holding /\
    trapezoid_adjusted_rate (st m') = 500 /\
    timer1_enabled (hw m') = false /\
    execute (sys m') = 4.
Proof.
  assert (Hf : floor_ok lm4f_config) by reflexivity.
  assert (Hlt : step_event (isr_pulse lm4f_config holding)
                < step_event_count
                    (block_at ring_planner 0 (isr_pulse lm4f_config holding)))
    by (vm_compute; reflexivity).
  assert (Hr : u32_ok (trapezoid_adjusted_rate (st holding)))
    by (vm_compute; split; [discriminate | reflexivity]).
  assert (Hd : 0 <= rate_delta
                      (block_at ring_planner 0
                         (isr_pulse lm4f_config holding)))
    by (vm_compute; discriminate).
  repeat (split; [first [exact Hf | exact Hlt | exact Hr | exact Hd
                        | reflexivity] |]).
  destruct (feed_hold_deceleration lm4f_config ring_planner holding
              (isr_pulse lm4f_config holding) 0%nat
              Hf eq_refl eq_refl eq_refl eq_refl Hlt Hr Hd)
    as (m' & E & _ & _ & V1 & _ & _ & _ & V3 & _).
  destruct V3 as (W1 & W2 & W3);
    [vm_compute; reflexivity | vm_compute; discriminate |].
  exists m'. repeat split; assumption.
Defined.


(* ================================================================== *)
(** * The acceleration cap (section 8, property 3) *)

Section AccelerationCap.
Context (cfg : config_h) {P : Type} (planner : planner_h P).

Lemma half_step_bound (r d : Z) :
  0 <= d -> 0 <= r <= d + d / 2 -> 0 <= r - r / 2 <= d.
Proof. intros Hd Hr. Z.to_euclidean_division_equations. lia. Qed.

(** One acceleration tick of a block in progress changes the rate by at
    most [rate_delta]: always during a feed hold; during acceleration when
    the rate does not already exceed [nominal_rate] and the sum fits 32
    bits; in the deceleration tail when the rate is not more than
    [rate_delta] below [final_rate] and [min_safe_rate] is the value line
    215 gives it.  A half
    step, taken when the rate is at most [min_safe_rate], leaves the greater
    of half the rate (rounded down) and [final_rate], and what it takes off
    is at most [rate_delta]. *)
Lemma acceleration_tick_bound (m : machine P) (i : nat) :
  floor_ok cfg ->
  busy m = false ->
  current_block m = Some i ->
  acceleration_tick cfg (block_at planner i m) m = true ->
  u32_ok (trapezoid_adjusted_rate (st m)) ->
  0 <= rate_delta (block_at planner i m) ->
  (state (sys m) <> STATE_HOLD ->
   step_event m < accelerate_until (block_at planner i m) ->
   trapezoid_adjusted_rate (st m) <= nominal_rate (block_at planner i m) /\
   trapezoid_adjusted_rate (st m) + rate_delta (block_at planner i m)
   < 2 ^ 32) ->
  (state (sys m) <> STATE_HOLD ->
   accelerate_until (block_at planner i m) <= step_event m ->
   final_rate (block_at planner i m)
   <= trapezoid_adjusted_rate (st m) + rate_delta (block_at planner i m) /\
   min_safe_rate (st m)
   = rate_delta (block_at planner i m)
     + rate_delta (block_at planner i m) / 2) ->
  exists m',
    timer1_compare_interrupt cfg planner m = Some m' /\
    Z.abs (trapezoid_adjusted_rate (st m') - trapezoid_adjusted_rate (st m))
    <= rate_delta (block_at planner i m) /\
    (state (sys m) <> STATE_HOLD ->
     accelerate_until (block_at planner i m) <= step_event m ->
     trapezoid_adjusted_rate (st m) <= min_safe_rate (st m) ->
     trapezoid_adjusted_rate (st m')
     = Z.max (trapezoid_adjusted_rate (st m) / 2)
             (final_rate (block_at planner i m)) /\
     trapezoid_adjusted_rate (st m) - trapezoid_adjusted_rate (st m) / 2
     <= rate_delta (block_at planner i m)).
Proof.
  intros Hf Hb Hc Htick Hr Hd Hacc Hdec.
  unfold acceleration_tick in Htick.
  apply andb_prop in Htick. destruct Htick as [Htick Hfire].
  apply andb_prop in Htick. destruct Htick as [Hlt Hwhere].
  apply Z.ltb_lt in Hlt.
  destruct (firing_in_block cfg planner m i Hf Hb Hc Hlt) as (m3 & E & R & _).
  destruct (traced_state cfg (block_at planner i m) m)
    as (Tr & Tt & Tc & Tm & Te & Tf & Ta & _).
  set (b := block_at planner i m) in *.
  exists (isr_finish m3). split; [exact R |].
  destruct (isr_finish_frame m3) as (-> & _).
  unfold u32_ok in Hr.
  destruct (state_eqb_spec (state (sys m)) STATE_HOLD) as [Hs | Hs].
  - (* feed hold *)
    destruct (isr_feed_hold_value cfg b _ _ Hf E) as (_ & V2 & _).
    rewrite Tf, Hfire, Tr in V2. cbn [andb] in V2.
    split; [| intros Hn; contradiction].
    rewrite V2.
    destruct (Z.ltb_spec (rate_delta b) (trapezoid_adjusted_rate (st m))).
    + rewrite u32_exact by (unfold u32_ok; lia). lia.
    + lia.
  - cbn [orb] in Hwhere.
    destruct (Z.ltb_spec (step_event m) (accelerate_until b)) as [Ha | Ha].
    + (* acceleration *)
      destruct (Hacc Hs Ha) as [Hn Ho].
      destruct (isr_trapezoid_accelerating cfg b _ _ Hf
                  ltac:(rewrite Te; exact Ha) E) as (_ & V).
      rewrite Tf, Hfire, Tr in V.
      rewrite u32_exact in V by (unfold u32_ok; lia).
      split; [rewrite V; lia | intros _ Hge; lia].
    + (* deceleration tail *)
      cbn [orb] in Hwhere. apply Z.ltb_lt in Hwhere.
      destruct (Hdec Hs Ha) as [Hfin Hmin].
      assert (Hh : 0 <= rate_delta b / 2) by (apply Z.div_pos; lia).
      destruct (isr_trapezoid_decelerating cfg b _ _ Hf
                  ltac:(rewrite Te; exact Ha)
                  ltac:(rewrite Te; exact Hwhere) E) as (_ & V).
      rewrite Tf, Hfire, Tr, Tm, shiftr_1_half in V.
      destruct (Z.ltb_spec (min_safe_rate (st m))
                  (trapezoid_adjusted_rate (st m))) as [Hfull | Hhalf].
      * rewrite u32_exact in V by (unfold u32_ok; lia).
        split; [rewrite V; lia | intros _ _ Hle; lia].
      * pose proof (half_step_bound (trapezoid_adjusted_rate (st m))
                      (rate_delta b) Hd ltac:(lia)) as Hb2.
        split; [rewrite V; lia |].
        intros _ _ _. split; [exact V | lia].
Qed.

End AccelerationCap.

(* ================================================================== *)
(** * Cycle start and resume (section 4.G) *)

Section RuntimeControl.
Context (cfg : config_h) {P : Type} (planner : planner_h P).

(** C5, as the code has it.  [st_cycle_start] moves the machine from
    Queued to Cycle and starts the step timer; in every other state, Idle
    included, it changes nothing.  It does not look at the ring. *)
Theorem cycle_start_from_queued (m : machine P) :
  (state (sys m) = STATE_QUEUED ->
   state (sys (st_cycle_start cfg m)) = STATE_CYCLE /\
   timer1_enabled (hw (st_cycle_start cfg m)) = true) /\
  (state (sys m) <> STATE_QUEUED -> st_cycle_start cfg m = m).
Proof.
  unfold st_cycle_start. split.
  - intros Hs. rewrite Hs. cbn [state_eqb]. unfold st_wake_up. cbv zeta.
    destruct (bit_istrue _ _); split; reflexivity.
  - intros Hs. rewrite (state_eqb_neq _ _ Hs). reflexivity.
Qed.

(** C6.  With a block current, of which not more step events are counted
    than it has, [st_cycle_reinitialize] calls the planner with the block's
    [step_event_count] minus [step_events_completed], sets the rate to zero
    (and the timer period to that of the floor rate), the tick counter to
    [CYCLES_PER_ACCELERATION_TICK/2] and [step_events_completed] to zero,
    keeps the block current and sets the state to Queued; with no block
    current it only sets the state to Idle. *)
Theorem resume_after_feed_hold (m : machine P) :
  floor_ok cfg ->
  (forall i,
     current_block m = Some i ->
     0 <= step_events_completed (st m)
       <= step_event_count (block_at planner i m) ->
     u32_ok (step_event_count (block_at planner i m)) ->
     exists m',
       st_cycle_reinitialize cfg planner m = Some m' /\
       plan m'
       = plan_cycle_reinitialize planner
           (step_event_count (block_at planner i m)
            - step_events_completed (st m)) (plan m) /\
       trapezoid_adjusted_rate (st m') = 0 /\
       cycles_per_step_event (st m') = step_period cfg 0 /\
       trapezoid_tick_cycle_counter (st m')
       = Z.quot (CYCLES_PER_ACCELERATION_TICK cfg) 2 /\
       step_events_completed (st m') = 0 /\
       current_block m' = Some i /\
       state (sys m') = STATE_QUEUED) /\
  (current_block m = None ->
   exists m',
     st_cycle_reinitialize cfg planner m = Some m' /\
     state (sys m') = STATE_IDLE /\ st m' = st m /\ plan m' = plan m).
Proof.
  intros Hf. unfold st_cycle_reinitialize. split.
  - intros i Hc Hle Hu. rewrite Hc. cbv zeta.
    rewrite set_step_events_per_minute_eq by exact Hf. cbn [bind].
    rewrite u32_exact by (unfold u32_ok in *; lia).
    eexists. split; [reflexivity |].
    repeat split; try reflexivity. exact Hc.
  - intros Hc. rewrite Hc. eexists. split; [reflexivity |].
    repeat split; reflexivity.
Qed.

(** C10.  For every argument [set_step_events_per_minute] divides [F_CPU]
    by the greater of the argument and [MINIMUM_STEPS_PER_MINUTE]: the
    divisor is not zero, the call returns, and the period it installs in
    the stepper and in the step timer is at most
    [(F_CPU / MINIMUM_STEPS_PER_MINUTE) * 60].  [st_cycle_reinitialize],
    which passes the rate 0, returns as well, with the period of the floor
    rate when a block is current. *)
Theorem step_rate_floor (steps_per_minute : Z) (m : machine P) :
  floor_ok cfg ->
  0 <= F_CPU cfg ->
  let divisor := Z.max steps_per_minute (MINIMUM_STEPS_PER_MINUTE cfg) in
  MINIMUM_STEPS_PER_MINUTE cfg <= divisor /\
  divisor <> 0 /\
  udiv (F_CPU cfg) divisor = Some (Z.quot (F_CPU cfg) divisor) /\
  (exists m',
     set_step_events_per_minute cfg steps_per_minute m = Some m' /\
     cycles_per_step_event (st m') = u32 (Z.quot (F_CPU cfg) divisor * 60) /\
     timer1_load (hw m') = cycles_per_step_event (st m') /\
     0 <= cycles_per_step_event (st m')
       <= Z.quot (F_CPU cfg) (MINIMUM_STEPS_PER_MINUTE cfg) * 60) /\
  (exists m'',
     st_cycle_reinitialize cfg planner m = Some m'' /\
     (current_block m <> None ->
      cycles_per_step_event (st m'')
      = u32 (Z.quot (F_CPU cfg) (MINIMUM_STEPS_PER_MINUTE cfg) * 60))).
Proof.
  intros Hf HF divisor. unfold floor_ok in Hf.
  assert (Hd : MINIMUM_STEPS_PER_MINUTE cfg <= divisor)
    by (subst divisor; lia).
  assert (Hq : 0 <= Z.quot (F_CPU cfg) divisor)
    by (apply Z.quot_pos; lia).
  assert (Hm : Z.quot (F_CPU cfg) divisor
               <= Z.quot (F_CPU cfg) (MINIMUM_STEPS_PER_MINUTE cfg))
    by (apply Z.quot_le_compat_l; lia).
  split; [exact Hd |]. split; [lia |]. split.
  { unfold udiv. destruct (Z.eqb_spec divisor 0); [lia | reflexivity]. }
  split.
  - rewrite set_step_events_per_minute_eq by exact Hf.
    eexists. split; [reflexivity |].
    cbn [upd_st set_st st set_cycles_per_step_event cycles_per_step_event
         upd_hw set_hw hw TimerLoadSet timer1_load].
    unfold step_period. fold divisor.
    repeat split; try reflexivity.
    + apply u32_range.
    + pose proof (u32_le (Z.quot (F_CPU cfg) divisor * 60)). lia.
  - unfold st_cycle_reinitialize.
    destruct (current_block m) as [i |].
    + cbv zeta. rewrite set_step_events_per_minute_eq by exact Hf.
      cbn [bind]. eexists. split; [reflexivity |]. intros _.
      cbn [upd_sys set_sys upd_st set_st st set_step_events_completed
           set_trapezoid_tick_cycle_counter set_cycles_per_step_event
           cycles_per_step_event set_trapezoid_adjusted_rate
           trapezoid_adjusted_rate].
      unfold step_period. rewrite Z.max_r by lia. reflexivity.
    + eexists. split; [reflexivity |]. intros H. contradiction.
Qed.

End RuntimeControl.

(** C5 as the specification words it fails: a cycle start in the Idle
    state, with a block in the ring, leaves the machine Idle. *)
Lemma cycle_start_ignored_when_idle :
  ~ cycle_start_from_idle_or_queued lm4f_config ring_planner idle_with_work.
Proof.
  intros H.
  assert (K : state (sys (st_cycle_start lm4f_config idle_with_work))
              = STATE_CYCLE).
  { apply H; [left; reflexivity | vm_compute; discriminate]. }
  vm_compute in K. discriminate.
Qed.

Lemma cycle_start_from_queued_witness :
  state (sys queued_with_work) = STATE_QUEUED /\
  state (sys (st_cycle_start lm4f_config queued_with_work)) = STATE_CYCLE /\
  timer1_enabled (hw (st_cycle_start lm4f_config queued_with_work)) = true.
Proof.
  split; [reflexivity |].
  apply (cycle_start_from_queued lm4f_config queued_with_work). reflexivity.
Defined.

Lemma resume_after_feed_hold_witness :
  floor_ok lm4f_config /\
  exists m',
    st_cycle_reinitialize lm4f_config ring_planner held = Some m' /\
    plan m' = replan_tail 600 (ring_with long_move) /\
    trapezoid_adjusted_rate (st m') = 0 /\
    step_events_completed (st m') = 0 /\
    state (sys m') = STATE_QUEUED.
Proof.
  assert (Hf : floor_ok lm4f_config) by reflexivity.
  split; [exact Hf |].
  destruct (resume_after_feed_hold lm4f_config ring_planner held Hf)
    as [Hsome _].
  destruct (Hsome 0%nat eq_refl) as (m' & E & R1 & R2 & _ & _ & R5 & _ & R7).
  - vm_compute. split; discriminate.
  - vm_compute. split; [discriminate | reflexivity].
  - exists m'. repeat split; assumption.
Defined.

Lemma step_rate_floor_witness :
  floor_ok lm4f_config /\ 0 <= F_CPU lm4f_config /\
  exists m',
    set_step_events_per_minute lm4f_config 0 held = Some m' /\
    cycles_per_step_event (st m') = 6000000.
Proof.
  assert (Hf : floor_ok lm4f_config) by reflexivity.
  assert (HF : 0 <= F_CPU lm4f_config) by (vm_compute; discriminate).
  split; [exact Hf |]. split; [exact HF |].
  destruct (step_rate_floor lm4f_config ring_planner 0 held Hf HF)
    as (_ & _ & _ & (m' & E & C & _) & _).
  exists m'. split; [exact E | exact C].
Defined.

(* ================================================================== *)
(** * Status responses (report.c) *)

Lemma append_assoc (a b c : string) :
  ((a ++ b) ++ c = a ++ (b ++ c))%string.
Proof.
  induction a as [| ch a IH]; simpl; [reflexivity |].
  rewrite IH. reflexivity.
Qed.

(** With distinct labels the case of every label is the one that runs. *)
Lemma switch_hit (cases : list (Z * string)) (label : Z) (text : string) :
  NoDup (map fst cases) -> In (label, text) cases ->
  switch label cases = Some text.
Proof.
  induction cases as [| [l t] rest IH]; simpl; intros Hnd Hin.
  - contradiction.
  - inversion Hnd as [| ? ? Hnot Hrest]; subst.
    destruct Hin as [Heq | Hin].
    + injection Heq as -> ->. rewrite Z.eqb_refl. reflexivity.
    + destruct (Z.eqb_spec label l) as [-> | Hne].
      * exfalso. apply Hnot.
        change l with (fst (l, text)). apply in_map. exact Hin.
      * apply IH; assumption.
Qed.

(** C9.  [report_status_message] sends exactly [ok\r\n] for the code 0, and
    for a non-zero code that labels a case of its switch exactly
    [error: ], the text of that case and [\r\n]; in particular
    [Busy or queued] for [STATUS_IDLE_ERROR] and [Alarm lock] for
    [STATUS_ALARM_LOCK]. *)
Theorem status_responses (rh : report_h) :
  labels_distinct rh ->
  (forall uart,
     report_status_message rh 0 uart = (uart ++ "ok" ++ crlf)%string) /\
  (forall status_code text uart,
     status_code <> 0 ->
     In (status_code, text) (status_cases rh) ->
     report_status_message rh status_code uart
     = (uart ++ "error: " ++ text ++ crlf)%string) /\
  (forall uart,
     STATUS_IDLE_ERROR rh <> 0 ->
     report_status_message rh (STATUS_IDLE_ERROR rh) uart
     = (uart ++ "error: Busy or queued" ++ crlf)%string) /\
  (forall uart,
     STATUS_ALARM_LOCK rh <> 0 ->
     report_status_message rh (STATUS_ALARM_LOCK rh) uart
     = (uart ++ "error: Alarm lock" ++ crlf)%string).
Proof.
  intros Hnd.
  assert (Hany : forall status_code text uart,
             status_code <> 0 ->
             In (status_code, text) (status_cases rh) ->
             report_status_message rh status_code uart
             = (uart ++ "error: " ++ text ++ crlf)%string).
  { intros status_code text uart Hnz Hin. unfold report_status_message.
    destruct (Z.eqb_spec status_code 0) as [-> | _]; [contradiction |].
    rewrite (switch_hit _ _ _ Hnd Hin). unfold UARTprintf.
    rewrite !append_assoc. reflexivity. }
  split; [| split; [exact Hany | split]].
  - intros uart. reflexivity.
  - intros uart Hnz.
    apply (Hany _ "Busy or queued"%string uart Hnz).
    unfold status_cases. simpl. tauto.
  - intros uart Hnz.
    apply (Hany _ "Alarm lock"%string uart Hnz).
    unfold status_cases. simpl. tauto.
Qed.

Lemma status_responses_witness :
  labels_distinct grbl_report /\
  report_status_message grbl_report 0 EmptyString = ("ok" ++ crlf)%string /\
  report_status_message grbl_report 11 EmptyString
  = ("error: Busy or queued" ++ crlf)%string /\
  report_status_message grbl_report 12 EmptyString
  = ("error: Alarm lock" ++ crlf)%string.
Proof.
  assert (Hnd : labels_distinct grbl_report).
  { unfold labels_distinct. simpl.
    repeat (constructor;
            [simpl; intros H;
             repeat (destruct H as [H | H]; [discriminate |]); exact H |]).
    constructor. }
  split; [exact Hnd |].
  destruct (status_responses grbl_report Hnd) as (H0 & _ & H11 & H12).
  split; [exact (H0 EmptyString) |].
  split; [apply (H11 EmptyString) | apply (H12 EmptyString)]; discriminate.
Defined.

(* ================================================================== *)
(** * The interrupt returns, and keeps the rate a 32-bit value *)

Section Totality.
Context (cfg : config_h) {P : Type} (planner : planner_h P).

Lemma isr_pop_block_total (m : machine P) :
  floor_ok cfg -> exists m1, isr_pop_block cfg planner m = Some m1.
Proof.
  intros Hf.
  destruct (current_block m) as [i |] eqn:Hc.
  - exists m. apply (isr_pop_block_running cfg planner m i Hc).
  - destruct (plan_get_current_block planner (plan m)) as [j |] eqn:Hg.
    + destruct (isr_pop_block_some cfg planner m j Hf Hc Hg) as (m1 & E & _).
      exists m1. exact E.
    + destruct (isr_pop_block_none cfg planner m Hc Hg) as (m1 & E & _).
      exists m1. exact E.
Qed.

(** With a positive floor every firing of the step interrupt returns. *)
Lemma timer1_compare_interrupt_total (m : machine P) :
  floor_ok cfg -> exists m', timer1_compare_interrupt cfg planner m = Some m'.
Proof.
  intros Hf. unfold timer1_compare_interrupt.
  destruct (busy m); [exists m; reflexivity |]. cbv zeta.
  destruct (isr_pop_block_total (isr_pulse cfg m) Hf) as (m1 & E).
  rewrite E. cbn [bind].
  destruct (current_block m1) as [i |].
  - destruct (isr_step_total cfg planner i m1 Hf) as (m3 & E3 & _).
    rewrite E3. eexists. reflexivity.
  - eexists. reflexivity.
Qed.

(** On a block in progress whose rates are 32-bit values, a firing leaves a
    32-bit rate. *)
Lemma rate_stays_32_bit (m : machine P) (i : nat) :
  floor_ok cfg ->
  busy m = false ->
  current_block m = Some i ->
  block_ok (block_at planner i m) ->
  u32_ok (trapezoid_adjusted_rate (st m)) ->
  exists m',
    timer1_compare_interrupt cfg planner m = Some m' /\
    u32_ok (trapezoid_adjusted_rate (st m')).
Proof.
  intros Hf Hb Hc Hok Hr.
  destruct Hok as (_ & _ & _ & _ & _ & _ & Hfin & _ & _ & _ & Hnom).
  set (b := block_at planner i m) in *.
  destruct (Z.lt_ge_cases (step_event m) (step_event_count b)) as [Hlt | Hge].
  - destruct (firing_in_block cfg planner m i Hf Hb Hc Hlt)
      as (m3 & E & R & _).
    destruct (traced_state cfg b m) as (Tr & Tt & Tc & Tm & Te & Tf & Ta & _).
    fold b in E.
    exists (isr_finish m3). split; [exact R |].
    destruct (isr_finish_frame m3) as (-> & _).
    destruct (state_eqb (state (sys m)) STATE_HOLD).
    + destruct (isr_feed_hold_value cfg b _ _ Hf E) as (_ & V & _).
      rewrite V, Tr. clear V.
      destruct (_ && _); [apply u32_range | exact Hr].
    + destruct (Z.lt_ge_cases (step_event m) (accelerate_until b))
        as [Ha | Ha].
      * destruct (isr_trapezoid_accelerating cfg b _ _ Hf
                    ltac:(rewrite Te; exact Ha) E) as (_ & V).
        rewrite V, Tr. clear V. destruct (tick_fires cfg _); [| exact Hr].
        pose proof (u32_range (trapezoid_adjusted_rate (st m)
                               + rate_delta b)) as Hu.
        unfold u32_ok in *. lia.
      * destruct (Z.lt_ge_cases (step_event m) (decelerate_after b))
          as [Hd | Hd].
        -- destruct (isr_trapezoid_cruising cfg b _ _ Hf
                       ltac:(rewrite Te; lia) E) as (_ & V).
           rewrite V. exact Hnom.
        -- destruct (Z.eq_dec (step_event m) (decelerate_after b))
             as [He | He].
           ++ destruct (isr_trapezoid_decel_start cfg b _ _
                          ltac:(rewrite Te; exact Ha)
                          ltac:(rewrite Te; exact He) E) as (V & _).
              rewrite V, Tr. exact Hr.
           ++ destruct (isr_trapezoid_decelerating cfg b _ _ Hf
                          ltac:(rewrite Te; exact Ha)
                          ltac:(rewrite Te; lia) E) as (_ & V).
              rewrite V, Tr. clear V.
              destruct (tick_fires cfg _); [| exact Hr].
              pose proof (u32_range (trapezoid_adjusted_rate (st m)
                                     - rate_delta b)) as Hu.
              assert (Hh : 0 <= Z.shiftr (trapezoid_adjusted_rate (st m)) 1
                           <= trapezoid_adjusted_rate (st m)).
              { rewrite shiftr_1_half. unfold u32_ok in Hr.
                Z.to_euclidean_division_equations. lia. }
              destruct (_ <? _); unfold u32_ok in *; lia.
  - rewrite (timer1_compare_interrupt_running cfg planner m i Hb Hc).
    rewrite isr_step_finished by exact Hge. cbn [bind].
    destruct (isr_bresenham_frame cfg
                (block_at planner i (isr_pulse cfg m)) (isr_pulse cfg m))
      as (_ & _ & _ & B4 & _ & _ & _ & _ & _ & B10 & B11 & B12 & _).
    eexists. split; [reflexivity |].
    pose proof (released_machine cfg planner (isr_pulse cfg m) _ Hf
                  B4 B10 B11 B12) as K.
    cbv zeta in K. destruct K as (_ & _ & _ & K & _).
    rewrite K. exact Hr.
Qed.

End Totality.

(** [st_reset] leaves the stepper of the configuration above as
    [stepper_reset]; the ring hands out its blocks in order. *)
Lemma st_reset_stepper (m : machine ring_t) :
  exists m', st_reset lm4f_config m = Some m' /\ st m' = stepper_reset.
Proof. eexists. split; reflexivity. Qed.

Lemma ring_next_block (r : ring_t) :
  block_buffer_head r <> next_block_index r (block_buffer_tail r) ->
  plan_get_current_block ring_planner
    (plan_discard_current_block ring_planner r)
  = Some (next_block_index r (block_buffer_tail r)).
Proof.
  intros Hne. cbn [ring_planner plan_get_current_block
                   plan_discard_current_block].
  unfold peek_tail, discard_tail. cbn [block_buffer_head block_buffer_tail].
  destruct (Nat.eqb_spec (block_buffer_head r)
              (next_block_index r (block_buffer_tail r)));
    [contradiction | reflexivity].
Qed.

(* ================================================================== *)
(** * Further properties of the step interrupt *)

Section Keeping.
Context (cfg : config_h) {P : Type} (planner : planner_h P).

Lemma control_kept_refl (m : machine P) : control_kept cfg m m.
Proof. unfold control_kept. repeat split; try reflexivity. left. reflexivity. Qed.

Lemma control_kept_trans (m1 m2 m3 : machine P) :
  control_kept cfg m1 m2 -> control_kept cfg m2 m3 -> control_kept cfg m1 m3.
Proof.
  unfold control_kept.
  intros (A1 & A2 & A3 & A4 & A5) (B1 & B2 & B3 & B4 & B5).
  repeat split; try (etransitivity; eassumption).
  destruct A5 as [A5 | A5], B5 as [B5 | B5]; rewrite B5, A5.
  - left. reflexivity.
  - right. reflexivity.
  - right. reflexivity.
  - right. unfold bit_true. rewrite <- Z.lor_assoc, Z.lor_diag. reflexivity.
Qed.

Ltac kept_same :=
  unfold control_kept; repeat split; try reflexivity; left; reflexivity.

(** A state that differs from [m] in neither rate, period nor timer load
    has the period of its rate when [m] has. *)
Lemma period_ok_same (m m' : machine P) :
  trapezoid_adjusted_rate (st m') = trapezoid_adjusted_rate (st m) ->
  cycles_per_step_event (st m') = cycles_per_step_event (st m) ->
  timer1_load (hw m') = timer1_load (hw m) ->
  period_ok cfg m -> period_ok cfg m'.
Proof.
  unfold period_ok. intros -> -> -> H. exact H.
Qed.

(** What [set_step_events_per_minute], called with the current rate,
    leaves behind. *)
Lemma period_ok_installed (m : machine P) :
  period_ok cfg
    (upd_st (set_cycles_per_step_event
               (step_period cfg (trapezoid_adjusted_rate (st m))))
       (upd_hw (TimerLoadSet TIMER1
                  (step_period cfg (trapezoid_adjusted_rate (st m)))) m)).
Proof. unfold period_ok. split; reflexivity. Qed.

Lemma control_kept_installed (c : Z) (m : machine P) :
  control_kept cfg m
    (upd_st (set_cycles_per_step_event c)
       (upd_hw (TimerLoadSet TIMER1 c) m)).
Proof. kept_same. Qed.

Lemma isr_trapezoid_keeps (b : block_t) (m : machine P) :
  floor_ok cfg ->
  exists m',
    isr_trapezoid cfg b m = Some m' /\ control_kept cfg m m' /\
    (period_ok cfg m -> period_ok cfg m').
Proof.
  intros Hf. unfold isr_trapezoid.
  rewrite iterate_trapezoid_cycle_counter_eq.
  destruct (step_events_completed (st m) <? accelerate_until b).
  - destruct (tick_fires cfg m); cbv zeta.
    + rewrite set_step_events_per_minute_eq by exact Hf.
      eexists. split; [reflexivity |].
      destruct (nominal_rate b <=? _);
        (split; [kept_same | intros _; apply period_ok_installed]).
    + eexists. split; [reflexivity |].
      split; [kept_same | apply period_ok_same; reflexivity].
  - destruct (decelerate_after b <=? step_events_completed (st m)).
    + destruct (step_events_completed (st m) =? decelerate_after b).
      * destruct (trapezoid_adjusted_rate (st m) =? nominal_rate b);
          eexists; (split; [reflexivity |]);
          (split; [kept_same | apply period_ok_same; reflexivity]).
      * destruct (tick_fires cfg m); cbv zeta.
        -- rewrite set_step_events_per_minute_eq by exact Hf.
           eexists. split; [reflexivity |].
           destruct (min_safe_rate _ <? _);
             destruct (_ <? final_rate b);
             (split; [kept_same | intros _; apply period_ok_installed]).
        -- eexists. split; [reflexivity |].
           split; [kept_same | apply period_ok_same; reflexivity].
    + destruct (negb _).
      * cbv zeta. rewrite set_step_events_per_minute_eq by exact Hf.
        eexists. split; [reflexivity |].
        split; [kept_same | intros _; apply period_ok_installed].
      * eexists. split; [reflexivity |].
        split; [kept_same | intros H; exact H].
Qed.

Lemma go_idle_and_flag_keeps (m : machine P) :
  let m' := upd_sys (fun y =>
              set_execute (bit_true (execute y) (EXEC_CYCLE_STOP cfg)) y)
              (st_go_idle cfg m) in
  control_kept cfg m m' /\ (period_ok cfg m -> period_ok cfg m').
Proof.
  intros m'. subst m'.
  destruct (st_go_idle_frame cfg m)
    as (H1 & _ & _ & H4 & _ & _ & H7 & _ & H9).
  unfold control_kept, period_ok.
  cbn [upd_sys set_sys st sys hw settings set_execute execute state abort
       auto_start].
  rewrite H1, H4, H7, H9.
  split; [| intros H; exact H].
  repeat split; try reflexivity. right. reflexivity.
Qed.

Lemma isr_feed_hold_keeps (b : block_t) (m : machine P) :
  floor_ok cfg ->
  exists m',
    isr_feed_hold cfg b m = Some m' /\ control_kept cfg m m' /\
    (period_ok cfg m -> period_ok cfg m').
Proof.
  intros Hf. unfold isr_feed_hold.
  rewrite iterate_trapezoid_cycle_counter_eq.
  destruct (tick_fires cfg m).
  - destruct (_ <=? rate_delta b); cbv zeta.
    + eexists. split; [reflexivity |].
      match goal with
      | |- context [st_go_idle cfg ?x] =>
        destruct (go_idle_and_flag_keeps x) as (K1 & K2)
      end.
      cbv zeta in K1, K2. split.
      * eapply control_kept_trans; [| exact K1]. kept_same.
      * intros H. apply K2. revert H. apply period_ok_same; reflexivity.
    + rewrite set_step_events_per_minute_eq by exact Hf.
      eexists. split; [reflexivity |].
      split; [kept_same | intros _; apply period_ok_installed].
  - eexists. split; [reflexivity |].
    split; [kept_same | apply period_ok_same; reflexivity].
Qed.

Lemma bresenham_axis_control (a : axis) (b : block_t) (m : machine P) :
  control_kept cfg m (bresenham_axis cfg a b m).
Proof.
  unfold bresenham_axis. cbv zeta.
  destruct (0 <? _); [| kept_same].
  destruct (bit_istrue _ _); kept_same.
Qed.

Lemma control_kept_counted (m : machine P) :
  control_kept cfg m
    (upd_st (fun s =>
       set_step_events_completed (u32 (step_events_completed s + 1)) s) m).
Proof. kept_same. Qed.

Lemma isr_bresenham_control (b : block_t) (m : machine P) :
  control_kept cfg m (isr_bresenham cfg b m).
Proof.
  unfold isr_bresenham. cbv zeta.
  eapply control_kept_trans; [| apply control_kept_counted].
  eapply control_kept_trans; [| apply bresenham_axis_control].
  eapply control_kept_trans; [| apply bresenham_axis_control].
  eapply control_kept_trans; [| apply bresenham_axis_control].
  kept_same.
Qed.

Lemma isr_bresenham_period (b : block_t) (m : machine P) :
  period_ok cfg m -> period_ok cfg (isr_bresenham cfg b m).
Proof.
  destruct (isr_bresenham_frame cfg b m)
    as (_ & _ & _ & B4 & _ & _ & _ & _ & _ & B10 & _ & B12 & _).
  apply period_ok_same; [exact B12 | exact B10 | rewrite B4; reflexivity].
Qed.

Lemma release_keeps_control (p : P) (m : machine P) :
  control_kept cfg m (set_plan p (set_current_block None m)) /\
  (period_ok cfg m -> period_ok cfg (set_plan p (set_current_block None m))).
Proof. split; [kept_same | intros H; exact H]. Qed.

Lemma isr_step_keeps (i : nat) (m : machine P) :
  floor_ok cfg ->
  exists m3,
    isr_step cfg planner i m = Some m3 /\ control_kept cfg m m3 /\
    (period_ok cfg m -> period_ok cfg m3).
Proof.
  intros Hf.
  pose proof (isr_bresenham_control (block_at planner i m) m) as Cb.
  pose proof (isr_bresenham_period (block_at planner i m) m) as Pb.
  destruct (Z.lt_ge_cases (step_event m)
              (step_event_count (block_at planner i m))) as [Hlt | Hge].
  - rewrite isr_step_in_block by exact Hlt.
    destruct (state_eqb _ _).
    + destruct (isr_feed_hold_keeps (block_at planner i m)
                  (isr_bresenham cfg (block_at planner i m) m) Hf)
        as (m3 & E & C & K).
      exists m3. split; [exact E |]. split.
      * eapply control_kept_trans; eassumption.
      * intros H. apply K, Pb, H.
    + destruct (isr_trapezoid_keeps (block_at planner i m)
                  (isr_bresenham cfg (block_at planner i m) m) Hf)
        as (m3 & E & C & K).
      exists m3. split; [exact E |]. split.
      * eapply control_kept_trans; eassumption.
      * intros H. apply K, Pb, H.
  - rewrite isr_step_finished by exact Hge.
    eexists. split; [reflexivity |].
    destruct (release_keeps_control
                (plan_discard_current_block planner (plan m))
                (isr_bresenham cfg (block_at planner i m) m)) as (C & K).
    split.
    + eapply control_kept_trans; eassumption.
    + intros H. apply K, Pb, H.
Qed.

Lemma isr_pop_block_keeps (m : machine P) :
  floor_ok cfg ->
  exists m1,
    isr_pop_block cfg planner m = Some m1 /\ control_kept cfg m m1 /\
    busy m1 = busy m /\
    (period_ok cfg m -> period_ok cfg m1).
Proof.
  intros Hf. unfold isr_pop_block.
  destruct (current_block m) as [i |].
  - exists m. split; [reflexivity |].
    split; [apply control_kept_refl | split; [reflexivity | intros H; exact H]].
  - cbv zeta. cbn [set_current_block current_block].
    destruct (plan_get_current_block planner (plan m)) as [j |].
    + change (sys (set_current_block (Some j) m)) with (sys m).
      destruct (state_eqb (state (sys m)) STATE_CYCLE).
      * rewrite set_step_events_per_minute_eq by exact Hf. cbn [bind].
        eexists. split; [reflexivity |].
        split; [kept_same | split; [reflexivity |]].
        intros _. unfold period_ok. split; reflexivity.
      * cbn [bind]. eexists. split; [reflexivity |].
        split; [kept_same | split; [reflexivity |]].
        apply period_ok_same; reflexivity.
    + eexists. split; [reflexivity |].
      match goal with
      | |- context [st_go_idle cfg ?x] =>
        destruct (go_idle_and_flag_keeps x) as (K1 & K2);
        destruct (st_go_idle_frame cfg x) as (_ & _ & _ & _ & _ & B & _)
      end.
      cbv zeta in K1, K2. split; [| split].
      * eapply control_kept_trans; [| exact K1]. kept_same.
      * cbn [upd_sys set_sys busy]. rewrite B. reflexivity.
      * intros H. apply K2. revert H. apply period_ok_same; reflexivity.
Qed.

(** X1.  Whatever the step interrupt finds, it returns, and it leaves
    [sys.state], [sys.abort], [sys.auto_start] and the settings as they
    were; of [sys.execute] it changes nothing except, possibly, raising
    [EXEC_CYCLE_STOP]; and [busy] is at its exit what it was at its entry. *)
Theorem interrupt_keeps_control (m : machine P) :
  floor_ok cfg ->
  exists m',
    timer1_compare_interrupt cfg planner m = Some m' /\
    control_kept cfg m m' /\ busy m' = busy m.
Proof.
  intros Hf. unfold timer1_compare_interrupt.
  destruct (busy m) eqn:Hb.
  - exists m. split; [reflexivity |].
    split; [apply control_kept_refl | exact Hb].
  - cbv zeta.
    destruct (isr_pop_block_keeps (isr_pulse cfg m) Hf)
      as (m1 & E & C & _ & _).
    rewrite E. cbn [bind].
    assert (C0 : control_kept cfg m m1).
    { eapply control_kept_trans; [| exact C]. kept_same. }
    destruct (current_block m1) as [i |].
    + destruct (isr_step_keeps i m1 Hf) as (m3 & E3 & C3 & _).
      rewrite E3. cbn [bind]. eexists. split; [reflexivity |].
      split; [| reflexivity].
      eapply control_kept_trans; [exact C0 |].
      eapply control_kept_trans; [exact C3 |]. kept_same.
    + cbn [bind]. eexists. split; [reflexivity |].
      split; [| reflexivity].
      eapply control_kept_trans; [exact C0 |]. kept_same.
Qed.

(** X2.  When the step timer is loaded with the period of the current
    rate ([cycles_per_step_event] is the period
    [set_step_events_per_minute] computes for [trapezoid_adjusted_rate], and
    the timer holds it), it still is after any firing of the step
    interrupt: the rate is never changed without the timer. *)
Theorem interrupt_keeps_period (m : machine P) :
  floor_ok cfg ->
  period_ok cfg m ->
  exists m',
    timer1_compare_interrupt cfg planner m = Some m' /\ period_ok cfg m'.
Proof.
  intros Hf Hp. unfold timer1_compare_interrupt.
  destruct (busy m).
  - exists m. split; [reflexivity | exact Hp].
  - cbv zeta.
    assert (Hp0 : period_ok cfg (isr_pulse cfg m))
      by (revert Hp; apply period_ok_same; reflexivity).
    destruct (isr_pop_block_keeps (isr_pulse cfg m) Hf)
      as (m1 & E & _ & _ & K).
    rewrite E. cbn [bind]. specialize (K Hp0).
    destruct (current_block m1) as [i |].
    + destruct (isr_step_keeps i m1 Hf) as (m3 & E3 & _ & K3).
      rewrite E3. cbn [bind]. eexists. split; [reflexivity |].
      specialize (K3 K). revert K3. apply period_ok_same; reflexivity.
    + cbn [bind]. eexists. split; [reflexivity |].
      revert K. apply period_ok_same; reflexivity.
Qed.

End Keeping.

Lemma interrupt_keeps_control_witness :
  floor_ok lm4f_config /\
  exists m',
    timer1_compare_interrupt lm4f_config ring_planner holding = Some m' /\
    state (sys m') = STATE_HOLD /\ execute (sys m') = 4.
Proof.
  assert (Hf : floor_ok lm4f_config) by reflexivity.
  split; [exact Hf |].
  destruct (interrupt_keeps_control lm4f_config ring_planner holding Hf)
    as (m' & E & (C1 & _) & _).
  exists m'. split; [exact E |]. split; [exact C1 |].
  vm_compute in E. injection E as <-. reflexivity.
Defined.

Lemma interrupt_keeps_period_witness :
  floor_ok lm4f_config /\ period_ok lm4f_config long_move_start /\
  exists m',
    timer1_compare_interrupt lm4f_config ring_planner long_move_start
    = Some m' /\
    period_ok lm4f_config m'.
Proof.
  assert (Hf : floor_ok lm4f_config) by reflexivity.
  assert (Hp : period_ok lm4f_config long_move_start)
    by (split; vm_compute; reflexivity).
  split; [exact Hf |]. split; [exact Hp |].
  exact (interrupt_keeps_period lm4f_config ring_planner long_move_start
           Hf Hp).
Defined.

(* ================================================================== *)
(** * The tracer over a whole block *)

Section WholeBlock.
Context (cfg : config_h) {P : Type} (planner : planner_h P).

Lemma released_fields (p : P) (m : machine P) :
  st (set_plan p (set_current_block None m)) = st m /\
  sys (set_plan p (set_current_block None m)) = sys m /\
  current_block (set_plan p (set_current_block None m)) = None /\
  plan (set_plan p (set_current_block None m)) = p.
Proof. repeat split; reflexivity. Qed.

(** One firing on the block [i] that the machine [m1] at line 227 has:
    what it does to axis [a], to the count of step events, and to the
    block. *)
Lemma firing_on_block (m m1 : machine P) (i : nat) (a : axis) :
  floor_ok cfg -> pins_ok cfg -> busy m = false ->
  isr_pop_block cfg planner (isr_pulse cfg m) = Some m1 ->
  current_block m1 = Some i ->
  let b := block_at planner i m1 in
  let c := s32 (counter a (st m1) + steps a b) in
  exists m',
    timer1_compare_interrupt cfg planner m = Some m' /\
    busy m' = false /\
    event_count (st m') = event_count (st m1) /\
    step_events_completed (st m') = step_event m1 /\
    counter a (st m')
    = (if 0 <? c then s32 (c - event_count (st m1)) else c) /\
    pos a (position (sys m'))
    = (if 0 <? c
       then if Z.testbit (direction_bits b) (DIRECTION_BIT cfg a)
            then s32 (pos a (position (sys m1)) - 1)
            else s32 (pos a (position (sys m1)) + 1)
       else pos a (position (sys m1))) /\
    (step_event m1 < step_event_count b ->
     current_block m' = Some i /\ plan m' = plan m1) /\
    (step_event_count b <= step_event m1 ->
     current_block m' = None /\
     plan m' = plan_discard_current_block planner (plan m1)).
Proof.
  intros Hf Hp Hb Hpop Hc b c.
  rewrite (timer1_compare_interrupt_popped cfg planner m m1 i Hb Hpop Hc).
  destruct (isr_bresenham_axis cfg a b m1 Hp) as (Bc & Bp & _).
  fold c in Bc, Bp.
  destruct (isr_bresenham_frame cfg b m1)
    as (B1 & B2 & _ & _ & _ & _ & _ & _ & B9 & _ & _ & _ & _ & B14).
  destruct (Z.lt_ge_cases (step_event m1) (step_event_count b)) as [Hlt | Hge].
  - rewrite isr_step_in_block by exact Hlt. fold b.
    assert (Hfr : exists m3,
               (if state_eqb (state (sys m1)) STATE_HOLD
                then isr_feed_hold cfg b (isr_bresenham cfg b m1)
                else isr_trapezoid cfg b (isr_bresenham cfg b m1)) = Some m3 /\
               rate_frame (isr_bresenham cfg b m1) m3).
    { destruct (state_eqb _ _);
        [apply isr_feed_hold_frame | apply isr_trapezoid_frame]; exact Hf. }
    destruct Hfr as (m3 & E & R). rewrite E. cbn [bind].
    destruct R as (R1 & R2 & _ & _ & _ & _ & R7 & R8 & R9 & R10 & _).
    destruct (isr_finish_frame m3) as (F1 & F2 & F3 & F4 & _ & _ & F7 & _).
    exists (isr_finish m3).
    rewrite F1, F2, F3, F4, F7, R1, R2, R7, R8, R9, R10, B1, B2, B9, B14,
      Bc, Bp.
    repeat split; try reflexivity; try assumption; intros; lia.
  - rewrite isr_step_finished by exact Hge. fold b. cbn [bind].
    destruct (released_fields (plan_discard_current_block planner (plan m1))
                (isr_bresenham cfg b m1)) as (S1 & S2 & S3 & S4).
    destruct (isr_finish_frame
                (set_plan (plan_discard_current_block planner (plan m1))
                   (set_current_block None (isr_bresenham cfg b m1))))
      as (F1 & F2 & F3 & F4 & _ & _ & F7 & _).
    eexists. split; [reflexivity |].
    rewrite F1, F2, F3, F4, F7, S1, S2, S3, S4, B9, B14, Bc, Bp.
    repeat split; try reflexivity; intros; lia.
Qed.

(** In unbounded integers: with the accumulator in its window and the
    axis taking at most one step per step event, the 32-bit step is the
    exact one and leaves the accumulator in its window. *)
Lemma trace_axis_exact (E s c p : Z) (back : bool) :
  0 <= s <= E -> E < 2 ^ 31 -> - E < c <= 0 ->
  s32_ok (p - 1) -> s32_ok (p + 1) ->
  let c1 := s32 (c + s) in
  ((if 0 <? c1 then s32 (c1 - E) else c1),
   (if 0 <? c1 then if back then s32 (p - 1) else s32 (p + 1) else p))
  = trace_axis E s back (c, p) /\
  - E < fst (trace_axis E s back (c, p)) <= 0.
Proof.
  intros Hs HE Hc Hm Hp c1. subst c1. unfold trace_axis. cbn [fst snd].
  rewrite (s32_exact (c + s)) by (unfold s32_ok; lia).
  destruct (Z.ltb_spec 0 (c + s)).
  - rewrite (s32_exact (c + s - E)) by (unfold s32_ok; lia).
    rewrite (s32_exact (p - 1)), (s32_exact (p + 1)) by assumption.
    cbn [fst]. split; [reflexivity | lia].
  - cbn [fst]. split; [reflexivity | lia].
Qed.

(** X3.  The Bresenham window.  On a firing that has a block (the machine
    [m1] at line 227), if the axis takes at most [event_count] steps in the
    block, [event_count] is below 2^31 and the accumulator of the axis lies
    in ]-event_count, 0], then no 32-bit operation on it wraps, the
    accumulator is again in ]-event_count, 0] after the firing, and it has
    gained the steps of the axis, less [event_count] if the axis
    stepped. *)
Theorem bresenham_window (m m1 : machine P) (i : nat) (a : axis) :
  floor_ok cfg -> pins_ok cfg -> busy m = false ->
  isr_pop_block cfg planner (isr_pulse cfg m) = Some m1 ->
  current_block m1 = Some i ->
  0 <= steps a (block_at planner i m1) <= event_count (st m1) ->
  event_count (st m1) < 2 ^ 31 ->
  in_window a m1 ->
  exists m',
    timer1_compare_interrupt cfg planner m = Some m' /\
    in_window a m' /\
    counter a (st m')
    = (if 0 <? counter a (st m1) + steps a (block_at planner i m1)
       then counter a (st m1) + steps a (block_at planner i m1)
            - event_count (st m1)
       else counter a (st m1) + steps a (block_at planner i m1)).
Proof.
  intros Hf Hp Hb Hpop Hc Hs HE Hw.
  destruct (firing_on_block m m1 i a Hf Hp Hb Hpop Hc)
    as (m' & E & _ & Fe & _ & Fc & _).
  exists m'. split; [exact E |].
  unfold in_window in *. rewrite Fe, Fc.
  rewrite (s32_exact (counter a (st m1) + steps a (block_at planner i m1)))
    by (unfold s32_ok; lia).
  destruct (Z.ltb_spec 0 (counter a (st m1)
                          + steps a (block_at planner i m1))).
  - rewrite s32_exact by (unfold s32_ok; lia). split; [lia | reflexivity].
  - split; [lia | reflexivity].
Qed.

End WholeBlock.

Lemma bresenham_window_witness :
  floor_ok lm4f_config /\ pins_ok lm4f_config /\ busy accelerating = false /\
  isr_pop_block lm4f_config ring_planner (isr_pulse lm4f_config accelerating)
  = Some (isr_pulse lm4f_config accelerating) /\
  current_block (isr_pulse lm4f_config accelerating) = Some 0%nat /\
  in_window Y_AXIS (isr_pulse lm4f_config accelerating) /\
  exists m',
    timer1_compare_interrupt lm4f_config ring_planner accelerating = Some m' /\
    in_window Y_AXIS m' /\ counter Y_AXIS (st m') = -900.
Proof.
  assert (Hf : floor_ok lm4f_config) by reflexivity.
  assert (Hp : pins_ok lm4f_config).
  { split; intros a; [destruct a; split; discriminate |].
    intros a'; destruct a, a'; discriminate. }
  assert (Hw : in_window Y_AXIS (isr_pulse lm4f_config accelerating))
    by (vm_compute; split; [reflexivity | discriminate]).
  assert (Hs : 0 <= steps Y_AXIS
                      (block_at ring_planner 0
                         (isr_pulse lm4f_config accelerating))
               <= event_count (st (isr_pulse lm4f_config accelerating)))
    by (vm_compute; split; discriminate).
  assert (HE : event_count (st (isr_pulse lm4f_config accelerating)) < 2 ^ 31)
    by (vm_compute; reflexivity).
  repeat (split; [first [exact Hf | exact Hp | exact Hw | reflexivity] |]).
  destruct (bresenham_window lm4f_config ring_planner accelerating
              (isr_pulse lm4f_config accelerating) 0%nat Y_AXIS
              Hf Hp eq_refl eq_refl eq_refl Hs HE Hw)
    as (m' & E & W & C).
  exists m'. split; [exact E |]. split; [exact W | exact C].
Defined.

(** ** From the pop of a block to its release *)

Lemma trace_axis_n_invariant (E s : Z) (back : bool) (n : nat) (c0 p0 : Z) :
  0 <= s <= E -> - E < c0 <= 0 ->
  - E < fst (trace_axis_n E s back n (c0, p0)) <= 0 /\
  exists k,
    0 <= k <= Z.of_nat n /\
    snd (trace_axis_n E s back n (c0, p0))
    = (if back then p0 - k else p0 + k) /\
    fst (trace_axis_n E s back n (c0, p0)) = c0 + Z.of_nat n * s - k * E.
Proof.
  intros Hs Hc. induction n as [| n IH].
  - cbn [trace_axis_n fst snd]. split; [exact Hc |].
    exists 0. destruct back; repeat split; lia.
  - destruct IH as (Hw & k & Hk & Hp & Hf).
    cbn [trace_axis_n]. unfold trace_axis.
    destruct (trace_axis_n E s back n (c0, p0)) as [c p].
    cbn [fst snd] in *.
    destruct (Z.ltb_spec 0 (c + s)); cbn [fst snd].
    + split; [lia |]. exists (k + 1).
      destruct back; repeat split; lia.
    + split; [lia |]. exists k.
      destruct back; repeat split; lia.
Qed.

(** The tracer in unbounded integers: seeded in its window, after as many
    step events as the block has, the axis has moved by its steps. *)
Lemma trace_axis_n_whole (E s : Z) (back : bool) (c0 p0 : Z) :
  0 <= s <= E -> - E < c0 <= 0 ->
  snd (trace_axis_n E s back (Z.to_nat E) (c0, p0))
  = (if back then p0 - s else p0 + s).
Proof.
  intros Hs Hc.
  destruct (trace_axis_n_invariant E s back (Z.to_nat E) c0 p0 Hs Hc)
    as (Hw & k & Hk & Hp & Hf).
  rewrite Z2Nat.id in Hf, Hk by lia.
  assert (k = s) by nia.
  subst k. exact Hp.
Qed.

Section BlockRun.
Context (cfg : config_h) {P : Type} (planner : planner_h P).
Context (pl : P) (i : nat) (a : axis) (c0 p0 : Z).

Let b := block_buffer planner pl i.
Let E := step_event_count b.
Let s := steps a b.
Let back := Z.testbit (direction_bits b) (DIRECTION_BIT cfg a).

Hypothesis Hfloor : floor_ok cfg.
Hypothesis Hpins : pins_ok cfg.
Hypothesis Hsteps : 0 <= s <= E.
Hypothesis Hsmall : E < 2 ^ 31.
Hypothesis Hseed : - E < c0 <= 0.
Hypothesis Hlow : s32_ok (p0 - E).
Hypothesis Hhigh : s32_ok (p0 + E).

Lemma tracing_pulse (n : nat) (m : machine P) :
  tracing cfg planner pl i a c0 p0 n m ->
  tracing cfg planner pl i a c0 p0 n (isr_pulse cfg m).
Proof.
  unfold tracing. intros (T1 & T2 & T3 & T4 & T5).
  repeat split; assumption.
Qed.

(** One firing of a block being traced. *)
Lemma tracing_step (n : nat) (m m1 : machine P) :
  busy m = false ->
  isr_pop_block cfg planner (isr_pulse cfg m) = Some m1 ->
  tracing cfg planner pl i a c0 p0 n m1 ->
  Z.of_nat n < E ->
  exists m',
    timer1_compare_interrupt cfg planner m = Some m' /\
    busy m' = false /\
    pos a (position (sys m'))
    = snd (trace_axis_n E s back (S n) (c0, p0)) /\
    (Z.of_nat (S n) < E -> tracing cfg planner pl i a c0 p0 (S n) m') /\
    (Z.of_nat (S n) = E ->
     current_block m' = None /\
     plan m' = plan_discard_current_block planner pl).
Proof.
  intros Hb Hpop (T1 & T2 & T3 & T4 & T5) Hn.
  fold b in T3, T5. fold E in T3, T5. fold s back in T5.
  destruct (trace_axis_n_invariant E s back n c0 p0 Hsteps Hseed)
    as (Hw & k & Hk & Hp & _).
  destruct (trace_axis_n E s back n (c0, p0)) as [c p] eqn:Etr.
  cbn [fst snd] in Hw, Hp. injection T5 as Tc Tp.
  destruct (firing_on_block cfg planner m m1 i a Hfloor Hpins Hb Hpop T1)
    as (m' & Ei & Fb & Fe & Fs & Fc & Fp & Fin & Fout).
  assert (Hblk : block_at planner i m1 = b)
    by (unfold block_at; rewrite T2; reflexivity).
  rewrite Hblk in Fc, Fp, Fin, Fout. fold s in Fc, Fp. fold E in Fin, Fout.
  fold back in Fp.
  rewrite Tc, T3 in Fc. rewrite Tc, Tp in Fp.
  assert (Hse : step_event m1 = Z.of_nat (S n)).
  { unfold step_event. rewrite T4. rewrite u32_exact by (unfold u32_ok; lia).
    lia. }
  rewrite Hse in Fs, Fin, Fout.
  assert (Hpm : s32_ok (p - 1) /\ s32_ok (p + 1)).
  { unfold s32_ok in *. destruct back; lia. }
  destruct (trace_axis_exact E s c p back Hsteps Hsmall Hw
              (proj1 Hpm) (proj2 Hpm)) as (Hex & _).
  cbv zeta in Hex.
  pose proof (f_equal snd Hex) as Hexp. cbn [snd] in Hexp.
  assert (Hnext : trace_axis_n E s back (S n) (c0, p0)
                  = trace_axis E s back (c, p))
    by (cbn [trace_axis_n]; rewrite Etr; reflexivity).
  exists m'. split; [exact Ei |]. split; [exact Fb |].
  split; [rewrite Fp, Hnext; exact Hexp |].
  split.
  - intros Hlt. destruct (Fin Hlt) as (C1 & C2).
    unfold tracing. fold b. fold E. fold s back.
    rewrite C1, C2, Fe, Fs, Fc, Fp, Hnext, T2, T3.
    do 4 (split; [reflexivity |]). exact Hex.
  - intros Heq. destruct (Fout ltac:(lia)) as (C1 & C2).
    rewrite C2, T2. split; [exact C1 | reflexivity].
Qed.

(** The firings that remain of a block being traced. *)
Lemma tracing_run (k : nat) :
  forall (n : nat) (m : machine P),
    busy m = false ->
    tracing cfg planner pl i a c0 p0 n m ->
    Z.of_nat (n + S k) = E ->
    exists m',
      fire cfg planner (S k) m = Some m' /\
      busy m' = false /\ current_block m' = None /\
      plan m' = plan_discard_current_block planner pl /\
      pos a (position (sys m'))
      = snd (trace_axis_n E s back (n + S k) (c0, p0)).
Proof.
  induction k as [| k IH]; intros n m Hb Ht Hn.
  - assert (Hc : current_block (isr_pulse cfg m) = Some i) by apply Ht.
    destruct (tracing_step n m (isr_pulse cfg m) Hb
                (isr_pop_block_running cfg planner _ i Hc)
                (tracing_pulse n m Ht) ltac:(lia))
      as (m' & Ei & Fb & Fp & _ & Fout).
    destruct (Fout ltac:(lia)) as (C1 & C2).
    exists m'. cbn [fire]. rewrite Ei. cbn [bind].
    replace (n + 1)%nat with (S n) by lia.
    repeat split; assumption.
  - assert (Hc : current_block (isr_pulse cfg m) = Some i) by apply Ht.
    destruct (tracing_step n m (isr_pulse cfg m) Hb
                (isr_pop_block_running cfg planner _ i Hc)
                (tracing_pulse n m Ht) ltac:(lia))
      as (m1 & Ei & Fb & _ & Fin & _).
    destruct (IH (S n) m1 Fb (Fin ltac:(lia)) ltac:(lia))
      as (m' & Er & R).
    exists m'. split.
    + change (fire cfg planner (S (S k)) m)
        with (m0 <- timer1_compare_interrupt cfg planner m ;;
              fire cfg planner (S k) m0).
      rewrite Ei. cbn [bind]. exact Er.
    + replace (n + S (S k))%nat with (S n + S k)%nat by lia. exact R.
Qed.

End BlockRun.

Section BlockMoves.
Context (cfg : config_h) {P : Type} (planner : planner_h P).

(** X4.  Position conservation over a block.  With no block in progress
    and block [i] lent by the planner, as many firings of the step
    interrupt as the block has step events (at least one, fewer than 2^31)
    all return; after them the block is released and discarded, and the
    position of every axis that has at most [step_event_count] steps in the
    block has moved by exactly its steps: backwards if the block's
    direction bit of the axis is set, forwards otherwise (the position
    staying within 32 bits). *)
Theorem block_moves_axis_by_its_steps (m : machine P) (i : nat) (a : axis) :
  floor_ok cfg -> pins_ok cfg ->
  busy m = false ->
  current_block m = None ->
  plan_get_current_block planner (plan m) = Some i ->
  1 <= step_event_count (block_at planner i m) < 2 ^ 31 ->
  0 <= steps a (block_at planner i m)
    <= step_event_count (block_at planner i m) ->
  s32_ok (pos a (position (sys m)) - step_event_count (block_at planner i m)) ->
  s32_ok (pos a (position (sys m)) + step_event_count (block_at planner i m)) ->
  exists m',
    fire cfg planner (Z.to_nat (step_event_count (block_at planner i m))) m
    = Some m' /\
    busy m' = false /\ current_block m' = None /\
    plan m' = plan_discard_current_block planner (plan m) /\
    pos a (position (sys m'))
    = (if Z.testbit (direction_bits (block_at planner i m))
            (DIRECTION_BIT cfg a)
       then pos a (position (sys m)) - steps a (block_at planner i m)
       else pos a (position (sys m)) + steps a (block_at planner i m)).
Proof.
  intros Hf Hp Hb Hc Hg HE Hs Hlo Hhi.
  unfold block_at in *.
  set (pl := plan m) in *. set (b := block_buffer planner pl i) in *.
  set (E := step_event_count b) in *. set (p0 := pos a (position (sys m))) in *.
  set (c0 := - (E / 2)).
  assert (Hseed : - E < c0 <= 0)
    by (subst c0; Z.to_euclidean_division_equations; lia).
  assert (HE31 : E < 2 ^ 31) by lia.
  destruct (isr_pop_block_some cfg planner (isr_pulse cfg m) i Hf Hc Hg)
    as (m1 & Epop & C1 & C2 & C3 & _ & _ & _ & C8 & C9 & C10 & _).
  assert (T0 : tracing cfg planner pl i a c0 p0 0 m1).
  { unfold tracing. fold b. fold E.
    split; [exact C1 |]. split; [exact C2 |]. split; [exact C9 |].
    split; [exact C10 |].
    cbn [trace_axis_n]. rewrite C8, C3. unfold block_at.
    change (plan (isr_pulse cfg m)) with pl. fold b. fold E.
    rewrite shiftr_1_half, s32_exact; [reflexivity |].
    unfold s32_ok. fold c0. lia. }
  pose proof (trace_axis_n_whole E (steps a b)
                (Z.testbit (direction_bits b) (DIRECTION_BIT cfg a))
                c0 p0 Hs Hseed) as Hwhole.
  destruct (Z.to_nat E) as [| k] eqn:Ek; [lia |].
  destruct (tracing_step cfg planner pl i a c0 p0 Hf Hp Hs HE31 Hseed
              Hlo Hhi 0 m m1 Hb Epop T0 ltac:(fold b; fold E; lia))
    as (m' & Ei & Fb & Fp & Fin & Fout).
  fold b in Fp, Fin, Fout. fold E in Fp, Fin, Fout.
  destruct k as [| k].
  - destruct (Fout ltac:(lia)) as (D1 & D2).
    exists m'. cbn [fire]. rewrite Ei. cbn [bind].
    rewrite Fp, Hwhole. repeat split; assumption.
  - destruct (tracing_run cfg planner pl i a c0 p0 Hf Hp Hs HE31 Hseed
                Hlo Hhi k 1 m' Fb (Fin ltac:(lia))
                ltac:(fold b; fold E; lia))
      as (m'' & Er & R1 & R2 & R3 & R4).
    fold b in R4. fold E in R4.
    replace (1 + S k)%nat with (S (S k)) in R4 by lia.
    exists m''. split.
    + change (fire cfg planner (S (S k)) m)
        with (m0 <- timer1_compare_interrupt cfg planner m ;;
              fire cfg planner (S k) m0).
      rewrite Ei. cbn [bind]. exact Er.
    + rewrite R4, Hwhole. repeat split; assumption.
Qed.

End BlockMoves.

Lemma block_moves_axis_by_its_steps_witness :
  floor_ok lm4f_config /\ pins_ok lm4f_config /\
  busy triangle_start = false /\ current_block triangle_start = None /\
  plan_get_current_block ring_planner (plan triangle_start) = Some 0%nat /\
  exists m',
    fire lm4f_config ring_planner 20 triangle_start = Some m' /\
    current_block m' = None /\
    pos X_AXIS (position (sys m')) = 20 /\
    pos Y_AXIS (position (sys m')) = 0.
Proof.
  assert (Hf : floor_ok lm4f_config) by reflexivity.
  assert (Hp : pins_ok lm4f_config).
  { split; intros a; [destruct a; split; discriminate |].
    intros a'; destruct a, a'; discriminate. }
  repeat (split; [first [exact Hf | exact Hp | reflexivity] |]).
  destruct (block_moves_axis_by_its_steps lm4f_config ring_planner
              triangle_start 0%nat X_AXIS Hf Hp eq_refl eq_refl eq_refl)
    as (m' & E & _ & C & _ & Px).
  1: vm_compute; split; [discriminate | reflexivity].
  1: vm_compute; split; discriminate.
  1: vm_compute; split; [discriminate | reflexivity].
  1: vm_compute; split; [discriminate | reflexivity].
  destruct (block_moves_axis_by_its_steps lm4f_config ring_planner
              triangle_start 0%nat Y_AXIS Hf Hp eq_refl eq_refl eq_refl)
    as (m2 & E2 & _ & _ & _ & Py).
  1: vm_compute; split; [discriminate | reflexivity].
  1: vm_compute; split; discriminate.
  1: vm_compute; split; [discriminate | reflexivity].
  1: vm_compute; split; [discriminate | reflexivity].
  change (Z.to_nat (step_event_count (block_at ring_planner 0 triangle_start)))
    with 20%nat in E, E2.
  rewrite E in E2. injection E2 as <-.
  exists m'. repeat split; assumption.
Defined.

(* ================================================================== *)
(** * Idle firings and the bounds of the rate *)

Section IdleAndBounds.
Context (cfg : config_h) {P : Type} (planner : planner_h P).

(** With nothing to take the stepper goes idle: beyond the timer and the
    flag only the stepper-disable pin can change. *)
Lemma isr_pop_block_idle (m : machine P) :
  current_block m = None ->
  plan_get_current_block planner (plan m) = None ->
  exists m1,
    isr_pop_block cfg planner m = Some m1 /\
    current_block m1 = None /\ plan m1 = plan m /\ st m1 = st m /\
    position (sys m1) = position (sys m) /\
    execute (sys m1) = bit_true (execute (sys m)) (EXEC_CYCLE_STOP cfg) /\
    timer1_enabled (hw m1) = false /\
    out_bits m1 = out_bits m /\ settings m1 = settings m.
Proof.
  intros Hc Hg. unfold isr_pop_block. rewrite Hc.
  cbv zeta. cbn [set_current_block current_block plan].
  rewrite Hg.
  eexists. split; [reflexivity |].
  match goal with
  | |- context [st_go_idle cfg ?x] =>
    destruct (st_go_idle_frame cfg x)
      as (H1 & H2 & H3 & H4 & H5 & _ & H7 & H8 & _)
  end.
  cbn [upd_sys set_sys st current_block plan sys hw set_execute execute
       position state out_bits settings].
  rewrite H1, H2, H3, H4, H5, H7, H8.
  repeat split; reflexivity.
Qed.

(** X5.  A firing that finds no block in progress and none to take: the
    step timer is stopped and [EXEC_CYCLE_STOP] raised; stepper state,
    position, planner and [current_block] stay as they are; the output bits
    are not recomputed but still go through the invert mask. *)
Theorem firing_with_nothing_to_do (m : machine P) :
  busy m = false ->
  current_block m = None ->
  plan_get_current_block planner (plan m) = None ->
  exists m',
    timer1_compare_interrupt cfg planner m = Some m' /\
    current_block m' = None /\ plan m' = plan m /\ st m' = st m /\
    position (sys m') = position (sys m) /\
    timer1_enabled (hw m') = false /\
    execute (sys m') = bit_true (execute (sys m)) (EXEC_CYCLE_STOP cfg) /\
    out_bits m' = Z.lxor (out_bits m) (invert_mask (settings m)) /\
    busy m' = false.
Proof.
  intros Hb Hc Hg. unfold timer1_compare_interrupt. rewrite Hb. cbv zeta.
  destruct (isr_pop_block_idle (isr_pulse cfg m) Hc Hg)
    as (m1 & E & H1 & H2 & H3 & H4 & H6 & H7 & H8 & H9).
  rewrite E. cbn [bind]. rewrite H1. cbn [bind].
  eexists. split; [reflexivity |].
  destruct (isr_finish_frame m1) as (F1 & F2 & F3 & F4 & F5 & _ & F7 & F8).
  rewrite F1, F2, F3, F4, F5, F7, F8, H1, H2, H3, H4, H6, H7, H8, H9.
  repeat split.
Qed.

(** X6.  The rate never exceeds the block's nominal rate.  On a block in
    progress whose [final_rate] is at most [nominal_rate], with
    [min_safe_rate] at least [rate_delta]: if the rate is at most
    [nominal_rate] before a firing it is at most [nominal_rate] after it,
    in every state and phase, and it is not negative. *)
Theorem rate_stays_below_nominal (m : machine P) (i : nat) :
  floor_ok cfg ->
  busy m = false ->
  current_block m = Some i ->
  0 <= rate_delta (block_at planner i m) <= min_safe_rate (st m) ->
  0 <= final_rate (block_at planner i m)
    <= nominal_rate (block_at planner i m) ->
  nominal_rate (block_at planner i m) < 2 ^ 32 ->
  0 <= trapezoid_adjusted_rate (st m) <= nominal_rate (block_at planner i m) ->
  exists m',
    timer1_compare_interrupt cfg planner m = Some m' /\
    0 <= trapezoid_adjusted_rate (st m')
      <= nominal_rate (block_at planner i m).
Proof.
  intros Hf Hb Hc Hd Hfin Hnom Hr.
  set (b := block_at planner i m) in *.
  destruct (Z.lt_ge_cases (step_event m) (step_event_count b)) as [Hlt | Hge].
  - destruct (firing_in_block cfg planner m i Hf Hb Hc Hlt)
      as (m3 & E & R & _).
    destruct (traced_state cfg b m) as (Tr & Tt & Tc & Tm & Te & Tf & Ta & _).
    fold b in E.
    exists (isr_finish m3). split; [exact R |].
    destruct (isr_finish_frame m3) as (-> & _).
    destruct (state_eqb (state (sys m)) STATE_HOLD).
    + destruct (isr_feed_hold_value cfg b _ _ Hf E) as (_ & V & _).
      rewrite V, Tr. clear V.
      destruct (tick_fires cfg _); cbn [andb]; [| lia].
      destruct (Z.ltb_spec (rate_delta b) (trapezoid_adjusted_rate (st m)));
        [| lia].
      rewrite u32_exact by (unfold u32_ok; lia). lia.
    + destruct (Z.lt_ge_cases (step_event m) (accelerate_until b))
        as [Ha | Ha].
      * destruct (isr_trapezoid_accelerating cfg b _ _ Hf
                    ltac:(rewrite Te; exact Ha) E) as (_ & V).
        rewrite V, Tr. clear V. destruct (tick_fires cfg _); [| lia].
        pose proof (u32_range (trapezoid_adjusted_rate (st m)
                               + rate_delta b)) as Hu.
        unfold u32_ok in Hu. lia.
      * destruct (Z.lt_ge_cases (step_event m) (decelerate_after b))
          as [Hd' | Hd'].
        -- destruct (isr_trapezoid_cruising cfg b _ _ Hf
                       ltac:(rewrite Te; lia) E) as (_ & V).
           rewrite V. lia.
        -- destruct (Z.eq_dec (step_event m) (decelerate_after b))
             as [He | He].
           ++ destruct (isr_trapezoid_decel_start cfg b _ _
                          ltac:(rewrite Te; exact Ha)
                          ltac:(rewrite Te; exact He) E) as (V & _).
              rewrite V, Tr. lia.
           ++ destruct (isr_trapezoid_decelerating cfg b _ _ Hf
                          ltac:(rewrite Te; exact Ha)
                          ltac:(rewrite Te; lia) E) as (_ & V).
              rewrite V, Tr, Tm. clear V.
              destruct (tick_fires cfg _); [| lia].
              assert (Hh : 0 <= Z.shiftr (trapezoid_adjusted_rate (st m)) 1
                           <= trapezoid_adjusted_rate (st m)).
              { rewrite shiftr_1_half.
                Z.to_euclidean_division_equations. lia. }
              destruct (Z.ltb_spec (min_safe_rate (st m))
                          (trapezoid_adjusted_rate (st m))).
              ** rewrite u32_exact by (unfold u32_ok; lia). lia.
              ** lia.
  - rewrite (timer1_compare_interrupt_running cfg planner m i Hb Hc).
    rewrite isr_step_finished by exact Hge. cbn [bind].
    destruct (isr_bresenham_frame cfg
                (block_at planner i (isr_pulse cfg m)) (isr_pulse cfg m))
      as (_ & _ & _ & B4 & _ & _ & _ & _ & _ & B10 & B11 & B12 & _).
    eexists. split; [reflexivity |].
    pose proof (released_machine cfg planner (isr_pulse cfg m) _ Hf
                  B4 B10 B11 B12) as K.
    cbv zeta in K. destruct K as (_ & _ & _ & K & _).
    rewrite K. exact Hr.
Qed.

End IdleAndBounds.

Lemma firing_with_nothing_to_do_witness :
  busy nothing_to_do = false /\ current_block nothing_to_do = None /\
  plan_get_current_block ring_planner (plan nothing_to_do) = None /\
  exists m',
    timer1_compare_interrupt lm4f_config ring_planner nothing_to_do
    = Some m' /\
    timer1_enabled (hw m') = false /\ execute (sys m') = 4.
Proof.
  repeat (split; [reflexivity |]).
  destruct (firing_with_nothing_to_do lm4f_config ring_planner nothing_to_do
              eq_refl eq_refl eq_refl)
    as (m' & E & _ & _ & _ & _ & T & X & _).
  exists m'. repeat split; assumption.
Defined.

Lemma rate_stays_below_nominal_witness :
  floor_ok lm4f_config /\ busy accelerating = false /\
  current_block accelerating = Some 0%nat /\
  exists m',
    timer1_compare_interrupt lm4f_config ring_planner accelerating = Some m' /\
    0 <= trapezoid_adjusted_rate (st m') <= 24000.
Proof.
  assert (Hf : floor_ok lm4f_config) by reflexivity.
  repeat (split; [first [exact Hf | reflexivity] |]).
  apply (rate_stays_below_nominal lm4f_config ring_planner accelerating
           0%nat Hf eq_refl eq_refl).
  - vm_compute. split; discriminate.
  - vm_compute. split; discriminate.
  - vm_compute. reflexivity.
  - vm_compute. split; discriminate.
Defined.

(* ================================================================== *)
(** * Feed hold, resume and reset *)

Section HoldAndResume.
Context (cfg : config_h) {P : Type} (planner : planner_h P).

(** X7.  A feed hold taken in the Cycle state puts the machine in Hold
    with [auto_start] cleared and touches nothing else: the step timer keeps
    running, stepper, block and position are as before.  A second feed
    hold changes nothing, and neither does a cycle start: [st_cycle_start]
    cannot cancel a hold. *)
Theorem cycle_start_cannot_cancel_hold (m : machine P) :
  state (sys m) = STATE_CYCLE ->
  state (sys (st_feed_hold m)) = STATE_HOLD /\
  auto_start (sys (st_feed_hold m)) = false /\
  st_cycle_start cfg (st_feed_hold m) = st_feed_hold m /\
  st_feed_hold (st_feed_hold m) = st_feed_hold m /\
  hw (st_feed_hold m) = hw m /\ st (st_feed_hold m) = st m /\
  current_block (st_feed_hold m) = current_block m /\
  plan (st_feed_hold m) = plan m /\
  position (sys (st_feed_hold m)) = position (sys m) /\
  execute (sys (st_feed_hold m)) = execute (sys m).
Proof.
  intros Hs.
  assert (E : st_feed_hold m
              = upd_sys (set_auto_start false)
                  (upd_sys (set_state STATE_HOLD) m)).
  { unfold st_feed_hold. rewrite Hs. reflexivity. }
  rewrite E. repeat split; reflexivity.
Qed.

(** [st_wake_up] acts on the stepper-disable pin and, in the Cycle state
    only, on the output bits, the pulse time and the two timers. *)
Lemma st_wake_up_frame (m : machine P) :
  st (st_wake_up cfg m) = st m /\
  current_block (st_wake_up cfg m) = current_block m /\
  plan (st_wake_up cfg m) = plan m /\ sys (st_wake_up cfg m) = sys m /\
  settings (st_wake_up cfg m) = settings m /\
  busy (st_wake_up cfg m) = busy m /\
  timer1_load (hw (st_wake_up cfg m)) = timer1_load (hw m) /\
  stepping_port (hw (st_wake_up cfg m)) = stepping_port (hw m) /\
  timer2_enabled (hw (st_wake_up cfg m)) = timer2_enabled (hw m) /\
  (state (sys m) = STATE_CYCLE ->
   timer1_enabled (hw (st_wake_up cfg m)) = true /\
   out_bits (st_wake_up cfg m) = Z.lxor 0 (invert_mask (settings m)) /\
   step_pulse_time (st_wake_up cfg m)
   = u32 ((pulse_microseconds (settings m) - 2)
          * TICKS_PER_MICROSECOND cfg) /\
   timer2_load (hw (st_wake_up cfg m))
   = u32 ((pulse_microseconds (settings m) - 2)
          * TICKS_PER_MICROSECOND cfg)) /\
  (state (sys m) <> STATE_CYCLE ->
   timer1_enabled (hw (st_wake_up cfg m)) = timer1_enabled (hw m) /\
   out_bits (st_wake_up cfg m) = out_bits m /\
   step_pulse_time (st_wake_up cfg m) = step_pulse_time m /\
   timer2_load (hw (st_wake_up cfg m)) = timer2_load (hw m)).
Proof.
  unfold st_wake_up. cbv zeta.
  destruct (bit_istrue _ _);
    cbn [upd_hw set_hw sys];
    (destruct (state_eqb_spec (state (sys m)) STATE_CYCLE) as [Hs | Hs];
     repeat split; try reflexivity; intros; contradiction).
Qed.

(** X8.  Resuming after a feed hold.  With a block current,
    [st_cycle_reinitialize] followed by [st_cycle_start] ends in the Cycle
    state with the step timer running, the same block current, the rate at
    zero with the timer loaded for it, and with the Bresenham variables as
    they were: the three accumulators, [event_count] and the position. *)
Theorem resume_keeps_bresenham (m : machine P) (i : nat) :
  floor_ok cfg ->
  current_block m = Some i ->
  exists m1,
    st_cycle_reinitialize cfg planner m = Some m1 /\
    state (sys (st_cycle_start cfg m1)) = STATE_CYCLE /\
    timer1_enabled (hw (st_cycle_start cfg m1)) = true /\
    current_block (st_cycle_start cfg m1) = Some i /\
    (forall a, counter a (st (st_cycle_start cfg m1)) = counter a (st m)) /\
    event_count (st (st_cycle_start cfg m1)) = event_count (st m) /\
    position (sys (st_cycle_start cfg m1)) = position (sys m) /\
    trapezoid_adjusted_rate (st (st_cycle_start cfg m1)) = 0 /\
    step_events_completed (st (st_cycle_start cfg m1)) = 0 /\
    period_ok cfg (st_cycle_start cfg m1) /\
    out_bits (st_cycle_start cfg m1) = invert_mask (settings m).
Proof.
  intros Hf Hc. unfold st_cycle_reinitialize. rewrite Hc. cbv zeta.
  rewrite set_step_events_per_minute_eq by exact Hf. cbn [bind].
  eexists. split; [reflexivity |].
  match goal with
  | |- context [st_cycle_start cfg ?x] =>
    set (m1 := x);
    assert (E : st_cycle_start cfg m1
                = st_wake_up cfg (upd_sys (set_state STATE_CYCLE) m1))
      by reflexivity
  end.
  rewrite E.
  destruct (st_wake_up_frame (upd_sys (set_state STATE_CYCLE) m1))
    as (W1 & W2 & W3 & W4 & W5 & _ & W7 & _ & _ & W10 & _).
  destruct (W10 eq_refl) as (W11 & W12 & _).
  unfold period_ok. rewrite W1, W2, W4, W7, W11, W12.
  repeat split; try reflexivity; try exact Hc; apply Z.lxor_0_l.
Qed.

(** X9.  [st_reset] always returns when the floor is positive.  It zeroes
    the stepper, installs the period of the floor rate in the stepper and
    in the step timer, leaves no block current and releases [busy]; the
    system state with the machine position, the planner and the settings
    are not touched, and a second reset changes nothing more. *)
Theorem reset_keeps_position (m : machine P) :
  floor_ok cfg ->
  exists m',
    st_reset cfg m = Some m' /\
    st m' = set_cycles_per_step_event (step_period cfg 0) stepper_zero /\
    period_ok cfg m' /\
    current_block m' = None /\ busy m' = false /\
    sys m' = sys m /\ plan m' = plan m /\ settings m' = settings m /\
    st_reset cfg m' = Some m'.
Proof.
  intros Hf.
  assert (E : step_period cfg (MINIMUM_STEPS_PER_MINUTE cfg)
              = step_period cfg 0).
  { unfold step_period. unfold floor_ok in Hf.
    rewrite Z.max_id, Z.max_r by lia. reflexivity. }
  unfold st_reset. cbv zeta.
  rewrite !set_step_events_per_minute_eq by exact Hf. rewrite E.
  cbn [bind]. eexists. split; [reflexivity |].
  repeat split.
  rewrite set_step_events_per_minute_eq by exact Hf. rewrite E.
  reflexivity.
Qed.

End HoldAndResume.

Lemma cycle_start_cannot_cancel_hold_witness :
  state (sys accelerating) = STATE_CYCLE /\
  state (sys (st_feed_hold accelerating)) = STATE_HOLD /\
  st_cycle_start lm4f_config (st_feed_hold accelerating)
  = st_feed_hold accelerating.
Proof.
  split; [reflexivity |].
  destruct (cycle_start_cannot_cancel_hold lm4f_config accelerating eq_refl)
    as (H1 & _ & H3 & _).
  split; assumption.
Defined.

Lemma resume_keeps_bresenham_witness :
  floor_ok lm4f_config /\ current_block held = Some 0%nat /\
  exists m1,
    st_cycle_reinitialize lm4f_config ring_planner held = Some m1 /\
    state (sys (st_cycle_start lm4f_config m1)) = STATE_CYCLE /\
    event_count (st (st_cycle_start lm4f_config m1)) = event_count (st held).
Proof.
  assert (Hf : floor_ok lm4f_config) by reflexivity.
  split; [exact Hf |]. split; [reflexivity |].
  destruct (resume_keeps_bresenham lm4f_config ring_planner held 0%nat
              Hf eq_refl)
    as (m1 & E & H1 & _ & _ & _ & H5 & _).
  exists m1. repeat split; assumption.
Defined.

Lemma reset_keeps_position_witness :
  floor_ok lm4f_config /\
  exists m',
    st_reset lm4f_config accelerating = Some m' /\
    st m' = stepper_reset /\ sys m' = sys accelerating.
Proof.
  assert (Hf : floor_ok lm4f_config) by reflexivity.
  split; [exact Hf |].
  destruct (reset_keeps_position lm4f_config accelerating Hf)
    as (m' & E & H1 & _ & _ & _ & H5 & _).
  exists m'. repeat split; assumption.
Defined.

(* ================================================================== *)
(** * The pins *)

Section Pins.
Context (cfg : config_h) {P : Type} (planner : planner_h P).

(** [GPIOPinWrite] bit by bit: a pin of the mask takes the bit of the
    value, every other pin keeps its own. *)
Lemma pin_write_bit (old pins val n : Z) :
  Z.testbit (Z.lor (Z.ldiff old pins) (Z.land val pins)) n
  = if Z.testbit pins n then Z.testbit val n else Z.testbit old n.
Proof.
  rewrite Z.lor_spec, Z.ldiff_spec, Z.land_spec.
  destruct (Z.testbit pins n), (Z.testbit val n), (Z.testbit old n);
    reflexivity.
Qed.

Lemma stepping_kept_refl (m : machine P) : stepping_kept m m.
Proof. unfold stepping_kept. repeat split; reflexivity. Qed.

Lemma stepping_kept_trans (m1 m2 m3 : machine P) :
  stepping_kept m1 m2 -> stepping_kept m2 m3 -> stepping_kept m1 m3.
Proof.
  unfold stepping_kept.
  intros (A1 & A2 & A3 & A4 & A5) (B1 & B2 & B3 & B4 & B5).
  repeat split; etransitivity; eassumption.
Qed.

Ltac stepping_same := unfold stepping_kept; repeat split; reflexivity.

Lemma st_go_idle_stepping (m : machine P) :
  stepping_kept m (st_go_idle cfg m).
Proof.
  unfold st_go_idle. cbv zeta.
  destruct (negb _ || _); [destruct (bit_istrue _ _) |]; stepping_same.
Qed.

Lemma go_idle_and_flag_stepping (m : machine P) :
  stepping_kept m
    (upd_sys (fun y =>
       set_execute (bit_true (execute y) (EXEC_CYCLE_STOP cfg)) y)
       (st_go_idle cfg m)).
Proof.
  eapply stepping_kept_trans; [apply st_go_idle_stepping |]. stepping_same.
Qed.

Lemma isr_trapezoid_stepping (b : block_t) (m : machine P) :
  floor_ok cfg ->
  exists m', isr_trapezoid cfg b m = Some m' /\ stepping_kept m m'.
Proof.
  intros Hf. unfold isr_trapezoid.
  rewrite iterate_trapezoid_cycle_counter_eq.
  destruct (step_events_completed (st m) <? accelerate_until b).
  - destruct (tick_fires cfg m); cbv zeta.
    + rewrite set_step_events_per_minute_eq by exact Hf.
      eexists. split; [reflexivity |].
      destruct (nominal_rate b <=? _); stepping_same.
    + eexists. split; [reflexivity | stepping_same].
  - destruct (decelerate_after b <=? step_events_completed (st m)).
    + destruct (step_events_completed (st m) =? decelerate_after b).
      * destruct (trapezoid_adjusted_rate (st m) =? nominal_rate b);
          eexists; (split; [reflexivity | stepping_same]).
      * destruct (tick_fires cfg m); cbv zeta.
        -- rewrite set_step_events_per_minute_eq by exact Hf.
           eexists. split; [reflexivity |].
           destruct (min_safe_rate _ <? _);
             destruct (_ <? final_rate b); stepping_same.
        -- eexists. split; [reflexivity | stepping_same].
    + destruct (negb _).
      * cbv zeta. rewrite set_step_events_per_minute_eq by exact Hf.
        eexists. split; [reflexivity | stepping_same].
      * eexists. split; [reflexivity | stepping_same].
Qed.

Lemma isr_feed_hold_stepping (b : block_t) (m : machine P) :
  floor_ok cfg ->
  exists m', isr_feed_hold cfg b m = Some m' /\ stepping_kept m m'.
Proof.
  intros Hf. unfold isr_feed_hold.
  rewrite iterate_trapezoid_cycle_counter_eq.
  destruct (tick_fires cfg m).
  - destruct (_ <=? rate_delta b); cbv zeta.
    + eexists. split; [reflexivity |].
      match goal with
      | |- context [st_go_idle cfg ?x] =>
        pose proof (go_idle_and_flag_stepping x) as K
      end.
      eapply stepping_kept_trans; [| exact K]. stepping_same.
    + rewrite set_step_events_per_minute_eq by exact Hf.
      eexists. split; [reflexivity | stepping_same].
  - eexists. split; [reflexivity | stepping_same].
Qed.

Lemma isr_bresenham_stepping (b : block_t) (m : machine P) :
  stepping_kept m (isr_bresenham cfg b m).
Proof.
  destruct (isr_bresenham_frame cfg b m)
    as (_ & _ & B3 & B4 & _ & B6 & _).
  unfold stepping_kept. rewrite B3, B4, B6. repeat split; reflexivity.
Qed.

Lemma release_stepping (p : P) (m : machine P) :
  stepping_kept m (set_plan p (set_current_block None m)).
Proof. stepping_same. Qed.

Lemma isr_step_stepping (i : nat) (m : machine P) :
  floor_ok cfg ->
  exists m3, isr_step cfg planner i m = Some m3 /\ stepping_kept m m3.
Proof.
  intros Hf.
  pose proof (isr_bresenham_stepping (block_at planner i m) m) as Cb.
  destruct (Z.lt_ge_cases (step_event m)
              (step_event_count (block_at planner i m))) as [Hlt | Hge].
  - rewrite isr_step_in_block by exact Hlt.
    destruct (state_eqb _ _).
    + destruct (isr_feed_hold_stepping (block_at planner i m)
                  (isr_bresenham cfg (block_at planner i m) m) Hf)
        as (m3 & E & C).
      exists m3. split; [exact E |].
      eapply stepping_kept_trans; eassumption.
    + destruct (isr_trapezoid_stepping (block_at planner i m)
                  (isr_bresenham cfg (block_at planner i m) m) Hf)
        as (m3 & E & C).
      exists m3. split; [exact E |].
      eapply stepping_kept_trans; eassumption.
  - rewrite isr_step_finished by exact Hge.
    eexists. split; [reflexivity |].
    eapply stepping_kept_trans; [exact Cb | apply release_stepping].
Qed.

Lemma isr_pop_block_stepping (m : machine P) :
  floor_ok cfg ->
  exists m1, isr_pop_block cfg planner m = Some m1 /\ stepping_kept m m1.
Proof.
  intros Hf. unfold isr_pop_block.
  destruct (current_block m) as [i |].
  - exists m. split; [reflexivity | apply stepping_kept_refl].
  - cbv zeta. cbn [set_current_block current_block].
    destruct (plan_get_current_block planner (plan m)) as [j |].
    + change (sys (set_current_block (Some j) m)) with (sys m).
      destruct (state_eqb (state (sys m)) STATE_CYCLE).
      * rewrite set_step_events_per_minute_eq by exact Hf. cbn [bind].
        eexists. split; [reflexivity | stepping_same].
      * cbn [bind]. eexists. split; [reflexivity | stepping_same].
    + eexists. split; [reflexivity |].
      match goal with
      | |- context [st_go_idle cfg ?x] =>
        pose proof (go_idle_and_flag_stepping x) as K
      end.
      eapply stepping_kept_trans; [| exact K]. stepping_same.
Qed.

(** X10.  The step pulse.  A firing of the step interrupt puts on the
    step and direction pins the output bits the previous firing left, starts
    the pulse timer, and touches no other pin of the stepping port; when the
    pulse timer then overflows, the step pins go to the level of the invert
    mask and the direction pins stay. *)
Theorem step_pulse (m : machine P) :
  floor_ok cfg ->
  busy m = false ->
  exists m',
    timer1_compare_interrupt cfg planner m = Some m' /\
    timer2_enabled (hw m') = true /\
    (forall n,
       Z.testbit (stepping_port (hw m')) n
       = if Z.testbit (STEP_MASK cfg) n || Z.testbit (DIRECTION_MASK cfg) n
         then Z.testbit (out_bits m) n
         else Z.testbit (stepping_port (hw m)) n) /\
    (forall n,
       Z.testbit (stepping_port (hw (timer2_overflow_interrupt cfg m'))) n
       = if Z.testbit (STEP_MASK cfg) n
         then Z.testbit (invert_mask (settings m)) n
         else if Z.testbit (DIRECTION_MASK cfg) n
              then Z.testbit (out_bits m) n
              else Z.testbit (stepping_port (hw m)) n).
Proof.
  intros Hf Hb. unfold timer1_compare_interrupt. rewrite Hb. cbv zeta.
  destruct (isr_pop_block_stepping (isr_pulse cfg m) Hf) as (m1 & E & C1).
  rewrite E. cbn [bind].
  assert (C : exists m3,
             match current_block m1 with
             | Some i => isr_step cfg planner i m1
             | None => Some m1
             end = Some m3 /\ stepping_kept m1 m3).
  { destruct (current_block m1) as [i |].
    - apply isr_step_stepping. exact Hf.
    - exists m1. split; [reflexivity | apply stepping_kept_refl]. }
  destruct C as (m3 & E3 & C3). rewrite E3. cbn [bind].
  eexists. split; [reflexivity |].
  pose proof (stepping_kept_trans _ _ _ C1 C3) as (K1 & K2 & _ & _ & K5).
  assert (Hpins : forall n,
            Z.testbit (stepping_port (hw (isr_pulse cfg m))) n
            = if Z.testbit (STEP_MASK cfg) n || Z.testbit (DIRECTION_MASK cfg) n
              then Z.testbit (out_bits m) n
              else Z.testbit (stepping_port (hw m)) n).
  { intros n. unfold isr_pulse. cbv zeta.
    cbn [upd_hw set_hw hw out_bits set_busy GPIOPinWrite TimerEnable
         set_timer_enabled stepping_port].
    rewrite !pin_write_bit.
    destruct (Z.testbit (STEP_MASK cfg) n), (Z.testbit (DIRECTION_MASK cfg) n);
      reflexivity. }
  split; [| split].
  - change (hw (isr_finish m3)) with (hw m3). rewrite K2. reflexivity.
  - intros n. change (hw (isr_finish m3)) with (hw m3).
    rewrite K1. apply Hpins.
  - intros n. unfold timer2_overflow_interrupt.
    cbn [upd_hw set_hw hw GPIOPinWrite stepping_port].
    rewrite pin_write_bit.
    change (hw (isr_finish m3)) with (hw m3).
    change (settings (isr_finish m3)) with (settings m3).
    rewrite K1, K5, Hpins.
    destruct (Z.testbit (STEP_MASK cfg) n), (Z.testbit (DIRECTION_MASK cfg) n);
      reflexivity.
Qed.

(** X11.  [st_wake_up] drives the pins of [STEPPERS_DISABLE_BIT] to the
    enabling level (bits of 0xFF when the enable is inverted, 0 otherwise)
    and no other pin of the port.  It starts the step timer in the Cycle
    state and in no other: there it also sets the output bits to the invert
    mask and loads the pulse timer; elsewhere timers, output bits and pulse
    time stay.  Stepper, system state, planner and block are never
    touched. *)
Theorem wake_up_starts_timer_only_in_cycle (m : machine P) :
  (forall n,
     Z.testbit (steppers_disable_port (hw (st_wake_up cfg m))) n
     = if Z.testbit (STEPPERS_DISABLE_BIT cfg) n
       then bit_istrue (flags (settings m)) (BITFLAG_INVERT_ST_ENABLE cfg)
            && Z.testbit 255 n
       else Z.testbit (steppers_disable_port (hw m)) n) /\
  timer1_enabled (hw (st_wake_up cfg m))
  = (state_eqb (state (sys m)) STATE_CYCLE || timer1_enabled (hw m)) /\
  out_bits (st_wake_up cfg m)
  = (if state_eqb (state (sys m)) STATE_CYCLE
     then invert_mask (settings m) else out_bits m) /\
  timer2_load (hw (st_wake_up cfg m))
  = (if state_eqb (state (sys m)) STATE_CYCLE
     then u32 ((pulse_microseconds (settings m) - 2)
               * TICKS_PER_MICROSECOND cfg)
     else timer2_load (hw m)) /\
  st (st_wake_up cfg m) = st m /\ sys (st_wake_up cfg m) = sys m /\
  plan (st_wake_up cfg m) = plan m /\
  current_block (st_wake_up cfg m) = current_block m.
Proof.
  split.
  - intros n. unfold st_wake_up. cbv zeta.
    destruct (bit_istrue _ _);
      cbn [upd_hw set_hw sys];
      destruct (state_eqb (state (sys m)) STATE_CYCLE);
      cbn [upd_hw set_hw hw set_out_bits set_step_pulse_time GPIOPinWrite
           TimerEnable TimerLoadSet set_timer_enabled steppers_disable_port];
      rewrite pin_write_bit;
      destruct (Z.testbit (STEPPERS_DISABLE_BIT cfg) n); try reflexivity;
      apply Z.bits_0.
  - destruct (st_wake_up_frame cfg m)
      as (W1 & W2 & W3 & W4 & _ & _ & _ & _ & _ & Wc & Wn).
    rewrite W1, W2, W3, W4.
    destruct (state_eqb_spec (state (sys m)) STATE_CYCLE) as [Hs | Hs].
    + destruct (Wc Hs) as (A & B & _ & D). rewrite A, B, D, Z.lxor_0_l.
      repeat split; reflexivity.
    + destruct (Wn Hs) as (A & B & _ & D). rewrite A, B, D.
      repeat split; reflexivity.
Qed.

(** X12.  [st_go_idle] always stops the step timer.  With
    [stepper_idle_lock_time] at 255 and no alarm pending it leaves the
    stepper-disable port as it is; otherwise it drives the pins of
    [STEPPERS_DISABLE_BIT] to the disabling level, the opposite of the one
    [st_wake_up] writes, and no other pin. *)
Theorem go_idle_stops_timer (m : machine P) :
  timer1_enabled (hw (st_go_idle cfg m)) = false /\
  (forall n,
     Z.testbit (steppers_disable_port (hw (st_go_idle cfg m))) n
     = if (negb (stepper_idle_lock_time (settings m) =? 255)
           || bit_istrue (execute (sys m)) (EXEC_ALARM cfg))
          && Z.testbit (STEPPERS_DISABLE_BIT cfg) n
       then negb (bit_istrue (flags (settings m))
                    (BITFLAG_INVERT_ST_ENABLE cfg))
            && Z.testbit 255 n
       else Z.testbit (steppers_disable_port (hw m)) n) /\
  stepping_kept m (st_go_idle cfg m) /\
  st (st_go_idle cfg m) = st m /\ sys (st_go_idle cfg m) = sys m /\
  plan (st_go_idle cfg m) = plan m /\
  current_block (st_go_idle cfg m) = current_block m /\
  out_bits (st_go_idle cfg m) = out_bits m.
Proof.
  destruct (st_go_idle_frame cfg m)
    as (H1 & H2 & H3 & _ & H5 & _ & H7 & H8 & _).
  split; [exact H8 |].
  split; [| split; [apply st_go_idle_stepping |]].
  - intros n. unfold st_go_idle. cbv zeta.
    cbn [upd_hw set_hw settings sys].
    destruct (negb _ || _); cbn [andb]; [| reflexivity].
    destruct (bit_istrue _ _);
      cbn [upd_hw set_hw hw GPIOPinWrite TimerDisable set_timer_enabled
           steppers_disable_port negb andb];
      rewrite pin_write_bit;
      destruct (Z.testbit (STEPPERS_DISABLE_BIT cfg) n); try reflexivity;
      apply Z.bits_0.
  - rewrite H1, H2, H3, H5, H7. repeat split; reflexivity.
Qed.

(** X13.  The tick counter loses no cycles.  When the sum of the counter
    and the period of the step event fits in 32 bits,
    [iterate_trapezoid_cycle_counter] adds the period and takes
    [CYCLES_PER_ACCELERATION_TICK] off exactly when it reports a tick, at
    most once per call; the counter is at most
    [CYCLES_PER_ACCELERATION_TICK] afterwards when no tick is reported, or
    when counter and period were; nothing else of the machine changes: the
    other eight fields of the stepper, the block pointer, the pulse time,
    the output bits, [busy], the system state, the settings, the planner and
    the hardware are as before. *)
Theorem tick_counter_loses_no_cycles (m : machine P) :
  0 <= CYCLES_PER_ACCELERATION_TICK cfg ->
  0 <= trapezoid_tick_cycle_counter (st m) ->
  0 <= cycles_per_step_event (st m) ->
  trapezoid_tick_cycle_counter (st m) + cycles_per_step_event (st m)
    < 2 ^ 32 ->
  let fired := fst (iterate_trapezoid_cycle_counter cfg m) in
  let m' := snd (iterate_trapezoid_cycle_counter cfg m) in
  trapezoid_tick_cycle_counter (st m')
  + (if fired then CYCLES_PER_ACCELERATION_TICK cfg else 0)
  = trapezoid_tick_cycle_counter (st m) + cycles_per_step_event (st m) /\
  0 <= trapezoid_tick_cycle_counter (st m') /\
  (trapezoid_tick_cycle_counter (st m) <= CYCLES_PER_ACCELERATION_TICK cfg ->
   cycles_per_step_event (st m) <= CYCLES_PER_ACCELERATION_TICK cfg ->
   trapezoid_tick_cycle_counter (st m') <= CYCLES_PER_ACCELERATION_TICK cfg) /\
  (fired = false ->
   trapezoid_tick_cycle_counter (st m') <= CYCLES_PER_ACCELERATION_TICK cfg) /\
  (forall a, counter a (st m') = counter a (st m)) /\
  event_count (st m') = event_count (st m) /\
  step_events_completed (st m') = step_events_completed (st m) /\
  cycles_per_step_event (st m') = cycles_per_step_event (st m) /\
  trapezoid_adjusted_rate (st m') = trapezoid_adjusted_rate (st m) /\
  min_safe_rate (st m') = min_safe_rate (st m) /\
  current_block m' = current_block m /\
  step_pulse_time m' = step_pulse_time m /\
  out_bits m' = out_bits m /\ busy m' = busy m /\
  sys m' = sys m /\ settings m' = settings m /\
  plan m' = plan m /\ hw m' = hw m.
Proof.
  intros H0 Ht Hc Hs. rewrite iterate_trapezoid_cycle_counter_eq.
  cbn [fst snd]. cbv zeta.
  assert (Hax : forall (a : axis) (v : Z),
            counter a (st (upd_st (set_trapezoid_tick_cycle_counter v) m))
            = counter a (st m))
    by (intros a v; destruct a; reflexivity).
  cbn [upd_st set_st st set_trapezoid_tick_cycle_counter
       trapezoid_tick_cycle_counter cycles_per_step_event
       trapezoid_adjusted_rate step_events_completed hw sys
       event_count min_safe_rate current_block step_pulse_time out_bits
       busy settings plan] in *.
  unfold tick_fires, tick_advanced. cbv zeta.
  rewrite (u32_exact (trapezoid_tick_cycle_counter (st m)
                      + cycles_per_step_event (st m)))
    by (unfold u32_ok; lia).
  destruct (Z.ltb_spec (CYCLES_PER_ACCELERATION_TICK cfg)
              (trapezoid_tick_cycle_counter (st m)
               + cycles_per_step_event (st m))) as [Hlt | Hge].
  - rewrite u32_exact by (unfold u32_ok; lia).
    repeat split; try reflexivity; try lia; apply Hax.
  - repeat split; try reflexivity; try lia; apply Hax.
Qed.

End Pins.

Lemma step_pulse_witness :
  floor_ok lm4f_config /\ busy accelerating = false /\
  exists m',
    timer1_compare_interrupt lm4f_config ring_planner accelerating
    = Some m' /\
    timer2_enabled (hw m') = true.
Proof.
  assert (Hf : floor_ok lm4f_config) by reflexivity.
  split; [exact Hf |]. split; [reflexivity |].
  destruct (step_pulse lm4f_config ring_planner accelerating Hf eq_refl)
    as (m' & E & T & _).
  exists m'. split; assumption.
Defined.

Lemma tick_counter_loses_no_cycles_witness :
  trapezoid_tick_cycle_counter
    (st (snd (iterate_trapezoid_cycle_counter lm4f_config accelerating)))
  + (if fst (iterate_trapezoid_cycle_counter lm4f_config accelerating)
     then CYCLES_PER_ACCELERATION_TICK lm4f_config else 0)
  = 3166640.
Proof.
  refine (proj1 (tick_counter_loses_no_cycles lm4f_config accelerating
                   _ _ _ _)).
  - vm_compute. discriminate.
  - vm_compute. discriminate.
  - vm_compute. discriminate.
  - vm_compute. reflexivity.
Defined.

(* ================================================================== *)
(** * The messages of report.c *)

Lemma one_line_app (a b : string) :
  one_line (a ++ b) = one_line a && one_line b.
Proof.
  induction a as [| ch a IH]; simpl; [reflexivity |].
  rewrite IH, !andb_assoc. reflexivity.
Qed.

(** The case that runs is a case of the switch, under its own label. *)
Lemma switch_some_in (cases : list (Z * string)) (c : Z) (text : string) :
  switch c cases = Some text -> In (c, text) cases.
Proof.
  induction cases as [| [l t] rest IH]; simpl; [discriminate |].
  destruct (Z.eqb_spec c l) as [-> | _].
  - intros [= ->]. left. reflexivity.
  - intros H. right. apply IH, H.
Qed.

(** No case runs for a scrutinee that is no label. *)
Lemma switch_miss (cases : list (Z * string)) (c : Z) :
  ~ In c (map fst cases) -> switch c cases = None.
Proof.
  induction cases as [| [l t] rest IH]; simpl; [reflexivity |].
  intros Hn. destruct (Z.eqb_spec c l) as [-> | _].
  - exfalso. apply Hn. left. reflexivity.
  - apply IH. intros H. apply Hn. right. exact H.
Qed.

(** A case runs for every label. *)
Lemma switch_label (cases : list (Z * string)) (c : Z) :
  In c (map fst cases) -> exists text, switch c cases = Some text.
Proof.
  induction cases as [| [l t] rest IH]; simpl; [contradiction |].
  intros [-> | H].
  - rewrite Z.eqb_refl. exists t. reflexivity.
  - destruct (c =? l); [exists t; reflexivity | apply IH, H].
Qed.

(** What a message function sends between a prefix and a suffix: the text
    of the case that runs, nothing when none does. *)
Lemma switch_text (cases : list (Z * string)) (c : Z) (before uart : string) :
  forallb (fun p => one_line (snd p)) cases = true ->
  exists text,
    match switch c cases with
    | Some t => UARTprintf t (UARTprintf before uart)
    | None => UARTprintf before uart
    end = (uart ++ before ++ text)%string /\
    one_line text = true /\
    (In c (map fst cases) -> In (c, text) cases) /\
    (~ In c (map fst cases) -> text = EmptyString).
Proof.
  intros Hall. destruct (switch c cases) as [t |] eqn:E.
  - exists t. pose proof (switch_some_in _ _ _ E) as Hin.
    split; [unfold UARTprintf; apply append_assoc |].
    split; [| split].
    + rewrite forallb_forall in Hall. apply (Hall (c, t) Hin).
    + intros _. exact Hin.
    + intros Hn. rewrite (switch_miss _ _ Hn) in E. discriminate.
  - exists EmptyString.
    split; [| split; [reflexivity | split]].
    + unfold UARTprintf. f_equal. induction before as [| ch b IH]; simpl; [reflexivity |].
      rewrite <- IH. reflexivity.
    + intros Hin. destruct (switch_label _ _ Hin) as (t & Ht).
      rewrite Ht in E. discriminate.
    + intros _. reflexivity.
Qed.

(** X14.  Every call of [report_status_message] appends exactly one line
    to what was sent: a body without carriage return or line feed, then
    [\r\n].  The body is [ok] for the code 0; for any other code it is
    [error: ] followed by the text of a case labelled with the code, and by
    nothing when the code labels no case. *)
Theorem status_message_is_one_line (rh : report_h) (status_code : Z)
  (uart : string) :
  exists body,
    report_status_message rh status_code uart = (uart ++ body ++ crlf)%string /\
    one_line body = true /\
    (status_code = 0 -> body = "ok"%string) /\
    (status_code <> 0 ->
     exists text,
       body = ("error: " ++ text)%string /\
       (In status_code (map fst (status_cases rh)) ->
        In (status_code, text) (status_cases rh)) /\
       (~ In status_code (map fst (status_cases rh)) ->
        text = EmptyString)).
Proof.
  unfold report_status_message.
  destruct (Z.eqb_spec status_code 0) as [-> | Hnz].
  - exists "ok"%string. split; [reflexivity |]. split; [reflexivity |].
    split; [reflexivity | intros H; contradiction].
  - cbv zeta.
    destruct (switch_text (status_cases rh) status_code "error: " uart
                eq_refl) as (text & E & L & Hin & Hout).
    rewrite E. exists ("error: " ++ text)%string.
    split; [unfold UARTprintf; rewrite !append_assoc; reflexivity |].
    split; [rewrite one_line_app, L; reflexivity |].
    split; [intros H; contradiction |].
    intros _. exists text. split; [reflexivity |]. split; assumption.
Qed.

(** X15.  Every call of [report_alarm_message] appends exactly one line:
    [ALARM: ], the text of the alarm, [. MPos?] and [\r\n].  The text is
    [Hard limit] for [ALARM_HARD_LIMIT], [Abort during cycle] for
    [ALARM_ABORT_CYCLE] when it is another code than the former, and empty
    for every other code. *)
Theorem alarm_message_format (ah : alarm_h) (alarm_code : Z) (uart : string) :
  exists text,
    report_alarm_message ah alarm_code uart
    = (uart ++ "ALARM: " ++ text ++ ". MPos?" ++ crlf)%string /\
    one_line ("ALARM: " ++ text ++ ". MPos?") = true /\
    text = (if alarm_code =? ALARM_HARD_LIMIT ah then "Hard limit"%string
            else if alarm_code =? ALARM_ABORT_CYCLE ah
                 then "Abort during cycle"%string
                 else EmptyString).
Proof.
  unfold report_alarm_message, alarm_cases. cbv zeta. cbn [switch].
  destruct (alarm_code =? ALARM_HARD_LIMIT ah);
    [| destruct (alarm_code =? ALARM_ABORT_CYCLE ah)];
    eexists; (split; [| split; [| reflexivity]]);
    try reflexivity;
    unfold UARTprintf; rewrite !append_assoc; reflexivity.
Qed.

(** X16.  Every call of [report_feedback_message] appends exactly one
    line, in brackets: [[], the text of the message, []] and [\r\n].  The
    text is that of a case labelled with the code, and empty when the code
    labels no case. *)
Theorem feedback_message_in_brackets (mh : message_h) (message_code : Z)
  (uart : string) :
  exists text,
    report_feedback_message mh message_code uart
    = (uart ++ "[" ++ text ++ "]" ++ crlf)%string /\
    one_line ("[" ++ text ++ "]") = true /\
    (In message_code (map fst (feedback_cases mh)) ->
     In (message_code, text) (feedback_cases mh)) /\
    (~ In message_code (map fst (feedback_cases mh)) ->
     text = EmptyString).
Proof.
  unfold report_feedback_message. cbv zeta.
  destruct (switch_text (feedback_cases mh) message_code "[" uart eq_refl)
    as (text & E & L & Hin & Hout).
  rewrite E. exists text.
  split; [unfold UARTprintf; rewrite !append_assoc; reflexivity |].
  split; [| split; assumption].
  rewrite !one_line_app, L. reflexivity.
Qed.

(* ================================================================== *)
(** * Pulses and position *)

Section PulseAndPosition.
Context (cfg : config_h) {P : Type} (planner : planner_h P).

Lemma step_bit_same (a : axis) (b : block_t) (m : machine P) :
  pins_ok cfg ->
  Z.testbit (out_bits (bresenham_axis cfg a b m)) (STEP_BIT cfg a)
  = Z.testbit (out_bits m) (STEP_BIT cfg a)
    || (0 <? s32 (counter a (st m) + steps a b)).
Proof.
  intros Hp. destruct (bresenham_axis_self cfg a b m Hp) as (_ & _ & ->).
  destruct (0 <? _).
  - rewrite testbit_lor_same by apply Hp. rewrite orb_true_r. reflexivity.
  - rewrite orb_false_r. reflexivity.
Qed.

Lemma step_bit_other (a a' : axis) (b : block_t) (m : machine P) :
  pins_ok cfg -> step_pins_distinct cfg -> a' <> a ->
  Z.testbit (out_bits (bresenham_axis cfg a' b m)) (STEP_BIT cfg a)
  = Z.testbit (out_bits m) (STEP_BIT cfg a).
Proof.
  intros Hp Hd Hne.
  destruct (bresenham_axis_self cfg a' b m Hp) as (_ & _ & ->).
  destruct (0 <? _); [| reflexivity].
  apply testbit_lor_other; try apply Hp.
  apply Hd. congruence.
Qed.

(** After the Bresenham step the step bit of an axis is raised exactly
    when the axis steps, the direction bits of the block not reaching the
    step pins. *)
Lemma isr_bresenham_step_bit (a : axis) (b : block_t) (m : machine P) :
  pins_ok cfg -> step_pins_distinct cfg ->
  Z.testbit (direction_bits b) (STEP_BIT cfg a) = false ->
  Z.testbit (out_bits (isr_bresenham cfg b m)) (STEP_BIT cfg a)
  = (0 <? s32 (counter a (st m) + steps a b)).
Proof.
  intros Hp Hd Hdir. unfold isr_bresenham. cbv zeta.
  match goal with
  | |- context [upd_st _ ?x] =>
    destruct (count_event_keeps a x) as (_ & _ & Ko)
  end.
  cbv zeta in Ko. rewrite Ko. clear Ko.
  set (m0 := set_out_bits (direction_bits b) m).
  set (mx := bresenham_axis cfg X_AXIS b m0).
  set (my := bresenham_axis cfg Y_AXIS b mx).
  assert (H0 : Z.testbit (out_bits m0) (STEP_BIT cfg a) = false)
    by exact Hdir.
  assert (C0 : counter a (st m0) = counter a (st m)) by reflexivity.
  destruct a.
  - rewrite (step_bit_other X_AXIS Z_AXIS b my Hp Hd ltac:(discriminate)).
    unfold my.
    rewrite (step_bit_other X_AXIS Y_AXIS b mx Hp Hd ltac:(discriminate)).
    unfold mx. rewrite step_bit_same by exact Hp.
    rewrite H0, C0. reflexivity.
  - rewrite (step_bit_other Y_AXIS Z_AXIS b my Hp Hd ltac:(discriminate)).
    unfold my. rewrite step_bit_same by exact Hp.
    destruct (bresenham_axis_other cfg X_AXIS Y_AXIS b m0
                ltac:(discriminate)) as (Xc & _).
    fold mx in Xc. rewrite Xc. unfold mx.
    rewrite (step_bit_other Y_AXIS X_AXIS b m0 Hp Hd ltac:(discriminate)).
    rewrite H0, C0. reflexivity.
  - rewrite step_bit_same by exact Hp.
    destruct (bresenham_axis_other cfg X_AXIS Z_AXIS b m0
                ltac:(discriminate)) as (Xc & _).
    destruct (bresenham_axis_other cfg Y_AXIS Z_AXIS b mx
                ltac:(discriminate)) as (Yc & _).
    fold mx in Xc, Yc. fold my in Yc. rewrite Yc, Xc.
    unfold my.
    rewrite (step_bit_other Z_AXIS Y_AXIS b mx Hp Hd ltac:(discriminate)).
    unfold mx.
    rewrite (step_bit_other Z_AXIS X_AXIS b m0 Hp Hd ltac:(discriminate)).
    rewrite H0, C0. reflexivity.
Qed.

(** X17.  A pulse exactly when the position moves.  On a firing with a
    current block whose direction bits do not reach the step pin of an
    axis, the step pins being distinct: the output bits computed for the
    next pulse (before the invert mask) carry the step bit of the axis
    exactly when the position of the axis changes by one in this firing,
    and carry the direction bits of the block. *)
Theorem pulse_exactly_when_position_moves (m m1 : machine P) (i : nat)
  (a : axis) :
  floor_ok cfg ->
  pins_ok cfg ->
  step_pins_distinct cfg ->
  busy m = false ->
  isr_pop_block cfg planner (isr_pulse cfg m) = Some m1 ->
  current_block m1 = Some i ->
  Z.testbit (direction_bits (block_at planner i m1)) (STEP_BIT cfg a)
  = false ->
  exists m' bits,
    timer1_compare_interrupt cfg planner m = Some m' /\
    out_bits m' = Z.lxor bits (invert_mask (settings m')) /\
    (forall a',
       Z.testbit bits (DIRECTION_BIT cfg a')
       = Z.testbit (direction_bits (block_at planner i m1))
           (DIRECTION_BIT cfg a')) /\
    pos a (position (sys m'))
    = (if Z.testbit bits (STEP_BIT cfg a)
       then if Z.testbit bits (DIRECTION_BIT cfg a)
            then s32 (pos a (position (sys m1)) - 1)
            else s32 (pos a (position (sys m1)) + 1)
       else pos a (position (sys m1))) /\
    Z.testbit bits (STEP_BIT cfg a)
    = (0 <? s32 (counter a (st m1) + steps a (block_at planner i m1))).
Proof.
  intros Hf Hp Hd Hb Hpop Hc Hdir.
  rewrite (timer1_compare_interrupt_popped cfg planner m m1 i Hb Hpop Hc).
  destruct (isr_step_total cfg planner i m1 Hf) as (m3 & E & K).
  rewrite E. cbn [bind].
  destruct K as (K1 & K2 & K3 & _).
  destruct (isr_bresenham_axis cfg a (block_at planner i m1) m1 Hp)
    as (_ & Bp & _ & Bd).
  pose proof (isr_bresenham_step_bit a (block_at planner i m1) m1 Hp Hd Hdir)
    as Bs.
  destruct (isr_finish_frame m3) as (_ & _ & _ & F4 & _ & F6 & _ & F8).
  exists (isr_finish m3), (out_bits m3).
  rewrite F4, F6, F8, K2, K3, Bp, Bs, Bd.
  repeat split; try reflexivity. exact Bd.
Qed.

End PulseAndPosition.

Lemma pulse_exactly_when_position_moves_witness :
  exists m' bits,
    timer1_compare_interrupt lm4f_config ring_planner accelerating = Some m' /\
    out_bits m' = Z.lxor bits (invert_mask (settings m')) /\
    Z.testbit bits 4 = false /\
    pos Z_AXIS (position (sys m')) = 0.
Proof.
  assert (Hf : floor_ok lm4f_config) by reflexivity.
  assert (Hp : pins_ok lm4f_config).
  { split; intros a; [destruct a; split; discriminate |].
    intros a'; destruct a, a'; discriminate. }
  assert (Hd : step_pins_distinct lm4f_config).
  { intros a a' Hne. destruct a, a'; try discriminate; congruence. }
  destruct (pulse_exactly_when_position_moves lm4f_config ring_planner
              accelerating (isr_pulse lm4f_config accelerating) 0%nat Z_AXIS
              Hf Hp Hd eq_refl eq_refl eq_refl eq_refl)
    as (m' & bits & E & O & _ & Q & S).
  assert (S' : Z.testbit bits 4 = false).
  { etransitivity; [exact S |]. vm_compute. reflexivity. }
  exists m', bits. repeat split; try assumption.
  etransitivity; [exact Q |].
  change (STEP_BIT lm4f_config Z_AXIS) with 4. rewrite S'.
  vm_compute. reflexivity.
Defined.

(* ================================================================== *)
(** * The deceleration tail (section 4.D) *)

Section DecelerationTail.
Context (cfg : config_h) {P : Type} (planner : planner_h P).

(** Lines 205-225 give [st.min_safe_rate] its value when they take a
    block, and leave it when a block is in progress. *)
Lemma isr_pop_block_min_safe (m m1 : machine P) :
  floor_ok cfg ->
  min_safe_rate_set planner m ->
  isr_pop_block cfg planner m = Some m1 ->
  min_safe_rate_set planner m1.
Proof.
  intros Hf Hinv Hpop.
  destruct (current_block m) as [i' |] eqn:Hcb.
  - rewrite (isr_pop_block_running cfg planner m i' Hcb) in Hpop.
    injection Hpop as <-. exact Hinv.
  - destruct (plan_get_current_block planner (plan m)) as [j |] eqn:Hg.
    + destruct (isr_pop_block_some cfg planner m j Hf Hcb Hg)
        as (m2 & E & C & Pl & _ & _ & _ & _ & _ & _ & _ & M & _).
      rewrite E in Hpop. injection Hpop as <-.
      intros k Hk. rewrite C in Hk. injection Hk as <-.
      rewrite M. unfold block_at. rewrite Pl. reflexivity.
    + destruct (isr_pop_block_none cfg planner m Hcb Hg)
        as (m2 & E & C & _).
      rewrite E in Hpop. injection Hpop as <-.
      intros k Hk. rewrite C in Hk. discriminate.
Qed.

(** Lines 227-343 never write [st.min_safe_rate], and release the block
    when they discard it. *)
Lemma isr_step_min_safe (i : nat) (m m3 : machine P) :
  floor_ok cfg ->
  current_block m = Some i ->
  min_safe_rate_set planner m ->
  isr_step cfg planner i m = Some m3 ->
  min_safe_rate_set planner m3.
Proof.
  intros Hf Hc Hinv E.
  destruct (isr_bresenham_frame cfg (block_at planner i m) m)
    as (B1 & B2 & _ & _ & _ & _ & _ & _ & _ & _ & _ & _ & B13 & _).
  destruct (Z.lt_ge_cases (step_event m)
              (step_event_count (block_at planner i m))) as [Hlt | Hge].
  - rewrite isr_step_in_block in E by exact Hlt.
    assert (R : rate_frame (isr_bresenham cfg (block_at planner i m) m) m3).
    { destruct (state_eqb _ _).
      - destruct (isr_feed_hold_frame cfg (block_at planner i m)
                    (isr_bresenham cfg (block_at planner i m) m) Hf)
          as (m3' & E' & F).
        rewrite E' in E. injection E as <-. exact F.
      - destruct (isr_trapezoid_frame cfg (block_at planner i m)
                    (isr_bresenham cfg (block_at planner i m) m) Hf)
          as (m3' & E' & F).
        rewrite E' in E. injection E as <-. exact F. }
    destruct R as (R1 & R2 & _ & _ & _ & _ & _ & _ & _ & _ & R11).
    intros k Hk. rewrite R1, B1, Hc in Hk. injection Hk as <-.
    rewrite R11, B13, (Hinv i Hc). unfold block_at.
    rewrite R2, B2. reflexivity.
  - rewrite isr_step_finished in E by exact Hge.
    injection E as <-. intros k Hk.
    cbn [set_plan set_current_block current_block] in Hk. discriminate.
Qed.

(** C4.  [st.min_safe_rate] is initialised by line 215 to
    [rate_delta + (rate_delta >> 1)] of the block taken and written
    nowhere else: that it holds this value for the block in progress, if
    any, is kept by every firing of the step interrupt.  With that, outside
    a feed hold, on a firing that has a block which the step event does not
    finish and whose thresholds are ordered ([m1] is the machine at line
    227): on the firing where [step_events_completed] equals
    [decelerate_after] the tick counter is reset, to
    [CYCLES_PER_ACCELERATION_TICK/2] if the rate equals [nominal_rate] and to
    [CYCLES_PER_ACCELERATION_TICK] minus the counter otherwise, the rate
    staying; on a later firing tick [rate_delta] is subtracted if the rate is
    above [rate_delta + (rate_delta >> 1)], the rate is halved otherwise,
    and the result is clamped to [final_rate] from below; a later firing
    without a tick leaves the rate. *)
Theorem trapezoid_deceleration_tail (m : machine P) :
  floor_ok cfg ->
  min_safe_rate_set planner m ->
  exists m',
    timer1_compare_interrupt cfg planner m = Some m' /\
    min_safe_rate_set planner m' /\
    forall m1 i,
      busy m = false ->
      isr_pop_block cfg planner (isr_pulse cfg m) = Some m1 ->
      current_block m1 = Some i ->
      state (sys m) <> STATE_HOLD ->
      step_event m1 < step_event_count (block_at planner i m1) ->
      accelerate_until (block_at planner i m1)
      <= decelerate_after (block_at planner i m1) ->
      min_safe_rate (st m1)
      = u32 (rate_delta (block_at planner i m1)
             + Z.shiftr (rate_delta (block_at planner i m1)) 1) /\
      (step_event m1 = decelerate_after (block_at planner i m1) ->
       trapezoid_adjusted_rate (st m') = trapezoid_adjusted_rate (st m1) /\
       (trapezoid_adjusted_rate (st m1) = nominal_rate (block_at planner i m1) ->
        trapezoid_tick_cycle_counter (st m')
        = Z.quot (CYCLES_PER_ACCELERATION_TICK cfg) 2) /\
       (trapezoid_adjusted_rate (st m1) <> nominal_rate (block_at planner i m1) ->
        trapezoid_tick_cycle_counter (st m')
        = u32 (CYCLES_PER_ACCELERATION_TICK cfg
               - trapezoid_tick_cycle_counter (st m1)))) /\
      (decelerate_after (block_at planner i m1) < step_event m1 ->
       (tick_fires cfg m1 = true ->
        trapezoid_adjusted_rate (st m')
        = Z.max (if u32 (rate_delta (block_at planner i m1)
                         + Z.shiftr (rate_delta (block_at planner i m1)) 1)
                    <? trapezoid_adjusted_rate (st m1)
                 then u32 (trapezoid_adjusted_rate (st m1)
                           - rate_delta (block_at planner i m1))
                 else trapezoid_adjusted_rate (st m1) / 2)
                (final_rate (block_at planner i m1))) /\
       (tick_fires cfg m1 = false ->
        trapezoid_adjusted_rate (st m') = trapezoid_adjusted_rate (st m1))).
Proof.
  intros Hf Hinv. unfold timer1_compare_interrupt.
  destruct (busy m) eqn:Hb.
  - exists m. split; [reflexivity |]. split; [exact Hinv |].
    intros m1 i Hb'. discriminate.
  - cbv zeta.
    destruct (isr_pop_block_keeps cfg planner (isr_pulse cfg m) Hf)
      as (m1 & E & C & _ & _).
    rewrite E. cbn [bind].
    assert (Hinv1 : min_safe_rate_set planner m1).
    { apply (isr_pop_block_min_safe (isr_pulse cfg m) m1 Hf); [| exact E].
      intros k Hk. exact (Hinv k Hk). }
    destruct C as (Cs & _).
    change (state (sys (isr_pulse cfg m))) with (state (sys m)) in Cs.
    destruct (current_block m1) as [i |] eqn:Hc.
    + destruct (isr_step_keeps cfg planner i m1 Hf) as (m3 & E3 & _).
      rewrite E3. cbn [bind].
      pose proof (isr_step_min_safe i m1 m3 Hf Hc Hinv1 E3) as Hinv3.
      destruct (isr_finish_frame m3) as (F1 & F2 & F3 & _).
      exists (isr_finish m3). split; [reflexivity |].
      split.
      { intros k Hk. rewrite F2 in Hk. rewrite F1. unfold block_at.
        rewrite F3. exact (Hinv3 k Hk). }
      intros m1' i' _ Hpop Hc' Hs Hlt Hord.
      injection Hpop as <-. rewrite Hc in Hc'. injection Hc' as <-.
      set (b := block_at planner i m1) in *.
      split; [exact (Hinv1 i Hc) |].
      rewrite isr_step_in_block in E3 by exact Hlt.
      rewrite Cs, (state_eqb_neq _ _ Hs) in E3. fold b in E3.
      pose proof (isr_bresenham_frame cfg b m1) as F.
      pose proof (tick_fires_frame cfg _ _ F) as Tf.
      destruct F as (_ & _ & _ & _ & _ & _ & _ & _ & _ & _ & Tt & Tr & Tm & Te).
      rewrite F1. split.
      * intros Heq.
        destruct (isr_trapezoid_decel_start cfg b _ _
                    ltac:(rewrite Te; lia) ltac:(rewrite Te; exact Heq) E3)
          as (Hr & _ & Hk).
        rewrite Tr in Hr. rewrite Tr, Tt in Hk. rewrite Hr, Hk.
        split; [reflexivity |]. split; intros Hn.
        -- rewrite Hn, Z.eqb_refl. reflexivity.
        -- destruct (Z.eqb_spec (trapezoid_adjusted_rate (st m1))
                       (nominal_rate b)); [contradiction | reflexivity].
      * intros Hgt.
        destruct (isr_trapezoid_decelerating cfg b _ _ Hf
                    ltac:(rewrite Te; lia) ltac:(rewrite Te; exact Hgt) E3)
          as (_ & Hr).
        rewrite Tf, Tr, Tm, shiftr_1_half, (Hinv1 i Hc) in Hr. fold b in Hr.
        split; intros Hfire; rewrite Hfire in Hr; exact Hr.
    + cbn [bind]. exists (isr_finish m1). split; [reflexivity |].
      split.
      { intros k Hk.
        change (current_block (isr_finish m1)) with (current_block m1) in Hk.
        rewrite Hc in Hk. discriminate. }
      intros m1' i' _ Hpop Hc'.
      injection Hpop as <-. rewrite Hc in Hc'. discriminate.
Qed.

End DecelerationTail.

Lemma trapezoid_deceleration_tail_witness :
  floor_ok lm4f_config /\ min_safe_rate_set ring_planner braking_next /\
  exists m',
    timer1_compare_interrupt lm4f_config ring_planner braking_next = Some m' /\
    min_safe_rate (st m') = 900 /\
    trapezoid_adjusted_rate (st m') = 2400.
Proof.
  assert (Hf : floor_ok lm4f_config) by reflexivity.
  assert (Hinv : min_safe_rate_set ring_planner braking_next)
    by (intros i Hi; discriminate Hi).
  split; [exact Hf |]. split; [exact Hinv |].
  destruct (trapezoid_deceleration_tail lm4f_config ring_planner braking_next
              Hf Hinv) as (m' & E & Hinv' & H).
  exists m'. split; [exact E |].
  pose (m1 := match isr_pop_block lm4f_config ring_planner
                      (isr_pulse lm4f_config braking_next) with
              | Some x => x
              | None => braking_next
              end).
  assert (Ep : isr_pop_block lm4f_config ring_planner
                 (isr_pulse lm4f_config braking_next) = Some m1)
    by (vm_compute; reflexivity).
  assert (Hc : current_block m1 = Some 0%nat) by (vm_compute; reflexivity).
  assert (Hs : state (sys braking_next) <> STATE_HOLD)
    by (simpl; discriminate).
  assert (Hlt : step_event m1 < step_event_count (block_at ring_planner 0 m1))
    by (vm_compute; reflexivity).
  assert (Hord : accelerate_until (block_at ring_planner 0 m1)
                 <= decelerate_after (block_at ring_planner 0 m1))
    by (vm_compute; discriminate).
  destruct (H m1 0%nat eq_refl Ep Hc Hs Hlt Hord) as (_ & _ & Ht).
  assert (Hgt : decelerate_after (block_at ring_planner 0 m1) < step_event m1)
    by (vm_compute; reflexivity).
  destruct (Ht Hgt) as (Hr & _).
  assert (Hfire : tick_fires lm4f_config m1 = true)
    by (vm_compute; reflexivity).
  split.
  - assert (Hcb : current_block m' = Some 0%nat)
      by (vm_compute in E; injection E as <-; reflexivity).
    rewrite (Hinv' 0%nat Hcb).
    vm_compute in E. injection E as <-. vm_compute. reflexivity.
  - rewrite (Hr Hfire). vm_compute. reflexivity.
Defined.

(* ================================================================== *)
(** * The acceleration cap between two ticks (section 8, property 3) *)

Section BetweenTicks.
Context (cfg : config_h) {P : Type} (planner : planner_h P).

Lemma bind_some {A B : Type} (a : A) (k : A -> option B) :
  bind (Some a) k = k a.
Proof. reflexivity. Qed.

Lemma some_inj {A : Type} (a b : A) : Some a = Some b -> a = b.
Proof. intros [= H]. exact H. Qed.

Lemma between_ticks_spec (i : nat) (m : machine P) :
  between_ticks cfg planner i m = true ->
  busy m = false /\ current_block m = Some i /\
  acceleration_tick cfg (block_at planner i m) m = false.
Proof.
  unfold between_ticks. intros H.
  apply andb_prop in H. destruct H as [H Ht].
  apply andb_prop in H. destruct H as [Hb Hc].
  destruct (busy m); [discriminate |].
  destruct (current_block m) as [j |]; [| discriminate].
  apply Nat.eqb_eq in Hc. subst j.
  destruct (acceleration_tick cfg (block_at planner i m) m);
    [discriminate |].
  repeat split; reflexivity.
Qed.

Lemma tick_at_spec (i : nat) (m : machine P) :
  tick_at cfg planner i m = true ->
  busy m = false /\ current_block m = Some i /\
  acceleration_tick cfg (block_at planner i m) m = true.
Proof.
  unfold tick_at. intros H.
  apply andb_prop in H. destruct H as [H Ht].
  apply andb_prop in H. destruct H as [Hb Hc].
  destruct (busy m); [discriminate |].
  destruct (current_block m) as [j |]; [| discriminate].
  apply Nat.eqb_eq in Hc. subst j.
  repeat split; try reflexivity. exact Ht.
Qed.

(** A firing that has a block which its step event does not finish, seen
    from the machine [m1] at line 227: the result is the generator's (or the
    feed hold's) with the invert mask applied and [busy] released. *)
Lemma firing_from (m m1 m' : machine P) (i : nat) :
  floor_ok cfg -> busy m = false ->
  isr_pop_block cfg planner (isr_pulse cfg m) = Some m1 ->
  current_block m1 = Some i ->
  step_event m1 < step_event_count (block_at planner i m1) ->
  timer1_compare_interrupt cfg planner m = Some m' ->
  exists m3,
    (if state_eqb (state (sys m1)) STATE_HOLD
     then isr_feed_hold cfg (block_at planner i m1)
            (isr_bresenham cfg (block_at planner i m1) m1)
     else isr_trapezoid cfg (block_at planner i m1)
            (isr_bresenham cfg (block_at planner i m1) m1)) = Some m3 /\
    m' = isr_finish m3 /\
    rate_frame (isr_bresenham cfg (block_at planner i m1) m1) m3.
Proof.
  intros Hf Hb Hpop Hc Hlt E.
  rewrite (timer1_compare_interrupt_popped cfg planner m m1 i Hb Hpop Hc) in E.
  rewrite isr_step_in_block in E by exact Hlt.
  destruct (state_eqb (state (sys m1)) STATE_HOLD).
  - destruct (isr_feed_hold_frame cfg (block_at planner i m1)
                (isr_bresenham cfg (block_at planner i m1) m1) Hf)
      as (m3 & E3 & F).
    rewrite E3 in E. cbn [bind] in E. injection E as <-.
    exists m3. split; [exact E3 |]. split; [reflexivity | exact F].
  - destruct (isr_trapezoid_frame cfg (block_at planner i m1)
                (isr_bresenham cfg (block_at planner i m1) m1) Hf)
      as (m3 & E3 & F).
    rewrite E3 in E. cbn [bind] in E. injection E as <-.
    exists m3. split; [exact E3 |]. split; [reflexivity | exact F].
Qed.

(** What the first of two ticks leaves: the block still in progress, and
    a rate the clamp of that tick has put at or below [nominal_rate]
    (acceleration), at or above [final_rate] (deceleration). *)
Lemma first_tick (m0 m0' m1 : machine P) (i : nat) :
  floor_ok cfg -> busy m0 = false ->
  isr_pop_block cfg planner (isr_pulse cfg m0) = Some m0' ->
  current_block m0' = Some i ->
  acceleration_tick cfg (block_at planner i m0') m0' = true ->
  timer1_compare_interrupt cfg planner m0 = Some m1 ->
  current_block m1 = Some i /\ plan m1 = plan m0' /\ busy m1 = false /\
  state (sys m1) = state (sys m0') /\
  step_events_completed (st m1) = step_event m0' /\
  min_safe_rate (st m1) = min_safe_rate (st m0') /\
  step_event m0' < step_event_count (block_at planner i m0') /\
  (state (sys m0') <> STATE_HOLD ->
   step_event m0' < accelerate_until (block_at planner i m0') ->
   trapezoid_adjusted_rate (st m1) <= nominal_rate (block_at planner i m0')) /\
  (state (sys m0') <> STATE_HOLD ->
   accelerate_until (block_at planner i m0') <= step_event m0' ->
   final_rate (block_at planner i m0') <= trapezoid_adjusted_rate (st m1)).
Proof.
  intros Hf Hb Hpop Hc Htick E.
  unfold acceleration_tick in Htick.
  apply andb_prop in Htick. destruct Htick as [Htick Hfire].
  apply andb_prop in Htick. destruct Htick as [Hlt Hwhere].
  apply Z.ltb_lt in Hlt.
  destruct (firing_from m0 m0' m1 i Hf Hb Hpop Hc Hlt E) as (m3 & E3 & -> & R).
  set (b := block_at planner i m0') in *.
  pose proof (isr_bresenham_frame cfg b m0') as F.
  pose proof (tick_fires_frame cfg _ _ F) as Tf.
  destruct F as (B1 & B2 & _ & _ & _ & _ & B7 & _ & _ & _ & _ & _ & B13 & B14).
  destruct R as (R1 & R2 & _ & _ & _ & R6 & _ & _ & _ & R10 & R11).
  destruct (isr_finish_frame m3) as (F1 & F2 & F3 & F4 & _ & _ & F7 & _).
  rewrite F1, F2, F3, F4, F7, R1, R2, R6, R10, R11, B1, B2, B7, B13, B14.
  split; [exact Hc |].
  do 5 (split; [reflexivity |]). split; [exact Hlt |].
  split; intros Hs Ha; rewrite (state_eqb_neq _ _ Hs) in E3.
  - destruct (isr_trapezoid_accelerating cfg b _ _ Hf
                ltac:(rewrite B14; exact Ha) E3) as (_ & V).
    rewrite Tf, Hfire in V. rewrite V. apply Z.le_min_r.
  - rewrite (state_eqb_neq _ _ Hs) in Hwhere. cbn [orb] in Hwhere.
    destruct (Z.ltb_spec (step_event m0') (accelerate_until b)); [lia |].
    cbn [orb] in Hwhere. apply Z.ltb_lt in Hwhere.
    destruct (isr_trapezoid_decelerating cfg b _ _ Hf
                ltac:(rewrite B14; exact Ha)
                ltac:(rewrite B14; exact Hwhere) E3) as (_ & V).
    rewrite Tf, Hfire in V. rewrite V. apply Z.le_max_r.
Qed.

(** A firing between two ticks that does not have to force the cruise
    rate leaves the rate alone; if the block is still in progress afterwards, it is the
    same block, one step event further. *)
Lemma quiet_firing (m m' : machine P) (i : nat) :
  floor_ok cfg ->
  quiet cfg planner i m = true ->
  timer1_compare_interrupt cfg planner m = Some m' ->
  trapezoid_adjusted_rate (st m') = trapezoid_adjusted_rate (st m) /\
  (current_block m' = Some i ->
   plan m' = plan m /\ busy m' = false /\
   state (sys m') = state (sys m) /\
   step_events_completed (st m') = step_event m /\
   min_safe_rate (st m') = min_safe_rate (st m) /\
   step_event m < step_event_count (block_at planner i m)).
Proof.
  intros Hf Hq E. unfold quiet in Hq.
  apply andb_prop in Hq. destruct Hq as [Hq Hcr].
  destruct (between_ticks_spec i m Hq) as (Hb & Hc & Hnt).
  destruct (Z.lt_ge_cases (step_event m)
              (step_event_count (block_at planner i m))) as [Hlt | Hge].
  - destruct (firing_in_block cfg planner m i Hf Hb Hc Hlt)
      as (m3 & E3 & R & Fr).
    rewrite R in E. apply some_inj in E. subst m'.
    destruct (traced_state cfg (block_at planner i m) m)
      as (Tr & _ & _ & Tm & Te & Tf & _ & Ts & _ & Tcb & Tp).
    set (b := block_at planner i m) in *.
    destruct Fr as (R1 & R2 & _ & _ & _ & R6 & _ & _ & _ & R10 & R11).
    destruct (isr_finish_frame m3) as (F1 & F2 & F3 & F4 & _ & _ & F7 & _).
    rewrite F1, F2, F3, F4, F7, R2, R6, R10, R11, Tm, Te, Ts, Tp.
    split; [| intros _; repeat split; try reflexivity; exact Hlt].
    unfold acceleration_tick in Hnt.
    unfold cruise_forcing, cruise_window in Hcr.
    rewrite (proj2 (Z.ltb_lt _ _) Hlt) in Hnt, Hcr. cbn [andb] in Hnt.
    destruct (state_eqb_spec (state (sys m)) STATE_HOLD) as [Hs | Hs].
    + cbn [orb andb] in Hnt.
      destruct (isr_feed_hold_value cfg b _ _ Hf E3) as (_ & V & _).
      rewrite Tf, Hnt, Tr in V. cbn [andb] in V. exact V.
    + cbn [orb negb andb] in Hnt, Hcr.
      destruct (Z.ltb_spec (step_event m) (accelerate_until b)) as [Ha | Ha].
      * cbn [orb andb] in Hnt.
        destruct (isr_trapezoid_accelerating cfg b _ _ Hf
                    ltac:(rewrite Te; exact Ha) E3) as (_ & V).
        rewrite Tf, Hnt in V. rewrite V, Tr. reflexivity.
      * cbn [orb] in Hnt.
        rewrite (proj2 (Z.leb_le _ _) Ha) in Hcr. cbn [andb] in Hcr.
        destruct (Z.ltb_spec (step_event m) (decelerate_after b))
          as [Hd | Hd].
        { cbn [andb negb] in Hcr.
          destruct (Z.eqb_spec (trapezoid_adjusted_rate (st m))
                      (nominal_rate b)) as [Hn | Hn]; [| discriminate].
          assert (Hw : accelerate_until b
                       <= step_events_completed
                            (st (isr_bresenham cfg b (isr_pulse cfg m)))
                       < decelerate_after b)
            by (rewrite Te; split; assumption).
          destruct (isr_trapezoid_cruising cfg b _ _ Hf Hw E3) as (_ & V).
          rewrite V, Hn. reflexivity. }
        destruct (Z.eq_dec (step_event m) (decelerate_after b)) as [He | He].
        -- destruct (isr_trapezoid_decel_start cfg b _ _
                       ltac:(rewrite Te; exact Ha)
                       ltac:(rewrite Te; exact He) E3) as (V & _).
           rewrite V, Tr. reflexivity.
        -- assert (Hgt : decelerate_after b < step_event m) by lia.
           rewrite (proj2 (Z.ltb_lt _ _) Hgt) in Hnt. cbn [andb] in Hnt.
           destruct (isr_trapezoid_decelerating cfg b _ _ Hf
                       ltac:(rewrite Te; exact Ha)
                       ltac:(rewrite Te; exact Hgt) E3) as (_ & V).
           rewrite Tf, Hnt in V. rewrite V, Tr. reflexivity.
  - rewrite (timer1_compare_interrupt_running cfg planner m i Hb Hc) in E.
    rewrite isr_step_finished in E by exact Hge.
    rewrite bind_some in E. apply some_inj in E. subst m'.
    destruct (isr_bresenham_frame cfg
                (block_at planner i (isr_pulse cfg m)) (isr_pulse cfg m))
      as (_ & _ & _ & B4 & _ & _ & _ & _ & _ & B10 & B11 & B12 & _).
    pose proof (released_machine cfg planner (isr_pulse cfg m) _ Hf
                  B4 B10 B11 B12) as K.
    cbv zeta in K. destruct K as (K1 & _ & _ & K4 & _).
    rewrite K1, K4. split; [reflexivity |].
    intros Hcm. discriminate.
Qed.

(** Where a run of firings ends with the block in progress, every firing
    of the run started with it in progress. *)
Lemma fire_while_current (i n : nat) (m mn : machine P) :
  fire_while cfg planner (quiet cfg planner i) n m = Some mn ->
  current_block mn = Some i -> current_block m = Some i.
Proof.
  destruct n as [| n]; cbn [fire_while].
  - intros [= <-] H. exact H.
  - destruct (quiet cfg planner i m) eqn:Hq; [| discriminate].
    intros _ _. unfold quiet in Hq. apply andb_prop in Hq.
    destruct Hq as [Hq _]. apply (between_ticks_spec i m Hq).
Qed.

(** A run of firings between two ticks, none forcing the cruise rate, on a
    block of fewer than 2^32 step events: rate, planner, state and
    [min_safe_rate] are at the end what they were at the start, and the
    count of step events has not gone back. *)
Lemma quiet_run (i n : nat) :
  floor_ok cfg ->
  forall m mn : machine P,
    fire_while cfg planner (quiet cfg planner i) n m = Some mn ->
    current_block mn = Some i ->
    0 <= step_events_completed (st m)
      < step_event_count (block_at planner i m) ->
    step_event_count (block_at planner i m) < 2 ^ 32 ->
    trapezoid_adjusted_rate (st mn) = trapezoid_adjusted_rate (st m) /\
    plan mn = plan m /\ state (sys mn) = state (sys m) /\
    min_safe_rate (st mn) = min_safe_rate (st m) /\
    step_events_completed (st m) <= step_events_completed (st mn)
      < step_event_count (block_at planner i m).
Proof.
  intros Hf. induction n as [| n IH]; intros m mn Hrun Hcn Hj Hsmall.
  - cbn [fire_while] in Hrun. injection Hrun as <-.
    repeat split; try reflexivity; lia.
  - cbn [fire_while] in Hrun.
    destruct (quiet cfg planner i m) eqn:Hq; [| discriminate].
    destruct (timer1_compare_interrupt cfg planner m) as [m' |] eqn:E;
      [| discriminate].
    cbn [bind] in Hrun.
    pose proof (fire_while_current i n m' mn Hrun Hcn) as Hc'.
    destruct (quiet_firing m m' i Hf Hq E) as (Kr & K).
    destruct (K Hc') as (Kp & _ & Ks & Kc & Km & Klt).
    assert (Hse : step_event m = step_events_completed (st m) + 1).
    { unfold step_event. apply u32_exact. unfold u32_ok. lia. }
    assert (Hb' : block_at planner i m' = block_at planner i m)
      by (unfold block_at; rewrite Kp; reflexivity).
    destruct (IH m' mn Hrun Hcn) as (I1 & I2 & I3 & I4 & I5).
    + rewrite Hb', Kc. lia.
    + rewrite Hb'. exact Hsmall.
    + rewrite Hb', Kc in I5.
      rewrite I1, I2, I3, I4, Kr, Kp, Ks, Km.
      repeat split; try reflexivity; lia.
Qed.

(** Lines 205-225 leave [sys.state] as it is. *)
Lemma isr_pop_block_state (m m1 : machine P) :
  floor_ok cfg ->
  isr_pop_block cfg planner m = Some m1 ->
  state (sys m1) = state (sys m).
Proof.
  intros Hf E.
  destruct (isr_pop_block_keeps cfg planner m Hf) as (m1' & E' & C & _).
  rewrite E' in E. apply some_inj in E. subst m1'. apply C.
Qed.

(** Two consecutive acceleration ticks of one block, with no firing in
    between that changes the rate to force the cruise rate. *)
Lemma rate_between_ticks (m0 m0' m1 mn : machine P)
  (i n : nat) :
  floor_ok cfg ->
  busy m0 = false ->
  isr_pop_block cfg planner (isr_pulse cfg m0) = Some m0' ->
  current_block m0' = Some i ->
  acceleration_tick cfg (block_at planner i m0') m0' = true ->
  timer1_compare_interrupt cfg planner m0 = Some m1 ->
  fire_while cfg planner (quiet cfg planner i) n m1 = Some mn ->
  tick_at cfg planner i mn = true ->
  min_safe_rate_set planner m0 ->
  0 <= rate_delta (block_at planner i m0') ->
  rate_delta (block_at planner i m0') + rate_delta (block_at planner i m0') / 2
  < 2 ^ 32 ->
  step_event_count (block_at planner i m0') < 2 ^ 32 ->
  nominal_rate (block_at planner i m0') + rate_delta (block_at planner i m0')
  < 2 ^ 32 ->
  u32_ok (trapezoid_adjusted_rate (st m1)) ->
  (state (sys m0) <> STATE_HOLD ->
   step_event m0' < accelerate_until (block_at planner i m0') ->
   accelerate_until (block_at planner i m0') <= step_event mn ->
   final_rate (block_at planner i m0')
   <= trapezoid_adjusted_rate (st m1) + rate_delta (block_at planner i m0')) ->
  exists m',
    timer1_compare_interrupt cfg planner mn = Some m' /\
    trapezoid_adjusted_rate (st mn) = trapezoid_adjusted_rate (st m1) /\
    Z.abs (trapezoid_adjusted_rate (st m') - trapezoid_adjusted_rate (st m1))
    <= rate_delta (block_at planner i m0') /\
    (state (sys m0) <> STATE_HOLD ->
     accelerate_until (block_at planner i m0') <= step_event mn ->
     trapezoid_adjusted_rate (st m1)
     <= rate_delta (block_at planner i m0')
        + rate_delta (block_at planner i m0') / 2 ->
     trapezoid_adjusted_rate (st m')
     = Z.max (trapezoid_adjusted_rate (st m1) / 2)
             (final_rate (block_at planner i m0')) /\
     trapezoid_adjusted_rate (st m1) - trapezoid_adjusted_rate (st m1) / 2
     <= rate_delta (block_at planner i m0')).
Proof.
  intros Hf Hb0 Hpop Hc0 Htick0 E0 Hrun Htn Hinv Hd Hd15 Hsmall Hnom Hr
         Hfin.
  destruct (first_tick m0 m0' m1 i Hf Hb0 Hpop Hc0 Htick0 E0)
    as (C1 & P1 & _ & S1 & Cm1 & M1 & Lt0 & Hacc1 & Hdec1).
  pose proof (isr_pop_block_state _ _ Hf Hpop) as S0.
  change (state (sys (isr_pulse cfg m0))) with (state (sys m0)) in S0.
  assert (Hinv0 : min_safe_rate_set planner m0').
  { apply (isr_pop_block_min_safe cfg planner (isr_pulse cfg m0) m0' Hf);
      [| exact Hpop].
    intros k Hk. exact (Hinv k Hk). }
  destruct (tick_at_spec i mn Htn) as (Hbn & Hcn & Htickn).
  set (b := block_at planner i m0') in *.
  assert (Hb1 : block_at planner i m1 = b)
    by (unfold b, block_at; rewrite P1; reflexivity).
  pose proof (u32_range (step_events_completed (st m0') + 1)) as Hse0.
  fold (step_event m0') in Hse0. unfold u32_ok in Hse0.
  destruct (quiet_run i n Hf m1 mn Hrun Hcn) as (Q1 & Q2 & Q3 & Q4 & Q5).
  { rewrite Hb1, Cm1. lia. }
  { rewrite Hb1. exact Hsmall. }
  rewrite Hb1, Cm1 in Q5.
  assert (Hbn' : block_at planner i mn = b)
    by (unfold b, block_at; rewrite Q2, P1; reflexivity).
  assert (Hsen : step_event mn = step_events_completed (st mn) + 1).
  { unfold step_event. apply u32_exact. unfold u32_ok. lia. }
  assert (Hsn : state (sys mn) = state (sys m0))
    by (rewrite Q3, S1, S0; reflexivity).
  assert (Hmin : min_safe_rate (st mn) = rate_delta b + rate_delta b / 2).
  { rewrite Q4, M1, (Hinv0 i Hc0). fold b. rewrite shiftr_1_half.
    apply u32_exact. unfold u32_ok.
    assert (0 <= rate_delta b / 2) by (apply Z.div_pos; lia). lia. }
  destruct (acceleration_tick_bound cfg planner mn i Hf Hbn Hcn Htickn)
    as (m' & E & Hcap & Hhalf).
  - rewrite Q1. exact Hr.
  - rewrite Hbn'. exact Hd.
  - rewrite Hbn', Hsn, Q1. intros Hs Ha. split; [| ].
    + apply Hacc1; [rewrite S0; exact Hs | lia].
    + assert (trapezoid_adjusted_rate (st m1) <= nominal_rate b)
        by (apply Hacc1; [rewrite S0; exact Hs | lia]).
      lia.
  - rewrite Hbn', Hsn, Q1. intros Hs Ha. split; [| exact Hmin].
    destruct (Z.lt_ge_cases (step_event m0') (accelerate_until b))
      as [Hfirst | Hfirst].
    + apply Hfin; assumption.
    + assert (final_rate b <= trapezoid_adjusted_rate (st m1))
        by (apply Hdec1; [rewrite S0; exact Hs | exact Hfirst]).
      lia.
  - rewrite Hbn', Hsn, Q1, Hmin in *.
    exists m'. split; [exact E |]. split; [reflexivity |].
    split; [exact Hcap | exact Hhalf].
Qed.

(** Lines 331-336: a firing in the cruise window forces the rate to
    [nominal_rate], tick or not. *)
Lemma cruise_forces_nominal (m m1 : machine P) (i : nat) :
  floor_ok cfg -> busy m = false ->
  isr_pop_block cfg planner (isr_pulse cfg m) = Some m1 ->
  current_block m1 = Some i ->
  cruise_window (block_at planner i m1) m1 = true ->
  exists m',
    timer1_compare_interrupt cfg planner m = Some m' /\
    trapezoid_adjusted_rate (st m') = nominal_rate (block_at planner i m1).
Proof.
  intros Hf Hb Hpop Hc Hcr.
  destruct (timer1_compare_interrupt_total cfg planner m Hf) as (m' & E).
  exists m'. split; [exact E |].
  unfold cruise_window in Hcr.
  apply andb_prop in Hcr. destruct Hcr as [Hcr Hd].
  apply andb_prop in Hcr. destruct Hcr as [Hcr Ha].
  apply andb_prop in Hcr. destruct Hcr as [Hs Hlt].
  apply Z.ltb_lt in Hlt. apply Z.ltb_lt in Hd. apply Z.leb_le in Ha.
  destruct (firing_from m m1 m' i Hf Hb Hpop Hc Hlt E) as (m3 & E3 & -> & _).
  destruct (state_eqb (state (sys m1)) STATE_HOLD); [discriminate |].
  destruct (isr_bresenham_frame cfg (block_at planner i m1) m1)
    as (_ & _ & _ & _ & _ & _ & _ & _ & _ & _ & _ & _ & _ & Te).
  destruct (isr_finish_frame m3) as (-> & _).
  assert (Hw : accelerate_until (block_at planner i m1)
               <= step_events_completed
                    (st (isr_bresenham cfg (block_at planner i m1) m1))
               < decelerate_after (block_at planner i m1))
    by (rewrite Te; split; assumption).
  apply (isr_trapezoid_cruising cfg _ _ _ Hf Hw E3).
Qed.

(** Lines 209-213: taking a block sets the rate to its [initial_rate] in
    the Cycle state, and leaves the rate in every other state. *)
Lemma pop_sets_initial_rate (m m1 : machine P) (j : nat) :
  floor_ok cfg ->
  current_block m = None ->
  plan_get_current_block planner (plan m) = Some j ->
  isr_pop_block cfg planner (isr_pulse cfg m) = Some m1 ->
  current_block m1 = Some j /\
  (state (sys m) = STATE_CYCLE ->
   trapezoid_adjusted_rate (st m1) = initial_rate (block_at planner j m)) /\
  (state (sys m) <> STATE_CYCLE ->
   trapezoid_adjusted_rate (st m1) = trapezoid_adjusted_rate (st m)).
Proof.
  intros Hf Hc Hg Hpop.
  destruct (isr_pop_block_some cfg planner (isr_pulse cfg m) j Hf Hc Hg)
    as (m2 & E & C & _ & _ & _ & _ & _ & _ & _ & _ & _ & Kc & Kn).
  rewrite E in Hpop. apply some_inj in Hpop. subst m2.
  split; [exact C |]. split.
  - intros Hs. apply (Kc Hs).
  - intros Hs. apply (Kn Hs).
Qed.

(** C1, as the code has it.  First, within a block.  Take two consecutive
    acceleration ticks of a block, the first on the firing from [m0] (which
    may be the one that takes the block; [m0'] is the machine at line 227)
    leaving [m1], the second on the firing from [mn], reached from [m1] by
    [n] firings on the block that are no ticks.  If none of these [n]
    firings finds the rate off [nominal_rate] in the cruise window and
    forces it (lines 334-335), they leave the rate as the first tick left
    it, and the second tick changes it by at most [rate_delta], provided
    that, when the first tick accelerated and the second decelerates, the
    rate is not more than [rate_delta] below [final_rate].  The rate is a
    32-bit value, the block has fewer than 2^32 step events,
    [nominal_rate + rate_delta] and one and a half times [rate_delta] fit
    32 bits, and [min_safe_rate] is what line 215 sets.  A half step, taken
    when the rate is at most one and a half times [rate_delta], leaves the
    greater of half the rate (rounded down) and [final_rate], and what it
    takes off is at most [rate_delta].  Second and third, the two places
    that change the rate without a tick and without regard to
    [rate_delta]: a firing in the cruise window (lines 331-336) forces the
    rate to [nominal_rate], and taking a block in the Cycle state (lines
    209-213) sets it to the block's [initial_rate]. *)
Theorem acceleration_cap_within_profile :
  floor_ok cfg ->
  (forall (m0 m0' m1 mn : machine P) (i n : nat),
     busy m0 = false ->
     isr_pop_block cfg planner (isr_pulse cfg m0) = Some m0' ->
     current_block m0' = Some i ->
     acceleration_tick cfg (block_at planner i m0') m0' = true ->
     timer1_compare_interrupt cfg planner m0 = Some m1 ->
     fire_while cfg planner (quiet cfg planner i) n m1 = Some mn ->
     tick_at cfg planner i mn = true ->
     min_safe_rate_set planner m0 ->
     0 <= rate_delta (block_at planner i m0') ->
     rate_delta (block_at planner i m0')
     + rate_delta (block_at planner i m0') / 2 < 2 ^ 32 ->
     step_event_count (block_at planner i m0') < 2 ^ 32 ->
     nominal_rate (block_at planner i m0')
     + rate_delta (block_at planner i m0') < 2 ^ 32 ->
     u32_ok (trapezoid_adjusted_rate (st m1)) ->
     (state (sys m0) <> STATE_HOLD ->
      step_event m0' < accelerate_until (block_at planner i m0') ->
      accelerate_until (block_at planner i m0') <= step_event mn ->
      final_rate (block_at planner i m0')
      <= trapezoid_adjusted_rate (st m1)
         + rate_delta (block_at planner i m0')) ->
     exists m',
       timer1_compare_interrupt cfg planner mn = Some m' /\
       trapezoid_adjusted_rate (st mn) = trapezoid_adjusted_rate (st m1) /\
       Z.abs (trapezoid_adjusted_rate (st m')
              - trapezoid_adjusted_rate (st m1))
       <= rate_delta (block_at planner i m0') /\
       (state (sys m0) <> STATE_HOLD ->
        accelerate_until (block_at planner i m0') <= step_event mn ->
        trapezoid_adjusted_rate (st m1)
        <= rate_delta (block_at planner i m0')
           + rate_delta (block_at planner i m0') / 2 ->
        trapezoid_adjusted_rate (st m')
        = Z.max (trapezoid_adjusted_rate (st m1) / 2)
                (final_rate (block_at planner i m0')) /\
        trapezoid_adjusted_rate (st m1)
        - trapezoid_adjusted_rate (st m1) / 2
        <= rate_delta (block_at planner i m0'))) /\
  (forall (m m1 : machine P) (i : nat),
     busy m = false ->
     isr_pop_block cfg planner (isr_pulse cfg m) = Some m1 ->
     current_block m1 = Some i ->
     cruise_window (block_at planner i m1) m1 = true ->
     exists m',
       timer1_compare_interrupt cfg planner m = Some m' /\
       trapezoid_adjusted_rate (st m')
       = nominal_rate (block_at planner i m1)) /\
  (forall (m m1 : machine P) (j : nat),
     current_block m = None ->
     plan_get_current_block planner (plan m) = Some j ->
     isr_pop_block cfg planner (isr_pulse cfg m) = Some m1 ->
     current_block m1 = Some j /\
     (state (sys m) = STATE_CYCLE ->
      trapezoid_adjusted_rate (st m1)
      = initial_rate (block_at planner j m)) /\
     (state (sys m) <> STATE_CYCLE ->
      trapezoid_adjusted_rate (st m1) = trapezoid_adjusted_rate (st m))).
Proof.
  intros Hf. split; [| split].
  - intros m0 m0' m1 mn i n. apply rate_between_ticks. exact Hf.
  - intros m m1 i. apply cruise_forces_nominal. exact Hf.
  - intros m m1 j. apply pop_sets_initial_rate. exact Hf.
Qed.

End BetweenTicks.

(** The long move in its deceleration: a tick, three firings without one,
    and the next tick. *)
Lemma acceleration_cap_within_profile_witness :
  floor_ok lm4f_config /\
  exists m',
    timer1_compare_interrupt lm4f_config ring_planner (after 4 tail_at_speed)
    = Some m' /\
    trapezoid_adjusted_rate (st (after 4 tail_at_speed))
    = trapezoid_adjusted_rate (st (after 1 tail_at_speed)) /\
    Z.abs (trapezoid_adjusted_rate (st m')
           - trapezoid_adjusted_rate (st (after 1 tail_at_speed)))
    <= 600.
Proof.
  assert (Hf : floor_ok lm4f_config) by reflexivity.
  split; [exact Hf |].
  destruct (acceleration_cap_within_profile lm4f_config ring_planner Hf)
    as (Hcap & _ & _).
  assert (Hpop : isr_pop_block lm4f_config ring_planner
                   (isr_pulse lm4f_config tail_at_speed)
                 = Some (isr_pulse lm4f_config tail_at_speed))
    by reflexivity.
  assert (Htick : acceleration_tick lm4f_config
                    (block_at ring_planner 0
                       (isr_pulse lm4f_config tail_at_speed))
                    (isr_pulse lm4f_config tail_at_speed) = true)
    by (vm_compute; reflexivity).
  assert (E0 : timer1_compare_interrupt lm4f_config ring_planner tail_at_speed
               = Some (after 1 tail_at_speed))
    by (vm_compute; reflexivity).
  assert (Hrun : fire_while lm4f_config ring_planner
                   (quiet lm4f_config ring_planner 0) 3
                   (after 1 tail_at_speed)
                 = Some (after 4 tail_at_speed))
    by (vm_compute; reflexivity).
  assert (Htn : tick_at lm4f_config ring_planner 0 (after 4 tail_at_speed)
                = true)
    by (vm_compute; reflexivity).
  assert (Hinv : min_safe_rate_set ring_planner tail_at_speed).
  { intros i Hi. injection Hi as <-. vm_compute. reflexivity. }
  destruct (Hcap tail_at_speed (isr_pulse lm4f_config tail_at_speed)
              (after 1 tail_at_speed) (after 4 tail_at_speed) 0%nat 3%nat
              eq_refl Hpop eq_refl Htick E0 Hrun Htn Hinv)
    as (m' & E & Hsame & Hbound & _).
  - vm_compute. discriminate.
  - vm_compute. reflexivity.
  - vm_compute. reflexivity.
  - vm_compute. reflexivity.
  - vm_compute. split; [discriminate | reflexivity].
  - intros _ H. vm_compute in H. discriminate H.
  - exists m'. split; [exact E |]. split; [exact Hsame | exact Hbound].
Defined.

(** The inputs of the three runs below are states the step interrupt
    reaches by itself from the start of the cycle. *)
Lemma ramp_28_reached :
  fire lm4f_config ring_planner 28 ramp_start = Some ramp_28.
Proof. vm_compute. reflexivity. Qed.

Lemma triangle_10_reached :
  fire lm4f_config ring_planner 10 triangle_start = Some triangle_10.
Proof. vm_compute. reflexivity. Qed.

Lemma spurt_1_reached :
  fire lm4f_config ring_planner 1 two_start = Some spurt_1.
Proof. vm_compute. reflexivity. Qed.

(** C1 as the specification words it fails, in three ways.  On the ramp the
    29th step event is an acceleration tick that leaves the rate at 3700;
    the 30th forces the cruise rate, 6000, without a tick, the 31st is the
    boundary, and the 32nd, the next tick, leaves 5900: a change of 2200
    between two consecutive ticks, against a [rate_delta] of 100.  On the
    short triangle the 11th step event is an acceleration tick that leaves
    1900, the 12th is the boundary, and the 13th, the next tick, finds the
    rate below [final_rate] and lifts it to 3000: a change of 1100 against
    100.  With two blocks queued the second step event of the first is an
    acceleration tick that leaves 1000, the third finishes the block, and
    the next firing takes the second block, which sets the rate to its
    [initial_rate], 3000, and is a tick that leaves 3100: a change of 2100
    against 100. *)
Lemma acceleration_cap_broken :
  ~ acceleration_cap lm4f_config ring_planner ramp_28 /\
  ~ acceleration_cap lm4f_config ring_planner triangle_10 /\
  ~ acceleration_cap lm4f_config ring_planner spurt_1.
Proof.
  split; [| split]; intros H.
  - assert (T0 : ticks lm4f_config ring_planner ramp_28 = true)
      by (vm_compute; reflexivity).
    assert (E0 : timer1_compare_interrupt lm4f_config ring_planner ramp_28
                 = Some (after 1 ramp_28)) by (vm_compute; reflexivity).
    assert (Hrun : fire_while lm4f_config ring_planner
                     (fun m => negb (ticks lm4f_config ring_planner m)) 2
                     (after 1 ramp_28) = Some (after 3 ramp_28))
      by (vm_compute; reflexivity).
    assert (Tn : ticks lm4f_config ring_planner (after 3 ramp_28) = true)
      by (vm_compute; reflexivity).
    assert (Hpop : isr_pop_block lm4f_config ring_planner
                     (isr_pulse lm4f_config (after 3 ramp_28))
                   = Some (isr_pulse lm4f_config (after 3 ramp_28)))
      by (vm_compute; reflexivity).
    assert (Hc : current_block (isr_pulse lm4f_config (after 3 ramp_28))
                 = Some 0%nat) by (vm_compute; reflexivity).
    assert (E : timer1_compare_interrupt lm4f_config ring_planner
                  (after 3 ramp_28) = Some (after 4 ramp_28))
      by (vm_compute; reflexivity).
    pose proof (H (after 1 ramp_28) 2%nat (after 3 ramp_28)
                  (isr_pulse lm4f_config (after 3 ramp_28)) 0%nat
                  (after 4 ramp_28) T0 E0 Hrun Tn Hpop Hc E) as K.
    vm_compute in K. apply K. reflexivity.
  - assert (T0 : ticks lm4f_config ring_planner triangle_10 = true)
      by (vm_compute; reflexivity).
    assert (E0 : timer1_compare_interrupt lm4f_config ring_planner triangle_10
                 = Some (after 1 triangle_10)) by (vm_compute; reflexivity).
    assert (Hrun : fire_while lm4f_config ring_planner
                     (fun m => negb (ticks lm4f_config ring_planner m)) 1
                     (after 1 triangle_10) = Some (after 2 triangle_10))
      by (vm_compute; reflexivity).
    assert (Tn : ticks lm4f_config ring_planner (after 2 triangle_10) = true)
      by (vm_compute; reflexivity).
    assert (Hpop : isr_pop_block lm4f_config ring_planner
                     (isr_pulse lm4f_config (after 2 triangle_10))
                   = Some (isr_pulse lm4f_config (after 2 triangle_10)))
      by (vm_compute; reflexivity).
    assert (Hc : current_block (isr_pulse lm4f_config (after 2 triangle_10))
                 = Some 0%nat) by (vm_compute; reflexivity).
    assert (E : timer1_compare_interrupt lm4f_config ring_planner
                  (after 2 triangle_10) = Some (after 3 triangle_10))
      by (vm_compute; reflexivity).
    pose proof (H (after 1 triangle_10) 1%nat (after 2 triangle_10)
                  (isr_pulse lm4f_config (after 2 triangle_10)) 0%nat
                  (after 3 triangle_10) T0 E0 Hrun Tn Hpop Hc E) as K.
    vm_compute in K. apply K. reflexivity.
  - pose (taken := match isr_pop_block lm4f_config ring_planner
                           (isr_pulse lm4f_config (after 2 spurt_1)) with
                   | Some m => m
                   | None => spurt_1
                   end).
    assert (T0 : ticks lm4f_config ring_planner spurt_1 = true)
      by (vm_compute; reflexivity).
    assert (E0 : timer1_compare_interrupt lm4f_config ring_planner spurt_1
                 = Some (after 1 spurt_1)) by (vm_compute; reflexivity).
    assert (Hrun : fire_while lm4f_config ring_planner
                     (fun m => negb (ticks lm4f_config ring_planner m)) 1
                     (after 1 spurt_1) = Some (after 2 spurt_1))
      by (vm_compute; reflexivity).
    assert (Tn : ticks lm4f_config ring_planner (after 2 spurt_1) = true)
      by (vm_compute; reflexivity).
    assert (Hpop : isr_pop_block lm4f_config ring_planner
                     (isr_pulse lm4f_config (after 2 spurt_1))
                   = Some taken)
      by (vm_compute; reflexivity).
    assert (Hc : current_block taken = Some 1%nat)
      by (vm_compute; reflexivity).
    assert (E : timer1_compare_interrupt lm4f_config ring_planner
                  (after 2 spurt_1) = Some (after 3 spurt_1))
      by (vm_compute; reflexivity).
    pose proof (H (after 1 spurt_1) 1%nat (after 2 spurt_1) taken 1%nat
                  (after 3 spurt_1) T0 E0 Hrun Tn Hpop Hc E) as K.
    vm_compute in K. apply K. reflexivity.
Qed.
